(** * Paging core of the customised xv6 kernel: CoW registry, teardown,
      swap allocator, eviction, page-in and the fault dispatcher.

    The development follows the two source files
      - kernel/cow.c     (module [Cow])
      - kernel/pfault.c  (module [Pfault])
    C [int]/[uint64] values are integers in [Z]; arrays are lists read with
    [!!] and written with [<[ i := x ]>]; a call that can stop the kernel
    returns an [outcome]. *)

From Stdlib Require Import ZArith Lia Ascii String.
From Stdlib.Strings Require Import Byte.
From stdpp Require Import base option list gmap strings.

Local Open Scope Z_scope.

(** ** Outcomes of kernel code *)

(** What a piece of kernel code can do besides returning: call [panic],
    go through a null struct pointer, store past the end of an array, or
    keep looping. *)
Inductive outcome (A : Type) : Type :=
  | Ok (a : A)
  | Panic (msg : string)
  | NullDeref
  | OutOfBounds (index : Z) (value : Z)
  | Diverges.
Arguments Ok {A} a.
Arguments Panic {A} msg.
Arguments NullDeref {A}.
Arguments OutOfBounds {A} index value.
Arguments Diverges {A}.

Definition obind {A B} (m : outcome A) (k : A -> outcome B) : outcome B :=
  match m with
  | Ok a => k a
  | Panic s => Panic s
  | NullDeref => NullDeref
  | OutOfBounds i v => OutOfBounds i v
  | Diverges => Diverges
  end.

Declare Scope outcome_scope.
Delimit Scope outcome_scope with outcome.
Notation "x <-- m ;; k" := (obind m (fun x => k))
  (at level 100, m at next level, right associativity) : outcome_scope.
Local Open Scope outcome_scope.

(** ** Machine integers *)

Definition UINT64_MAX : Z := 2 ^ 64 - 1.
Definition wrap64 (x : Z) : Z := x mod 2 ^ 64.
(** A C [int] after an arithmetic step (two's complement, 32 bits). *)
Definition wrap_int (x : Z) : Z := (x + 2 ^ 31) mod 2 ^ 32 - 2 ^ 31.

(** The page size: the dispatcher rounds with [>> 12] and a page is four
    1024-byte blocks. *)
Definition PGSIZE : Z := 4096.

(* ===================================================================== *)
(** * kernel/cow.c *)
(* ===================================================================== *)

Module Cow.

(** [#define SHMEM_MAX 100] *)
Definition SHMEM_MAX : nat := 100.

(** [struct cow_group]: group id, shared frames, number of active
    processes. *)
Record cow_group_t : Type := mk_cow_group {
  group : Z;
  shmem : list Z;
  count : Z
}.

Definition set_count (c : cow_group_t) (n : Z) : cow_group_t :=
  {| group := group c; shmem := shmem c; count := n |}.
Definition set_shmem (c : cow_group_t) (s : list Z) : cow_group_t :=
  {| group := group c; shmem := s; count := count c |}.
Definition set_group (c : cow_group_t) (g : Z) : cow_group_t :=
  {| group := g; shmem := shmem c; count := count c |}.

(** [struct cow_group cow_group[NPROC]]: the table is the list, NPROC its
    length. *)
Abbreviation registry := (list cow_group_t).

(** [cow_init]: every slot unused ([group = -1]), no member, no frame. *)
Definition cow_init (nproc : nat) : registry :=
  replicate nproc {| group := -1; shmem := replicate SHMEM_MAX 0; count := 0 |}.

(** [get_cow_group]: the slot (its index and content) of the first entry
    with this id; [None] is the null pointer. *)
Definition get_cow_group (g : Z) (reg : registry) : option (nat * cow_group_t) :=
  if decide (g = -1) then None
  else list_find (fun c => group c = g) reg.

(** [cow_group_init]: the first unused slot takes the id. *)
Definition cow_group_init (groupno : Z) (reg : registry) : registry :=
  match list_find (fun c => group c = -1) reg with
  | Some (i, c) => <[ i := set_group c groupno ]> reg
  | None => reg
  end.

(** [get_cow_group_count]: [get_cow_group(group)->count], with no test of
    the pointer. *)
Definition get_cow_group_count (g : Z) (reg : registry) : outcome Z :=
  match get_cow_group g reg with
  | Some (_, c) => Ok (count c)
  | None => NullDeref
  end.

Definition incr_cow_group_count (g : Z) (reg : registry) : outcome registry :=
  n <-- get_cow_group_count g reg ;;
  match get_cow_group g reg with
  | Some (i, c) => Ok (<[ i := set_count c (wrap_int (n + 1)) ]> reg)
  | None => NullDeref
  end.

Definition decr_cow_group_count (g : Z) (reg : registry) : outcome registry :=
  n <-- get_cow_group_count g reg ;;
  match get_cow_group g reg with
  | Some (i, c) => Ok (<[ i := set_count c (wrap_int (n - 1)) ]> reg)
  | None => NullDeref
  end.

(** The scan of [add_shmem]: [None] when the loop returns on a duplicate,
    [Some index] when it is left, by [break] or because [index] reached
    [SHMEM_MAX]. [todo] counts the iterations still allowed. *)
Fixpoint add_shmem_loop (todo : nat) (sh : list Z) (pa : Z) (index : nat)
  : option nat :=
  match todo with
  | O => Some index
  | S todo' =>
      let x := default 0 (sh !! index) in
      if x =? pa then None
      else if x =? 0 then Some index
      else add_shmem_loop todo' sh pa (S index)
  end.

(** [add_shmem]: after the scan, [shmem[index] = pa] whatever [index] is. *)
Definition add_shmem (g : Z) (pa : Z) (reg : registry) : outcome registry :=
  if decide (g = -1) then Ok reg
  else
    match get_cow_group g reg with
    | None => NullDeref
    | Some (i, c) =>
        match add_shmem_loop SHMEM_MAX (shmem c) pa 0 with
        | None => Ok reg
        | Some index =>
            if decide (index < SHMEM_MAX)%nat
            then Ok (<[ i := set_shmem c (<[ index := pa ]> (shmem c)) ]> reg)
            else OutOfBounds (Z.of_nat index) pa
        end
    end.

(** A call of [add_shmem] as its caller [uvmcopy_cow] sees it. The store
    past the end does not stop the kernel. [struct cow_group] is
    [int group; uint64 shmem[SHMEM_MAX]; int count], so the eight bytes of
    [shmem[SHMEM_MAX]] are the four bytes of [count] of the same slot and
    the four bytes of padding after it: the store leaves the low 32 bits
    of the value in [count] (RV64 is little-endian), and the routine
    returns. *)
Definition add_shmem_call (g : Z) (pa : Z) (reg : registry) : outcome registry :=
  match add_shmem g pa reg with
  | OutOfBounds _ value =>
      match get_cow_group g reg with
      | Some (i, c) => Ok (<[ i := set_count c (wrap_int value) ]> reg)
      | None => NullDeref
      end
  | r => r
  end.

Fixpoint is_shmem_loop (todo : nat) (sh : list Z) (pa : Z) (i : nat) : bool :=
  match todo with
  | O => false
  | S todo' =>
      let x := default 0 (sh !! i) in
      if x =? 0 then false
      else if x =? pa then true
      else is_shmem_loop todo' sh pa (S i)
  end.

Definition is_shmem (g : Z) (pa : Z) (reg : registry) : outcome bool :=
  if decide (g = -1) then Ok false
  else
    match get_cow_group g reg with
    | None => NullDeref
    | Some (_, c) => Ok (is_shmem_loop SHMEM_MAX (shmem c) pa 0)
    end.

(** *** Page tables and teardown *)

(** A page table as [walk(pagetable, a, 0)] sees it: the PTE word of every
    page-aligned address whose last-level table exists. No entry: [walk]
    returns 0. *)
Abbreviation pagetable_t := (gmap Z Z).

(** What the file takes from outside the two source files: constants and
    macros of riscv.h and memlayout.h, and [mappages] of vm.c, the
    "install mapping" service, whose result [None] stands for -1. *)
Class Machine : Type := {
  PTE_V : Z;
  PTE_R : Z;
  PTE_W : Z;
  PTE_FLAGS : Z -> Z;
  PTE2PA : Z -> Z;
  PGROUNDUP : Z -> Z;
  TRAMPOLINE : Z;
  TRAPFRAME : Z;
  mappages : pagetable_t -> Z -> Z -> Z -> Z -> outcome (option pagetable_t)
}.

Section Teardown.
Context `{Machine}.

(** The [do_free] block of [uvmunmap_cow]; [freed] logs the calls of
    [kfree], oldest first. *)
Definition free_frame (g : Z) (reg : registry) (pa : Z) (freed : list Z)
  : outcome (list Z) :=
  sh <-- is_shmem g pa reg ;;
  if (sh : bool) then
    n <-- get_cow_group_count g reg ;;
    if n =? 0 then Ok (freed ++ [pa]) else Ok freed
  else Ok (freed ++ [pa]).

(** One iteration of the loop of [uvmunmap_cow] at address [a]. *)
Definition unmap_page (pt : pagetable_t) (a : Z) (do_free : Z) (g : Z)
    (reg : registry) (freed : list Z) : outcome (pagetable_t * list Z) :=
  match pt !! a with
  | None => Panic "uvmunmap: walk"
  | Some pte =>
      if Z.land pte PTE_V =? 0 then Ok (pt, freed)
      else if PTE_FLAGS pte =? PTE_V then Panic "uvmunmap: not a leaf"
      else
        freed' <-- (if do_free =? 0 then Ok freed
                    else free_frame g reg (PTE2PA pte) freed) ;;
        Ok (<[ a := 0 ]> pt, freed')
  end.

(** [for(a = va; a < va + npages*PGSIZE; a += PGSIZE)] on 64-bit unsigned
    values. [fuel] bounds the iterations; it runs out only when [a] has
    wrapped around, where the C loop panics or never ends. *)
Fixpoint uvmunmap_cow_loop (fuel : nat) (last a : Z) (do_free g : Z)
    (reg : registry) (pt : pagetable_t) (freed : list Z)
  : outcome (pagetable_t * list Z) :=
  if a <? last then
    match fuel with
    | O => Diverges
    | S fuel' =>
        r <-- unmap_page pt a do_free g reg freed ;;
        uvmunmap_cow_loop fuel' last (wrap64 (a + PGSIZE)) do_free g reg
          (fst r) (snd r)
    end
  else Ok (pt, freed).

Definition uvmunmap_cow (pt : pagetable_t) (va npages : Z) (do_free : Z)
    (g : Z) (reg : registry) (freed : list Z)
  : outcome (pagetable_t * list Z) :=
  if decide (va mod PGSIZE = 0) then
    uvmunmap_cow_loop (Z.to_nat npages) (wrap64 (va + npages * PGSIZE)) va
      do_free g reg pt freed
  else Panic "uvmunmap: not aligned".

(** Modelled from the spec: vm.c is outside the source files. Its
    [uvmunmap], the "remove mapping" service
    [removeMapping(table, vaddr, count, freeUnderlyingFrame)], is taken as
    the routine [uvmunmap_cow] was copied from: the same loop with no CoW
    group, so that a frame is freed whenever freeing is asked. *)
Definition uvmunmap (pt : pagetable_t) (va npages : Z) (do_free : Z)
    (freed : list Z) : outcome (pagetable_t * list Z) :=
  uvmunmap_cow pt va npages do_free (-1) [] freed.

(** The state a fork leaves: the value returned, both page tables, the
    registry and the log of freed frames. *)
Record fork_result : Type := mk_fork_result {
  fork_ret : Z;
  fork_old : pagetable_t;
  fork_new : pagetable_t;
  fork_reg : registry;
  fork_freed : list Z
}.

(** The loop of [uvmcopy_cow] from offset [i] on; [g] is
    [myproc()->cow_group]. A registration that stores past the end of the
    shared set returns like any other ([add_shmem_call]) and the loop goes
    on. When [mappages] fails, the label [err] unmaps, with freeing, what
    the child has got so far. *)
Fixpoint uvmcopy_cow_loop (fuel : nat) (old new : pagetable_t) (sz i : Z)
    (g : Z) (reg : registry) (freed : list Z) : outcome fork_result :=
  if i <? sz then
    match fuel with
    | O => Diverges
    | S fuel' =>
        match old !! i with
        | None => Panic "uvmcopy_cow: pte should exist"
        | Some pte =>
            if Z.land pte PTE_V =? 0 then Panic "uvmcopy_cow: page not present"
            else
              let pa := PTE2PA pte in
              sh <-- is_shmem g pa reg ;;
              reg' <-- (if (sh : bool) then Ok reg
                       else add_shmem_call g pa reg) ;;
              let pte' := Z.lor (Z.land pte (Z.lnot PTE_W)) PTE_R in
              let old' := <[ i := pte' ]> old in
              m <-- mappages new i PGSIZE pa (PTE_FLAGS pte') ;;
              match m with
              | Some new' =>
                  uvmcopy_cow_loop fuel' old' new' sz (wrap64 (i + PGSIZE))
                    g reg' freed
              | None =>
                  r <-- uvmunmap new 0 (i / PGSIZE) 1 freed ;;
                  Ok {| fork_ret := -1; fork_old := old'; fork_new := fst r;
                        fork_reg := reg'; fork_freed := snd r |}
              end
        end
    end
  else Ok {| fork_ret := 0; fork_old := old; fork_new := new;
             fork_reg := reg; fork_freed := freed |}.

Definition uvmcopy_cow (old new : pagetable_t) (sz : Z) (g : Z)
    (reg : registry) (freed : list Z) : outcome fork_result :=
  uvmcopy_cow_loop (Z.to_nat (sz / PGSIZE + 1)) old new sz 0 g reg freed.

(** Modelled from the spec: [freewalk] of vm.c, "release the page-table
    structure itself"; it touches neither the registry nor a user frame. *)
Definition freewalk (pt : pagetable_t) : outcome unit := Ok tt.

Definition uvmfree_cow (pt : pagetable_t) (sz : Z) (g : Z) (reg : registry)
    (freed : list Z) : outcome (list Z) :=
  r <-- (if 0 <? sz
         then uvmunmap_cow pt 0 (PGROUNDUP sz / PGSIZE) 1 g reg freed
         else Ok (pt, freed)) ;;
  _ <-- freewalk (fst r) ;;
  Ok (snd r).

(** [proc_freepagetable_cow]: the registry and the log of freed frames
    after it. *)
Definition proc_freepagetable_cow (pt : pagetable_t) (sz : Z) (g : Z)
    (reg : registry) (freed : list Z) : outcome (registry * list Z) :=
  r1 <-- uvmunmap pt TRAMPOLINE 1 0 freed ;;
  r2 <-- uvmunmap (fst r1) TRAPFRAME 1 0 (snd r1) ;;
  freed' <-- uvmfree_cow (fst r2) sz g reg (snd r2) ;;
  reg' <-- decr_cow_group_count g reg ;;
  Ok (reg', freed').

End Teardown.

(** The values of xv6's riscv.h and memlayout.h (Sv39), used where a
    concrete machine is needed. *)
Definition xv6_machine : Machine := {|
  PTE_V := 1;
  PTE_R := 2;
  PTE_W := 4;
  PTE_FLAGS := fun pte => Z.land pte 1023;
  PTE2PA := fun pte => Z.shiftl (Z.shiftr pte 10) 12;
  PGROUNDUP := fun sz => Z.land (wrap64 (sz + PGSIZE - 1)) (Z.lnot (PGSIZE - 1));
  TRAMPOLINE := 2 ^ 38 - PGSIZE;
  TRAPFRAME := 2 ^ 38 - 2 * PGSIZE;
  mappages := fun pt va _ pa perm =>
    let pte := Z.lor (Z.lor (Z.shiftl (Z.shiftr pa 12) 10) perm) 1 in
    match pt !! va with
    | Some old => if Z.land old 1 =? 0 then Ok (Some (<[ va := pte ]> pt))
                  else Panic "mappages: remap"
    | None => Ok (Some (<[ va := pte ]> pt))
    end
|}.

(** ** Facts about the registry *)

Lemma obind_Ok_inv {A B} (m : outcome A) (k : A -> outcome B) b :
  obind m k = Ok b -> exists a, m = Ok a /\ k a = Ok b.
Proof. destruct m; simpl; try discriminate. eauto. Qed.

Lemma get_cow_group_sentinel reg : get_cow_group (-1) reg = None.
Proof. reflexivity. Qed.

Lemma get_cow_group_Some g reg i c :
  get_cow_group g reg = Some (i, c) ->
  g <> -1 /\ reg !! i = Some c /\ group c = g.
Proof.
  unfold get_cow_group. destruct (decide (g = -1)); [discriminate|].
  intros Hf. apply list_find_Some in Hf as (Hi & Hc & _). done.
Qed.

(** After a write to the found slot that keeps the id, the same slot is
    found again. *)
Lemma get_cow_group_insert g reg i c c' :
  get_cow_group g reg = Some (i, c) -> group c' = g ->
  get_cow_group g (<[ i := c' ]> reg) = Some (i, c').
Proof.
  unfold get_cow_group. destruct (decide (g = -1)); [discriminate|].
  intros Hf Hg. apply list_find_Some in Hf as (Hi & Hc & Hlt).
  apply list_find_Some. split_and!.
  - apply list_lookup_insert_eq. by eapply lookup_lt_Some.
  - done.
  - intros j y Hj Hji. rewrite list_lookup_insert_ne in Hj by lia. eauto.
Qed.

(** The first slot of a shared set that holds [pa] or is empty. *)
Lemma first_stop (sh : list Z) (pa : Z) :
  pa ∈ sh \/ 0 ∈ sh ->
  exists k x, sh !! k = Some x /\ (x = pa \/ x = 0) /\
    forall j y, sh !! j = Some y -> (j < k)%nat -> y <> pa /\ y <> 0.
Proof.
  intros Hin.
  assert (Hs : is_Some (list_find (fun x => x = pa \/ x = 0) sh)).
  { destruct Hin as [Hin|Hin]; eapply list_find_elem_of; eauto. }
  destruct Hs as [[k x] Hk]. apply list_find_Some in Hk as (Hk & Hx & Hlt).
  exists k, x. split_and!; [done..|].
  intros j y Hj Hjk. specialize (Hlt j y Hj Hjk). split; intros ->; tauto.
Qed.

Section Scan.
Variables (sh : list Z) (pa : Z) (k : nat) (x : Z).
Hypothesis Hk : sh !! k = Some x.
Hypothesis Hbefore :
  forall j y, sh !! j = Some y -> (j < k)%nat -> y <> pa /\ y <> 0.

Lemma scan_skip j :
  (j < k)%nat -> exists y, sh !! j = Some y /\ (y =? pa) = false /\ (y =? 0) = false.
Proof using Hk Hbefore.
  intros Hjk.
  destruct (lookup_lt_is_Some_2 sh j) as [y Hy].
  { apply lookup_lt_Some in Hk. lia. }
  exists y. destruct (Hbefore j y Hy Hjk). split_and!; [done|lia..].
Qed.

Lemma add_shmem_loop_stop todo i :
  (i <= k < i + todo)%nat ->
  add_shmem_loop todo sh pa i =
    if x =? pa then None else if x =? 0 then Some k
    else add_shmem_loop (i + todo - S k) sh pa (S k).
Proof using Hk Hbefore.
  revert i. induction todo as [|todo IH]; intros i Hi; [lia|].
  destruct (decide (i = k)) as [->|Hne].
  - simpl. rewrite Hk. simpl.
    replace (k + S todo - S k)%nat with todo by lia. done.
  - destruct (scan_skip i) as (y & Hy & Hy1 & Hy2); [lia|].
    simpl. rewrite Hy. simpl. rewrite Hy1, Hy2.
    rewrite IH by lia. by replace (S i + todo)%nat with (i + S todo)%nat by lia.
Qed.

Lemma is_shmem_loop_stop todo i :
  (i <= k < i + todo)%nat ->
  is_shmem_loop todo sh pa i =
    if x =? 0 then false else if x =? pa then true
    else is_shmem_loop (i + todo - S k) sh pa (S k).
Proof using Hk Hbefore.
  revert i. induction todo as [|todo IH]; intros i Hi; [lia|].
  destruct (decide (i = k)) as [->|Hne].
  - simpl. rewrite Hk. simpl.
    replace (k + S todo - S k)%nat with todo by lia. done.
  - destruct (scan_skip i) as (y & Hy & Hy1 & Hy2); [lia|].
    simpl. rewrite Hy. simpl. rewrite Hy1, Hy2.
    rewrite IH by lia. by replace (S i + todo)%nat with (i + S todo)%nat by lia.
Qed.

End Scan.

(** A full shared set without [pa]: the scan of [add_shmem] runs to the
    end. *)
Lemma add_shmem_loop_full (sh : list Z) pa todo i :
  (i + todo <= length sh)%nat ->
  (forall y, y ∈ sh -> y <> pa /\ y <> 0) ->
  add_shmem_loop todo sh pa i = Some (i + todo)%nat.
Proof.
  intros Hlen Hall. revert i Hlen.
  induction todo as [|todo IH]; intros i Hlen; simpl.
  - f_equal. lia.
  - destruct (lookup_lt_is_Some_2 sh i) as [y Hy]; [lia|].
    rewrite Hy. simpl.
    destruct (Hall y) as [H1 H2]; [by eapply list_elem_of_lookup_2|].
    destruct (Z.eqb_spec y pa); [done|]. destruct (Z.eqb_spec y 0); [done|].
    rewrite IH by lia. f_equal. lia.
Qed.

(** ** The shared set: registration *)

(** A registry with the single group 7 whose shared set is full: frames
    0x80000000, 0x80001000, ... (100 of them). *)
Definition full_shmem : list Z :=
  map (fun k => 2147483648 + PGSIZE * Z.of_nat k) (seq 0 SHMEM_MAX).
Definition full_registry : registry :=
  [ {| group := 7; shmem := full_shmem; count := 2 |} ].

(** C6 (the code departs from the claim). When the shared set of a group
    holds 100 frames and [pa] is none of them, [add_shmem] leaves its loop
    with [index = SHMEM_MAX] and then executes [shmem[index] = pa]: a store
    one past the last of the 100 slots. The insert is not dropped. *)
Theorem add_shmem_full_stores_past_end (g pa : Z) (reg : registry) i c :
  get_cow_group g reg = Some (i, c) ->
  length (shmem c) = SHMEM_MAX ->
  (forall y, y ∈ shmem c -> y <> pa /\ y <> 0) ->
  add_shmem g pa reg = OutOfBounds (Z.of_nat SHMEM_MAX) pa.
Proof.
  intros Hg Hlen Hfull. unfold add_shmem.
  destruct (get_cow_group_Some _ _ _ _ Hg) as (Hne & _ & _).
  destruct (decide (g = -1)); [done|]. rewrite Hg.
  rewrite (add_shmem_loop_full (shmem c) pa SHMEM_MAX 0) by (done || lia).
  simpl. destruct (decide (0 + SHMEM_MAX < SHMEM_MAX)%nat); [lia|]. done.
Qed.

Lemma add_shmem_full_stores_past_end_witness :
  add_shmem 7 (2147483648 + PGSIZE * 100) full_registry
    = OutOfBounds 100 (2147483648 + PGSIZE * 100).
Proof.
  apply (add_shmem_full_stores_past_end 7 _ full_registry 0%nat
           {| group := 7; shmem := full_shmem; count := 2 |}).
  - reflexivity.
  - reflexivity.
  - apply Forall_forall. refine (bool_decide_unpack _ _). vm_compute. exact I.
Defined.

(** The claim of C7 as it is written, at one registry, group and frame:
    registration succeeds, the frame is then reported shared, and a second
    registration changes nothing. *)
Definition registered_then_shared (reg : registry) (g f : Z) : Prop :=
  exists reg', add_shmem g f reg = Ok reg' /\
    is_shmem g f reg' = Ok true /\ add_shmem g f reg' = Ok reg'.

(** C7 as written fails: with the "no group" id the frame is not reported
    shared; frame address 0 is the empty-slot marker and is never reported
    shared; and on a full shared set no registration takes place. *)
Lemma registered_then_shared_fails :
  ~ registered_then_shared (cow_group_init 7 (cow_init 4)) (-1) 2147483648 /\
  ~ registered_then_shared (cow_group_init 7 (cow_init 4)) 7 0 /\
  ~ registered_then_shared full_registry 7 (2147483648 + PGSIZE * 100).
Proof.
  split_and!; intros (reg' & Hadd & Hsh & _); vm_compute in Hadd;
    try discriminate Hadd; injection Hadd as <-; vm_compute in Hsh;
    discriminate Hsh.
Qed.

(** C7 (amended). For a group present in the registry, a non-zero frame
    [f], and a shared set that already holds [f] or still has an empty
    slot: [add_shmem] returns, [is_shmem] then answers 1, and a second
    [add_shmem] leaves the registry, hence the shared set and its size, as
    it is. *)
Theorem add_shmem_then_is_shmem (g f : Z) (reg : registry) i c :
  get_cow_group g reg = Some (i, c) ->
  length (shmem c) = SHMEM_MAX ->
  f <> 0 ->
  f ∈ shmem c \/ 0 ∈ shmem c ->
  exists reg', add_shmem g f reg = Ok reg' /\
    is_shmem g f reg' = Ok true /\ add_shmem g f reg' = Ok reg'.
Proof.
  intros Hg Hlen Hf Hroom.
  destruct (get_cow_group_Some _ _ _ _ Hg) as (Hne & Hi & Hgc).
  destruct (first_stop _ _ Hroom) as (k & x & Hk & Hx & Hbefore).
  assert (Hklt : (k < SHMEM_MAX)%nat) by (apply lookup_lt_Some in Hk; lia).
  unfold add_shmem at 1. destruct (decide (g = -1)); [done|]. rewrite Hg.
  rewrite (add_shmem_loop_stop _ _ k x Hk Hbefore) by lia.
  destruct (Z.eqb_spec x f) as [->|Hxf].
  - (* already registered *)
    exists reg. split; [done|]. unfold is_shmem, add_shmem.
    destruct (decide (g = -1)); [done|]. rewrite Hg.
    rewrite (is_shmem_loop_stop _ _ k f Hk Hbefore) by lia.
    rewrite (add_shmem_loop_stop _ _ k f Hk Hbefore) by lia.
    rewrite Z.eqb_refl. by destruct (Z.eqb_spec f 0).
  - (* stored in the first empty slot *)
    destruct Hx as [-> | ->]; [done|]. simpl.
    destruct (decide (k < SHMEM_MAX)%nat); [|lia].
    set (sh' := <[ k := f ]> (shmem c)).
    set (c' := set_shmem c sh').
    exists (<[ i := c' ]> reg). split; [done|].
    assert (Hg' : get_cow_group g (<[ i := c' ]> reg) = Some (i, c'))
      by (by apply (get_cow_group_insert g reg i c c')).
    assert (Hk' : sh' !! k = Some f)
      by (apply list_lookup_insert_eq; lia).
    assert (Hbefore' : forall j y, sh' !! j = Some y -> (j < k)%nat ->
                                   y <> f /\ y <> 0).
    { intros j y Hj Hjk. unfold sh' in Hj.
      rewrite list_lookup_insert_ne in Hj by lia. eauto. }
    unfold is_shmem, add_shmem.
    destruct (decide (g = -1)); [done|]. rewrite Hg'. cbv beta iota.
    change (shmem c') with sh'.
    rewrite (is_shmem_loop_stop _ _ k f Hk' Hbefore') by lia.
    rewrite (add_shmem_loop_stop _ _ k f Hk' Hbefore') by lia.
    rewrite Z.eqb_refl. by destruct (Z.eqb_spec f 0).
Qed.

Lemma add_shmem_then_is_shmem_witness :
  exists reg', add_shmem 7 2147483648 (cow_group_init 7 (cow_init 4)) = Ok reg' /\
    is_shmem 7 2147483648 reg' = Ok true /\
    add_shmem 7 2147483648 reg' = Ok reg'.
Proof.
  apply (add_shmem_then_is_shmem 7 2147483648 (cow_group_init 7 (cow_init 4))
           0%nat {| group := 7; shmem := replicate SHMEM_MAX 0; count := 0 |}).
  - reflexivity.
  - reflexivity.
  - lia.
  - right. refine (bool_decide_unpack _ _). vm_compute. exact I.
Defined.

(** C8 (the code departs from the claim). With the "no group" id -1 the
    lookup returns the null pointer and [is_shmem]/[add_shmem] return at
    their guard, but the three counter routines have no guard: each reads
    [count] through the null pointer that [get_cow_group(-1)] returns. *)
Theorem sentinel_group_operations (reg : registry) (pa : Z) :
  get_cow_group (-1) reg = None /\
  is_shmem (-1) pa reg = Ok false /\
  add_shmem (-1) pa reg = Ok reg /\
  get_cow_group_count (-1) reg = NullDeref /\
  incr_cow_group_count (-1) reg = NullDeref /\
  decr_cow_group_count (-1) reg = NullDeref.
Proof. by split_and!. Qed.

(** ** Teardown *)

Section TeardownFacts.
Context `{Machine}.
Variables (g : Z) (reg : registry).

(** The rule of [uvmunmap_cow] for a frame: it may be handed to [kfree]
    unless it is in the shared set while the member count is not 0. *)
Definition may_free (pa : Z) : Prop :=
  is_shmem g pa reg = Ok true -> get_cow_group_count g reg = Ok 0.

(** The same rule, computed; meaningful when the group can be looked up. *)
Definition frees (pa : Z) : bool :=
  match is_shmem g pa reg with
  | Ok true => match get_cow_group_count g reg with
               | Ok n => n =? 0
               | _ => false
               end
  | _ => true
  end.

(** The group argument is the "no group" id or names a registry slot. *)
Definition group_ok : Prop := g = -1 \/ is_Some (get_cow_group g reg).

(** What one iteration leaves at address [a], and which frame it frees. *)
Definition clear_page (pt : pagetable_t) (a : Z) : pagetable_t :=
  match pt !! a with
  | Some pte => if Z.land pte PTE_V =? 0 then pt else <[ a := 0 ]> pt
  | None => pt
  end.

Definition page_frees (do_free : Z) (pt : pagetable_t) (a : Z) : list Z :=
  match pt !! a with
  | Some pte =>
      if Z.land pte PTE_V =? 0 then []
      else if do_free =? 0 then []
      else if frees (PTE2PA pte) then [PTE2PA pte] else []
  | None => []
  end.

(** The addresses visited: [a], [a + PGSIZE], ... ([n] of them). *)
Fixpoint pages (a : Z) (n : nat) : list Z :=
  match n with
  | O => []
  | S n' => a :: pages (a + PGSIZE) n'
  end.

(** The frames handed to [kfree] over a list of addresses, in order. *)
Fixpoint range_frees (do_free : Z) (pt : pagetable_t) (l : list Z) : list Z :=
  match l with
  | [] => []
  | b :: l' => page_frees do_free pt b ++ range_frees do_free pt l'
  end.

(** Every page of the range has a PTE, and a present PTE is a leaf. *)
Definition range_ok (pt : pagetable_t) (a : Z) (n : nat) : Prop :=
  forall b, b ∈ pages a n ->
    exists pte, pt !! b = Some pte /\
      (Z.land pte PTE_V <> 0 -> PTE_FLAGS pte <> PTE_V).

Lemma elem_of_pages b a n :
  b ∈ pages a n <->
  exists k, (k < n)%nat /\ b = a + Z.of_nat k * PGSIZE.
Proof.
  revert a. induction n as [|n IH]; intros a; simpl.
  - split; [by intros ?%elem_of_nil | intros (k & ? & _); lia].
  - rewrite elem_of_cons, IH. split.
    + intros [-> | (k & Hk & ->)]; [exists 0%nat | exists (S k)]; split; lia.
    + intros (k & Hk & ->). destruct k as [|k]; [left; lia|].
      right. exists k. split; lia.
Qed.

Lemma pages_gt b a n : b ∈ pages (a + PGSIZE) n -> a < b.
Proof. intros (k & _ & ->)%elem_of_pages. unfold PGSIZE. lia. Qed.

Lemma clear_page_lookup_ne pt a b :
  a <> b -> clear_page pt a !! b = pt !! b.
Proof.
  intros Hne. unfold clear_page. destruct (pt !! a) as [pte|]; [|done].
  destruct (Z.land pte PTE_V =? 0); [done|]. by rewrite lookup_insert_ne.
Qed.

Lemma free_frame_run pa freed :
  group_ok ->
  free_frame g reg pa freed = Ok (freed ++ if frees pa then [pa] else []).
Proof.
  unfold free_frame, frees, is_shmem, get_cow_group_count.
  intros [Hg | [[i c] Hg]].
  - rewrite Hg. simpl. done.
  - destruct (get_cow_group_Some _ _ _ _ Hg) as (Hne & _ & _).
    destruct (decide (g = -1)); [done|]. rewrite Hg.
    destruct (is_shmem_loop SHMEM_MAX (shmem c) pa 0); cbn [obind]; [|done].
    destruct (count c =? 0); [done|]. by rewrite app_nil_r.
Qed.

Lemma free_frame_inv pa freed freed' :
  free_frame g reg pa freed = Ok freed' ->
  freed' = freed \/ (freed' = freed ++ [pa] /\ may_free pa).
Proof.
  unfold free_frame, may_free. intros Hf.
  apply obind_Ok_inv in Hf as (sh & Hsh & Hf). rewrite Hsh.
  destruct sh.
  - apply obind_Ok_inv in Hf as (n & Hn & Hf). rewrite Hn.
    destruct (Z.eqb_spec n 0) as [->|]; injection Hf as <-; [right|left]; done.
  - injection Hf as <-. right. split; [done|]. discriminate.
Qed.

(** One iteration, when the PTE exists and is not a bare [PTE_V]. *)
Lemma unmap_page_run pt a do_free freed :
  (do_free = 0 \/ group_ok) ->
  (exists pte, pt !! a = Some pte /\
     (Z.land pte PTE_V <> 0 -> PTE_FLAGS pte <> PTE_V)) ->
  unmap_page pt a do_free g reg freed
    = Ok (clear_page pt a, freed ++ page_frees do_free pt a).
Proof.
  intros Hgrp (pte & Hpte & Hleaf).
  unfold unmap_page, clear_page, page_frees. rewrite Hpte.
  destruct (Z.eqb_spec (Z.land pte PTE_V) 0) as [|Hv]; [by rewrite app_nil_r|].
  destruct (Z.eqb_spec (PTE_FLAGS pte) PTE_V) as [Hbare|_];
    [by destruct (Hleaf Hv)|].
  destruct (Z.eqb_spec do_free 0) as [|Hdf]; [by rewrite app_nil_r|].
  destruct Hgrp as [?|Hgrp]; [done|].
  rewrite (free_frame_run _ _ Hgrp). simpl.
  by destruct (frees (PTE2PA pte)).
Qed.

(** Whatever the page table, an iteration that returns has appended to the
    log only frames the rule allows, and none when [do_free] is 0. *)
Lemma unmap_page_inv pt a do_free freed r :
  unmap_page pt a do_free g reg freed = Ok r ->
  exists new, snd r = freed ++ new /\ Forall may_free new /\
              (do_free = 0 -> new = []).
Proof.
  unfold unmap_page. destruct (pt !! a) as [pte|]; [|discriminate].
  destruct (Z.land pte PTE_V =? 0).
  { intros [= <-]. exists []. by rewrite app_nil_r. }
  destruct (PTE_FLAGS pte =? PTE_V); [discriminate|].
  intros Hr. apply obind_Ok_inv in Hr as (freed' & Hf & [= <-]). simpl.
  destruct (Z.eqb_spec do_free 0) as [Hz|Hnz].
  - injection Hf as <-. exists []. by rewrite app_nil_r.
  - apply free_frame_inv in Hf as [-> | [-> Hmay]].
    + exists []. by rewrite app_nil_r.
    + exists [PTE2PA pte]. split_and!; [done| by constructor | done].
Qed.

Lemma uvmunmap_cow_loop_inv fuel last a do_free pt freed r :
  uvmunmap_cow_loop fuel last a do_free g reg pt freed = Ok r ->
  exists new, snd r = freed ++ new /\ Forall may_free new /\
              (do_free = 0 -> new = []).
Proof.
  revert a pt freed. induction fuel as [|fuel IH]; intros a pt freed; simpl.
  - destruct (a <? last); [discriminate|]. intros [= <-].
    exists []. by rewrite app_nil_r.
  - destruct (a <? last).
    + intros Hr. apply obind_Ok_inv in Hr as (r1 & H1 & Hr).
      apply unmap_page_inv in H1 as (new1 & E1 & F1 & Z1).
      apply IH in Hr as (new2 & E2 & F2 & Z2).
      exists (new1 ++ new2). split_and!.
      * by rewrite E2, E1, app_assoc.
      * by apply Forall_app.
      * intros Hz. by rewrite Z1, Z2.
    + intros [= <-]. exists []. by rewrite app_nil_r.
Qed.

Lemma uvmunmap_cow_inv pt va npages do_free freed r :
  uvmunmap_cow pt va npages do_free g reg freed = Ok r ->
  exists new, snd r = freed ++ new /\ Forall may_free new /\
              (do_free = 0 -> new = []).
Proof.
  unfold uvmunmap_cow. destruct (decide (va mod PGSIZE = 0)); [|discriminate].
  apply uvmunmap_cow_loop_inv.
Qed.

Lemma wrap64_id x : 0 <= x < 2 ^ 64 -> wrap64 x = x.
Proof. intros Hx. unfold wrap64. apply Z.mod_small. lia. Qed.

Lemma range_frees_ext do_free pt pt' l :
  (forall b, b ∈ l -> pt' !! b = pt !! b) ->
  range_frees do_free pt' l = range_frees do_free pt l.
Proof.
  induction l as [|b l IH]; intros Hext; simpl; [done|].
  rewrite IH by (intros b' Hb'; apply Hext, elem_of_cons; by right).
  unfold page_frees. rewrite Hext by (apply elem_of_cons; by left). done.
Qed.

Lemma elem_of_range_frees do_free pt l pa :
  pa ∈ range_frees do_free pt l <->
  exists b, b ∈ l /\ pa ∈ page_frees do_free pt b.
Proof.
  induction l as [|b l IH]; simpl.
  - split; [by intros ?%elem_of_nil | by intros (? & ?%elem_of_nil & _)].
  - rewrite elem_of_app, IH. split.
    + intros [Hb | (b' & Hb' & Hpa)]; [exists b | exists b'];
        (split; [apply elem_of_cons; auto | done]).
    + intros (b' & [-> | Hb']%elem_of_cons & Hpa); [by left | right; eauto].
Qed.

(** A frame freed at [b] is the frame of a present PTE and passes the
    rule; a present PTE whose frame passes the rule is freed. *)
Lemma elem_of_page_frees do_free pt b pa :
  pa ∈ page_frees do_free pt b <->
  exists pte, pt !! b = Some pte /\ Z.land pte PTE_V <> 0 /\
    do_free <> 0 /\ frees pa = true /\ PTE2PA pte = pa.
Proof.
  unfold page_frees. destruct (pt !! b) as [pte|].
  2: { split; [by intros ?%elem_of_nil | by intros (? & ? & _)]. }
  destruct (Z.eqb_spec (Z.land pte PTE_V) 0) as [Hv|Hv];
    [split; [by intros ?%elem_of_nil | intros (? & [= <-] & ? & _); done]|].
  destruct (Z.eqb_spec do_free 0) as [Hd|Hd];
    [split; [by intros ?%elem_of_nil | intros (? & _ & _ & ? & _); done]|].
  destruct (frees (PTE2PA pte)) eqn:Hfr.
  - rewrite list_elem_of_singleton. split.
    + intros ->. by exists pte.
    + by intros (? & [= <-] & _ & _ & _ & <-).
  - split; [by intros ?%elem_of_nil|].
    intros (? & [= <-] & _ & _ & Hfr' & <-). congruence.
Qed.

(** Entries after the loop. *)
Lemma foldl_clear_absent l pt b pte :
  pt !! b = Some pte -> Z.land pte PTE_V = 0 ->
  foldl clear_page pt l !! b = Some pte.
Proof.
  revert pt. induction l as [|a l IH]; intros pt Hb Hv; simpl; [done|].
  apply IH; [|done].
  destruct (decide (a = b)) as [->|Hne].
  - unfold clear_page. rewrite Hb, Hv. simpl. done.
  - by rewrite clear_page_lookup_ne.
Qed.

Lemma foldl_clear_present l pt b pte :
  b ∈ l -> pt !! b = Some pte -> Z.land pte PTE_V <> 0 ->
  foldl clear_page pt l !! b = Some 0.
Proof.
  revert pt pte. induction l as [|a l IH]; intros pt pte Hin Hb Hv; simpl.
  { by apply elem_of_nil in Hin. }
  destruct (decide (a = b)) as [->|Hne].
  - apply foldl_clear_absent; [|apply Z.land_0_l].
    unfold clear_page. rewrite Hb.
    destruct (Z.eqb_spec (Z.land pte PTE_V) 0); [done|].
    apply lookup_insert_eq.
  - apply elem_of_cons in Hin as [?|Hin]; [congruence|].
    apply (IH _ pte); [done| |done]. by rewrite clear_page_lookup_ne.
Qed.

(** The loop when the range does not wrap around 2^64: [n] iterations. *)
Lemma uvmunmap_cow_loop_run do_free n :
  forall a pt freed fuel,
    0 <= a -> a + Z.of_nat n * PGSIZE < 2 ^ 64 -> (n <= fuel)%nat ->
    (do_free = 0 \/ group_ok) ->
    range_ok pt a n ->
    uvmunmap_cow_loop fuel (a + Z.of_nat n * PGSIZE) a do_free g reg pt freed
      = Ok (foldl clear_page pt (pages a n),
            freed ++ range_frees do_free pt (pages a n)).
Proof.
  induction n as [|n IH]; intros a pt freed fuel Ha Hlast Hfuel Hgrp Hok.
  - replace (a + Z.of_nat 0 * PGSIZE) with a by lia.
    destruct fuel; simpl; rewrite Z.ltb_irrefl; by rewrite app_nil_r.
  - destruct fuel as [|fuel]; [lia|].
    assert (Hlt : (a <? a + Z.of_nat (S n) * PGSIZE) = true)
      by (apply Z.ltb_lt; unfold PGSIZE; lia).
    cbn [uvmunmap_cow_loop]. rewrite Hlt.
    rewrite unmap_page_run; [|done|apply Hok, elem_of_cons; by left].
    cbn [obind fst snd].
    rewrite wrap64_id by (unfold PGSIZE in *; lia).
    replace (a + Z.of_nat (S n) * PGSIZE)
      with (a + PGSIZE + Z.of_nat n * PGSIZE) by lia.
    rewrite IH; [| unfold PGSIZE; lia | lia | lia | done |].
    + cbn [pages foldl range_frees]. rewrite <- app_assoc.
      rewrite (range_frees_ext _ pt (clear_page pt a)); [done|].
      intros b Hb%pages_gt. apply clear_page_lookup_ne. lia.
    + intros b Hb. rewrite clear_page_lookup_ne by (apply pages_gt in Hb; lia).
      apply Hok, elem_of_cons. by right.
Qed.

Lemma uvmunmap_cow_run pt va npages do_free freed :
  va mod PGSIZE = 0 -> 0 <= va -> 0 <= npages ->
  va + npages * PGSIZE < 2 ^ 64 ->
  (do_free = 0 \/ group_ok) ->
  range_ok pt va (Z.to_nat npages) ->
  uvmunmap_cow pt va npages do_free g reg freed
    = Ok (foldl clear_page pt (pages va (Z.to_nat npages)),
          freed ++ range_frees do_free pt (pages va (Z.to_nat npages))).
Proof.
  intros Hal Hva Hn Hlast Hgrp Hok. unfold uvmunmap_cow.
  destruct (decide (va mod PGSIZE = 0)); [|done].
  rewrite wrap64_id by (unfold PGSIZE in *; lia).
  rewrite <- (Z2Nat.id npages) at 2 by done.
  apply uvmunmap_cow_loop_run; auto. rewrite Z2Nat.id by done. lia.
Qed.

End TeardownFacts.

Section TeardownTheorems.
Context `{Machine}.

(** C10. On a page-aligned range that does not wrap around, where every
    page has a page-table entry and each present entry is a leaf,
    [uvmunmap_cow] returns: no panic. An entry that is not marked present
    is skipped, so it keeps the value it had (still not present); the
    frames freed are frames of present entries of the range only; and each
    present entry is cleared to 0. *)
Theorem uvmunmap_cow_skips_absent_pages
    (pt : pagetable_t) (va npages do_free g : Z) (reg : registry)
    (freed : list Z) :
  va mod PGSIZE = 0 -> 0 <= va -> 0 <= npages ->
  va + npages * PGSIZE < 2 ^ 64 ->
  (do_free = 0 \/ group_ok g reg) ->
  range_ok pt va (Z.to_nat npages) ->
  exists pt' new,
    uvmunmap_cow pt va npages do_free g reg freed = Ok (pt', freed ++ new) /\
    (forall b pte, pt !! b = Some pte -> Z.land pte PTE_V = 0 ->
       pt' !! b = Some pte) /\
    (forall pa, pa ∈ new ->
       exists b pte, b ∈ pages va (Z.to_nat npages) /\ pt !! b = Some pte /\
         Z.land pte PTE_V <> 0 /\ PTE2PA pte = pa) /\
    (forall b pte, b ∈ pages va (Z.to_nat npages) -> pt !! b = Some pte ->
       Z.land pte PTE_V <> 0 -> pt' !! b = Some 0).
Proof.
  intros Hal Hva Hn Hlast Hgrp Hok.
  eexists _, _. split; [by apply uvmunmap_cow_run|]. split_and!.
  - intros b pte Hb Hv. by apply foldl_clear_absent.
  - intros pa (b & Hb & Hpa)%elem_of_range_frees.
    apply elem_of_page_frees in Hpa as (pte & Hpte & Hv & _ & _ & Hpa).
    by exists b, pte.
  - intros b pte Hb Hpte Hv. by eapply foldl_clear_present.
Qed.

(** With [do_free] 0 nothing is handed to [kfree]. *)
Lemma range_frees_no_free g reg (pt : pagetable_t) l :
  range_frees g reg 0 pt l = [].
Proof.
  induction l as [|b l IH]; [done|]. cbn [range_frees]. rewrite IH.
  unfold page_frees. destruct (pt !! b) as [pte|]; [|done].
  by destruct (Z.land pte PTE_V =? 0).
Qed.

(** Clearing a page keeps a range well formed. *)
Lemma range_ok_clear_page (pt : pagetable_t) b a n :
  range_ok pt a n -> range_ok (clear_page pt b) a n.
Proof.
  intros Hok x Hx. destruct (Hok x Hx) as (pte & Hpte & Hleaf).
  destruct (decide (b = x)) as [->|Hne].
  - unfold clear_page. rewrite Hpte.
    destruct (Z.eqb_spec (Z.land pte PTE_V) 0); [by exists pte|].
    exists 0. rewrite lookup_insert_eq. split; [done|].
    intros Hv. by rewrite Z.land_0_l in Hv.
  - exists pte. by rewrite clear_page_lookup_ne.
Qed.

(** The number of pages [uvmfree_cow] asks [uvmunmap_cow] to unmap. *)
Definition user_pages (sz : Z) : Z :=
  if 0 <? sz then PGROUNDUP sz / PGSIZE else 0.

(** The address space of a process of size [sz] as teardown expects it:
    the user pages lie below the trapframe page, which lies below the
    trampoline page; these two pages and every user page have a page-table
    entry, and an entry that is present is a leaf. *)
Definition process_ok (pt : pagetable_t) (sz : Z) : Prop :=
  TRAMPOLINE mod PGSIZE = 0 /\ TRAPFRAME mod PGSIZE = 0 /\
  0 <= user_pages sz /\ user_pages sz * PGSIZE <= TRAPFRAME /\
  TRAPFRAME < TRAMPOLINE /\ TRAMPOLINE + PGSIZE < 2 ^ 64 /\
  range_ok pt TRAMPOLINE 1 /\ range_ok pt TRAPFRAME 1 /\
  range_ok pt 0 (Z.to_nat (user_pages sz)).

(** The whole of [proc_freepagetable_cow] on such an address space: the
    two unmappings without freeing, the unmapping of the user pages with
    freeing against the registry as it is on entry, then the decrement. *)
Lemma proc_freepagetable_cow_run g reg i c (pt : pagetable_t) sz freed :
  get_cow_group g reg = Some (i, c) ->
  process_ok pt sz ->
  proc_freepagetable_cow pt sz g reg freed
    = Ok (<[ i := set_count c (wrap_int (count c - 1)) ]> reg,
          freed ++ range_frees g reg 1 pt
                     (pages 0 (Z.to_nat (user_pages sz)))).
Proof.
  intros Hg (HalT & HalF & Hn0 & Hbelow & Hlt & Hmax & HokT & HokF & HokU).
  assert (H1 : uvmunmap pt TRAMPOLINE 1 0 freed
               = Ok (clear_page pt TRAMPOLINE, freed)).
  { unfold uvmunmap.
    rewrite (uvmunmap_cow_run (-1) []);
      [|done|unfold PGSIZE in *; lia|lia|lia|by left|done].
    by rewrite range_frees_no_free, app_nil_r. }
  assert (H2 : uvmunmap (clear_page pt TRAMPOLINE) TRAPFRAME 1 0 freed
               = Ok (clear_page (clear_page pt TRAMPOLINE) TRAPFRAME, freed)).
  { unfold uvmunmap.
    rewrite (uvmunmap_cow_run (-1) []);
      [|done|unfold PGSIZE in *; lia|lia|lia|by left
       |by apply range_ok_clear_page].
    by rewrite range_frees_no_free, app_nil_r. }
  set (pt2 := clear_page (clear_page pt TRAMPOLINE) TRAPFRAME) in *.
  assert (H3 : uvmfree_cow pt2 sz g reg freed
               = Ok (freed ++ range_frees g reg 1 pt
                                (pages 0 (Z.to_nat (user_pages sz))))).
  { unfold uvmfree_cow. revert Hn0 Hbelow HokU. unfold user_pages.
    destruct (0 <? sz); intros Hn0 Hbelow HokU.
    - rewrite (uvmunmap_cow_run g reg);
        [|done|lia|done|unfold PGSIZE in *; lia|right; right; by rewrite Hg
         |by do 2 apply range_ok_clear_page].
      cbn [obind fst snd freewalk]. do 2 f_equal.
      apply range_frees_ext.
      intros b (k & Hk & ->)%elem_of_pages. unfold pt2.
      rewrite !clear_page_lookup_ne; [done|unfold PGSIZE in *; lia..].
    - cbn [obind fst snd freewalk]. by rewrite app_nil_r. }
  unfold proc_freepagetable_cow. rewrite H1. cbn [obind fst snd].
  rewrite H2. cbn [obind fst snd]. fold pt2. rewrite H3. cbn [obind].
  unfold decr_cow_group_count, get_cow_group_count. by rewrite Hg.
Qed.

(** C1. For a group [g] found in the registry with member count
    [count c]:
    - teardown of a process: on an address space as teardown expects it,
      [proc_freepagetable_cow] returns; the frames it hands to [kfree] are
      exactly the frames of the present user pages that are not in the
      shared set or, when the count on entry is 0, of every present user
      page; so with a non-zero count no frame of the shared set is freed,
      with count 0 the shared frames are freed, and a frame that is not
      shared is freed whatever the count; the count is decremented once,
      after the unmapping, the frames having been chosen against the
      count on entry;
    - whenever [proc_freepagetable_cow] returns, whatever the address
      space, with a non-zero count no frame of the shared set is among the
      frames it has freed, and the count is decremented once;
    - [uvmunmap_cow] with freeing asked, on a well-formed range, returns;
      with a non-zero count it frees no frame of the shared set, and it
      frees the frame of every present page that is not in the shared set
      or, when the count is 0, of every present page. *)
Theorem teardown_shared_frames (g : Z) (reg : registry) i c :
  get_cow_group g reg = Some (i, c) ->
  (forall (pt : pagetable_t) sz freed,
     process_ok pt sz ->
     exists new,
       proc_freepagetable_cow pt sz g reg freed
         = Ok (<[ i := set_count c (wrap_int (count c - 1)) ]> reg,
               freed ++ new) /\
       forall pa, pa ∈ new <->
         exists b pte, b ∈ pages 0 (Z.to_nat (user_pages sz)) /\
           pt !! b = Some pte /\ Z.land pte PTE_V <> 0 /\ PTE2PA pte = pa /\
           (is_shmem g pa reg = Ok true -> count c = 0)) /\
  (forall (pt : pagetable_t) sz freed reg' freed',
     proc_freepagetable_cow pt sz g reg freed = Ok (reg', freed') ->
     exists new, freed' = freed ++ new /\
       (count c <> 0 -> forall pa, is_shmem g pa reg = Ok true -> pa ∉ new) /\
       get_cow_group_count g reg' = Ok (wrap_int (count c - 1))) /\
  (forall (pt : pagetable_t) va npages freed,
     va mod PGSIZE = 0 -> 0 <= va -> 0 <= npages ->
     va + npages * PGSIZE < 2 ^ 64 ->
     range_ok pt va (Z.to_nat npages) ->
     exists pt' new,
       uvmunmap_cow pt va npages 1 g reg freed = Ok (pt', freed ++ new) /\
       (count c <> 0 -> forall pa, is_shmem g pa reg = Ok true -> pa ∉ new) /\
       (forall b pte, b ∈ pages va (Z.to_nat npages) -> pt !! b = Some pte ->
          Z.land pte PTE_V <> 0 ->
          is_shmem g (PTE2PA pte) reg = Ok false \/ count c = 0 ->
          PTE2PA pte ∈ new)).
Proof.
  intros Hg.
  assert (Hcnt : get_cow_group_count g reg = Ok (count c))
    by (unfold get_cow_group_count; by rewrite Hg).
  assert (Hkeep : forall new, Forall (may_free g reg) new -> count c <> 0 ->
            forall pa, is_shmem g pa reg = Ok true -> pa ∉ new).
  { intros new Hall Hc pa Hsh Hin.
    rewrite Forall_forall in Hall. specialize (Hall pa Hin Hsh). congruence. }
  split; [|split].
  - intros pt sz freed Hproc. eexists. split.
    + by apply (proc_freepagetable_cow_run g reg i c).
    + intros pa. rewrite elem_of_range_frees. split.
      * intros (b & Hb & Hpa).
        apply elem_of_page_frees in Hpa as (pte & Hpte & Hv & _ & Hfr & Hpa).
        exists b, pte. split_and!; try done.
        intros Hsh. unfold frees in Hfr. rewrite Hsh, Hcnt in Hfr. lia.
      * intros (b & pte & Hb & Hpte & Hv & Hpa & Hrule).
        exists b. split; [done|]. apply elem_of_page_frees.
        exists pte. split_and!; try done.
        unfold frees. rewrite Hcnt.
        destruct (is_shmem g pa reg) as [[]| | | |]; try done.
        rewrite Hrule by done. done.
  - intros pt sz freed reg' freed' Hrun. unfold proc_freepagetable_cow in Hrun.
    apply obind_Ok_inv in Hrun as (r1 & H1 & Hrun).
    apply obind_Ok_inv in Hrun as (r2 & H2 & Hrun).
    apply obind_Ok_inv in Hrun as (fr & H3 & Hrun).
    apply obind_Ok_inv in Hrun as (rg & H4 & [= <- <-]).
    apply uvmunmap_cow_inv in H1 as (n1 & E1 & _ & Z1).
    apply uvmunmap_cow_inv in H2 as (n2 & E2 & _ & Z2).
    rewrite Z1, app_nil_r in E1 by done. rewrite Z2, app_nil_r in E2 by done.
    unfold uvmfree_cow in H3.
    apply obind_Ok_inv in H3 as (r3 & H3 & H3').
    apply obind_Ok_inv in H3' as (_ & _ & [= <-]).
    assert (exists new, snd r3 = freed ++ new /\ Forall (may_free g reg) new)
      as (new & E3 & Hall).
    { destruct (0 <? sz).
      - apply uvmunmap_cow_inv in H3 as (n3 & E3 & F3 & _).
        exists n3. by rewrite E3, E2, E1.
      - injection H3 as <-. exists []. simpl. by rewrite app_nil_r, E2, E1. }
    exists new. split_and!; [done | by apply Hkeep |].
    unfold decr_cow_group_count in H4. rewrite Hcnt, Hg in H4.
    injection H4 as <-. unfold get_cow_group_count.
    destruct (get_cow_group_Some _ _ _ _ Hg) as (_ & _ & Hgc).
    by rewrite (get_cow_group_insert g reg i c
                  (set_count c (wrap_int (count c - 1))) Hg Hgc).
  - intros pt va npages freed Hal Hva Hn Hlast Hok.
    assert (Hgrp : group_ok g reg) by (right; by rewrite Hg).
    eexists _, _. split; [apply uvmunmap_cow_run; auto|].
    split.
    + intros Hc pa Hsh (b & _ & Hpa)%elem_of_range_frees.
      apply elem_of_page_frees in Hpa as (_ & _ & _ & _ & Hfr & _).
      unfold frees in Hfr. rewrite Hsh, Hcnt in Hfr. lia.
    + intros b pte Hb Hpte Hv Hrule.
      apply elem_of_range_frees. exists b. split; [done|].
      apply elem_of_page_frees. exists pte. split_and!; try done.
      unfold frees. destruct Hrule as [-> | Hz]; [done|].
      rewrite Hcnt, Hz.
      by destruct (is_shmem g (PTE2PA pte) reg) as [[]| | | |].
Qed.

End TeardownTheorems.

(** *** The fork scenario: parent P and child C share frame X in group 7 *)

(** [PA2PTE(pa) | flags] of xv6. *)
Definition mk_pte (pa flags : Z) : Z :=
  Z.lor (Z.shiftl (Z.shiftr pa 12) 10) flags.

Definition frame_X : Z := 2149580800.   (* 0x80200000, shared *)
Definition frame_Y : Z := 2150629376.   (* 0x80300000, private to P *)

(** The registry once P has created group 7 and C has joined it: count 1
    (the spec: a slot starts at 0 and a process joining increments it). *)
Definition joined_registry : registry :=
  [ {| group := 7; shmem := replicate SHMEM_MAX 0; count := 1 |} ].

(** The registry after the fork: X is registered. *)
Definition fork_registry : registry :=
  [ {| group := 7; shmem := frame_X :: replicate 99 0; count := 1 |} ].

(** The fork itself: P maps X writable at page 0; [uvmcopy_cow] registers
    X, makes P's entry read-only and gives C the same read-only entry. *)
Lemma fork_shares_frame :
  incr_cow_group_count 7 (cow_group_init 7 (cow_init 1)) = Ok joined_registry /\
  uvmcopy_cow (H := xv6_machine) {[ 0 := mk_pte frame_X 23 ]} ∅ 4096 7
      joined_registry []
    = Ok {| fork_ret := 0;
            fork_old := {[ 0 := mk_pte frame_X 19 ]};
            fork_new := {[ 0 := mk_pte frame_X 19 ]};
            fork_reg := fork_registry;
            fork_freed := [] |}.
Proof. split; vm_compute; reflexivity. Qed.

(** P at its exit: page 0 maps X read-only, page 1, obtained after the
    fork, maps the private Y writable. *)
Definition parent_pagetable : pagetable_t :=
  list_to_map
    [ (0, mk_pte frame_X 19); (4096, mk_pte frame_Y 23);
      (2 ^ 38 - 4096, mk_pte 2147516416 11);
      (2 ^ 38 - 8192, mk_pte 2151677952 7) ].

(** C at its exit: page 0 maps X read-only, page 1 has an entry that is
    not present. *)
Definition child_pagetable : pagetable_t :=
  list_to_map
    [ (0, mk_pte frame_X 19); (4096, 0);
      (2 ^ 38 - 4096, mk_pte 2147516416 11);
      (2 ^ 38 - 8192, mk_pte 2152726528 7) ].

Definition registry_after_parent : registry :=
  [ {| group := 7; shmem := frame_X :: replicate 99 0; count := 0 |} ].

(** P exits first, then C: X is freed by the second teardown only. *)
Lemma fork_scenario :
  proc_freepagetable_cow (H := xv6_machine) parent_pagetable 8192 7
      fork_registry []
    = Ok (registry_after_parent, [frame_Y]) /\
  exists reg2,
    proc_freepagetable_cow (H := xv6_machine) child_pagetable 8192 7
        registry_after_parent [frame_Y]
      = Ok (reg2, [frame_Y; frame_X]) /\
    get_cow_group_count 7 reg2 = Ok (-1).
Proof. split; [|eexists; split]; vm_compute; reflexivity. Qed.

Lemma child_range_ok :
  range_ok (H := xv6_machine) child_pagetable 0 (Z.to_nat 2).
Proof.
  intros b Hb. change (pages 0 (Z.to_nat 2)) with [0; 4096] in Hb.
  apply elem_of_cons in Hb as [-> | Hb];
    [|apply list_elem_of_singleton in Hb as ->];
    eexists; (split; [vm_compute; reflexivity | vm_compute; congruence]).
Defined.

Lemma parent_process_ok :
  process_ok (H := xv6_machine) parent_pagetable 8192.
Proof.
  assert (Hentry : forall l, Forall (fun b => exists pte,
            parent_pagetable !! b = Some pte /\
            (Z.land pte 1 <> 0 -> Z.land pte 1023 <> 1)) l ->
          forall b, b ∈ l -> exists pte, parent_pagetable !! b = Some pte /\
            (Z.land pte 1 <> 0 -> Z.land pte 1023 <> 1))
    by (intros l Hl b Hb; by apply (proj1 (Forall_forall _ _) Hl)).
  split; [vm_compute; reflexivity|]. split; [vm_compute; reflexivity|].
  split; [vm_compute; discriminate|]. split; [vm_compute; discriminate|].
  split; [vm_compute; reflexivity|]. split; [vm_compute; reflexivity|].
  split; [|split].
  - refine (Hentry [2 ^ 38 - 4096] _). apply Forall_singleton.
    eexists. split; [vm_compute; reflexivity | vm_compute; congruence].
  - refine (Hentry [2 ^ 38 - 8192] _). apply Forall_singleton.
    eexists. split; [vm_compute; reflexivity | vm_compute; congruence].
  - refine (Hentry [0; 4096] _). apply Forall_cons. split; [|apply Forall_singleton];
      eexists; (split; [vm_compute; reflexivity | vm_compute; congruence]).
Defined.

Lemma child_process_ok :
  process_ok (H := xv6_machine) child_pagetable 8192.
Proof.
  assert (Hentry : forall l, Forall (fun b => exists pte,
            child_pagetable !! b = Some pte /\
            (Z.land pte 1 <> 0 -> Z.land pte 1023 <> 1)) l ->
          forall b, b ∈ l -> exists pte, child_pagetable !! b = Some pte /\
            (Z.land pte 1 <> 0 -> Z.land pte 1023 <> 1))
    by (intros l Hl b Hb; by apply (proj1 (Forall_forall _ _) Hl)).
  split; [vm_compute; reflexivity|]. split; [vm_compute; reflexivity|].
  split; [vm_compute; discriminate|]. split; [vm_compute; discriminate|].
  split; [vm_compute; reflexivity|]. split; [vm_compute; reflexivity|].
  split; [|split].
  - refine (Hentry [2 ^ 38 - 4096] _). apply Forall_singleton.
    eexists. split; [vm_compute; reflexivity | vm_compute; congruence].
  - refine (Hentry [2 ^ 38 - 8192] _). apply Forall_singleton.
    eexists. split; [vm_compute; reflexivity | vm_compute; congruence].
  - exact child_range_ok.
Defined.

Lemma teardown_shared_frames_witness :
  (exists new,
     proc_freepagetable_cow (H := xv6_machine) parent_pagetable 8192 7
         fork_registry [] = Ok (registry_after_parent, [] ++ new) /\
     frame_Y ∈ new /\ (frame_X ∉ new)) /\
  (exists new reg2,
     proc_freepagetable_cow (H := xv6_machine) child_pagetable 8192 7
         registry_after_parent [frame_Y] = Ok (reg2, [frame_Y] ++ new) /\
     frame_X ∈ new /\ get_cow_group_count 7 reg2 = Ok (-1)) /\
  (exists new, [frame_Y] = ([] ++ new) /\ (frame_X ∉ new) /\
     get_cow_group_count 7 registry_after_parent = Ok (wrap_int (1 - 1))) /\
  (exists pt' new,
     uvmunmap_cow (H := xv6_machine) child_pagetable 0 2 1 7
         registry_after_parent [frame_Y] = Ok (pt', [frame_Y] ++ new) /\
     frame_X ∈ new).
Proof.
  assert (HX : is_shmem 7 frame_X fork_registry = Ok true)
    by (vm_compute; reflexivity).
  split; [|split; [|split]].
  - destruct (teardown_shared_frames (H := xv6_machine) 7 fork_registry 0%nat
                {| group := 7; shmem := frame_X :: replicate 99 0; count := 1 |}
                eq_refl) as (Hrun & _ & _).
    destruct (Hrun parent_pagetable 8192 [] parent_process_ok)
      as (new & Erun & Hnew).
    exists new. split; [exact Erun|]. split.
    + apply Hnew. exists 4096, (mk_pte frame_Y 23).
      split; [change (pages 0 _) with [0; 4096];
              apply list_elem_of_further, list_elem_of_here|].
      split; [vm_compute; reflexivity|].
      split; [vm_compute; congruence|].
      split; [vm_compute; reflexivity|].
      intros Hsh. vm_compute in Hsh. discriminate.
    + intros Hin. apply Hnew in Hin as (b & pte & _ & _ & _ & _ & Hrule).
      specialize (Hrule HX). discriminate.
  - destruct (teardown_shared_frames (H := xv6_machine) 7 registry_after_parent
                0%nat
                {| group := 7; shmem := frame_X :: replicate 99 0; count := 0 |}
                eq_refl) as (Hrun & _ & _).
    destruct (Hrun child_pagetable 8192 [frame_Y] child_process_ok)
      as (new & Erun & Hnew).
    exists new. eexists. split; [exact Erun|]. split.
    + apply Hnew. exists 0, (mk_pte frame_X 19).
      split; [change (pages 0 _) with [0; 4096]; apply list_elem_of_here|].
      split; [vm_compute; reflexivity|].
      split; [vm_compute; congruence|].
      split; [vm_compute; reflexivity|].
      intros _. reflexivity.
    + vm_compute. reflexivity.
  - destruct (teardown_shared_frames (H := xv6_machine) 7 fork_registry 0%nat
                {| group := 7; shmem := frame_X :: replicate 99 0; count := 1 |}
                eq_refl) as (_ & Hwhole & _).
    destruct (Hwhole parent_pagetable 8192 [] registry_after_parent [frame_Y])
      as (new & Enew & Hkeep & Hcount).
    { vm_compute. reflexivity. }
    exists new. split; [exact Enew|]. split; [|exact Hcount].
    apply Hkeep; [simpl; lia | exact HX].
  - destruct (teardown_shared_frames (H := xv6_machine) 7 registry_after_parent
                0%nat
                {| group := 7; shmem := frame_X :: replicate 99 0; count := 0 |}
                eq_refl) as (_ & _ & Hunmap).
    destruct (Hunmap child_pagetable 0 2 [frame_Y])
      as (pt' & new & Erun & _ & Hfreed);
      [reflexivity | lia | lia | vm_compute; reflexivity | exact child_range_ok |].
    exists pt', new. split; [exact Erun|].
    apply (Hfreed 0 (mk_pte frame_X 19)).
    + change (pages 0 (Z.to_nat 2)) with [0; 4096]. apply list_elem_of_here.
    + vm_compute. reflexivity.
    + vm_compute. congruence.
    + right. reflexivity.
Defined.

Lemma uvmunmap_cow_skips_absent_pages_witness :
  exists pt' new,
    uvmunmap_cow (H := xv6_machine) child_pagetable 0 2 1 7
        registry_after_parent [] = Ok (pt', [] ++ new) /\
    pt' !! 4096 = Some 0 /\ pt' !! 0 = Some 0.
Proof.
  destruct (uvmunmap_cow_skips_absent_pages (H := xv6_machine) child_pagetable
              0 2 1 7 registry_after_parent [])
    as (pt' & new & Erun & Habsent & _ & Hpresent);
    [reflexivity | lia | lia | vm_compute; reflexivity
    | right; right; vm_compute; eauto | exact child_range_ok |].
  exists pt', new. split; [exact Erun|]. split.
  - apply Habsent; vm_compute; reflexivity.
  - apply (Hpresent 0 (mk_pte frame_X 19)).
    + change (pages 0 (Z.to_nat 2)) with [0; 4096]. apply list_elem_of_here.
    + vm_compute. reflexivity.
    + vm_compute. congruence.
Defined.

(* ===================================================================== *)
(** ** Further properties of the registry *)
(* ===================================================================== *)

(** A write to a slot that does not change whether the slot matches leaves
    the search result as it is. *)
Lemma list_find_insert_other {A} (P : A -> Prop) `{!forall x, Decision (P x)}
    (l : list A) i x y :
  l !! i = Some x -> ~ P x -> ~ P y ->
  list_find P (<[ i := y ]> l) = list_find P l.
Proof.
  intros Hi Hx Hy. destruct (list_find P l) as [[j z]|] eqn:E.
  - apply list_find_Some in E as (Hj & Pz & Hlt). apply list_find_Some.
    assert (j <> i) by (intros ->; congruence).
    split; [by rewrite list_lookup_insert_ne|]. split; [done|].
    intros j' y' Hj' Hlt'. destruct (decide (j' = i)) as [->|Hne].
    + rewrite list_lookup_insert_eq in Hj' by (by eapply lookup_lt_Some).
      by injection Hj' as <-.
    + rewrite list_lookup_insert_ne in Hj' by done. eauto.
  - apply list_find_None in E. apply list_find_None. by apply Forall_insert.
Qed.

(** A write to the slot of [g] that keeps its id does not move any other
    group. *)
Lemma get_cow_group_insert_other g g' (reg : registry) i c c' :
  get_cow_group g reg = Some (i, c) -> group c' = g -> g' <> g ->
  get_cow_group g' (<[ i := c' ]> reg) = get_cow_group g' reg.
Proof.
  intros Hg Hc' Hne. apply get_cow_group_Some in Hg as (_ & Hi & Hgc).
  unfold get_cow_group. destruct (decide (g' = -1)); [done|].
  apply (list_find_insert_other _ _ _ c); [done|congruence..].
Qed.

(** What [cow_group_init] does to the first unused slot. *)
Lemma cow_group_init_slot (g : Z) (reg : registry) i c :
  g <> -1 ->
  (forall c', c' ∈ reg -> group c' <> g) ->
  list_find (fun c => group c = -1) reg = Some (i, c) ->
  get_cow_group g (cow_group_init g reg)
    = Some (i, {| group := g; shmem := shmem c; count := count c |}) /\
  forall g', g' <> g ->
    get_cow_group g' (cow_group_init g reg) = get_cow_group g' reg.
Proof.
  intros Hg Hnew Hfree. unfold cow_group_init. rewrite Hfree.
  apply list_find_Some in Hfree as (Hi & Hunused & Hfirst). split.
  - unfold get_cow_group. destruct (decide (g = -1)); [done|].
    apply list_find_Some. split; [|split; [done|]].
    + apply list_lookup_insert_eq. by eapply lookup_lt_Some.
    + intros j y Hj Hji. rewrite list_lookup_insert_ne in Hj by lia.
      apply Hnew. by eapply list_elem_of_lookup_2.
  - intros g' Hne. unfold get_cow_group. destruct (decide (g' = -1)); [done|].
    apply (list_find_insert_other _ _ _ c); [done| |]; simpl; congruence.
Qed.

(** X1. [cow_group_init g] on a registry that has no group [g] yet and
    whose first unused slot is [i]: afterwards [get_cow_group g] finds slot
    [i], with the shared set and the count the slot had, and the lookup of
    every other id is what it was. *)
Theorem cow_group_init_claims_slot (g : Z) (reg : registry) i c :
  g <> -1 ->
  (forall c', c' ∈ reg -> group c' <> g) ->
  list_find (fun c => group c = -1) reg = Some (i, c) ->
  get_cow_group g (cow_group_init g reg)
    = Some (i, {| group := g; shmem := shmem c; count := count c |}) /\
  forall g', g' <> g ->
    get_cow_group g' (cow_group_init g reg) = get_cow_group g' reg.
Proof. apply cow_group_init_slot. Qed.

Lemma cow_group_init_claims_slot_witness :
  get_cow_group 7 (cow_group_init 7 (cow_group_init 3 (cow_init 4)))
    = Some (1%nat, {| group := 7; shmem := replicate SHMEM_MAX 0; count := 0 |}) /\
  get_cow_group 3 (cow_group_init 7 (cow_group_init 3 (cow_init 4)))
    = get_cow_group 3 (cow_group_init 3 (cow_init 4)).
Proof.
  destruct (cow_group_init_claims_slot 7 (cow_group_init 3 (cow_init 4)) 1%nat
              {| group := -1; shmem := replicate SHMEM_MAX 0; count := 0 |})
    as [Hfound Hother].
  - lia.
  - apply Forall_forall. refine (bool_decide_unpack _ _). vm_compute. exact I.
  - reflexivity.
  - split; [exact Hfound | apply Hother; lia].
Defined.

(** X2. On a registry fresh from [cow_init] no id is found. The first
    group created in it takes slot 0 with count 0 and an empty shared set:
    no frame is reported shared. *)
Theorem cow_init_then_first_group (nproc : nat) (g f : Z) :
  get_cow_group g (cow_init nproc) = None /\
  (g <> -1 -> (0 < nproc)%nat ->
   get_cow_group g (cow_group_init g (cow_init nproc))
     = Some (0%nat, {| group := g; shmem := replicate SHMEM_MAX 0; count := 0 |}) /\
   get_cow_group_count g (cow_group_init g (cow_init nproc)) = Ok 0 /\
   is_shmem g f (cow_group_init g (cow_init nproc)) = Ok false).
Proof.
  assert (Hnone : forall g', get_cow_group g' (cow_init nproc) = None).
  { intros g'. unfold get_cow_group. destruct (decide (g' = -1)); [done|].
    apply list_find_None, Forall_forall. intros c Hc.
    apply elem_of_replicate_inv in Hc as ->. simpl. congruence. }
  split; [apply Hnone|]. intros Hg Hn.
  destruct nproc as [|n]; [lia|].
  assert (Hget : get_cow_group g (cow_group_init g (cow_init (S n)))
     = Some (0%nat, {| group := g; shmem := replicate SHMEM_MAX 0; count := 0 |})).
  { apply (cow_group_init_slot g (cow_init (S n)) 0%nat
             {| group := -1; shmem := replicate SHMEM_MAX 0; count := 0 |});
      [done| |reflexivity].
    intros c Hc. apply elem_of_replicate_inv in Hc as ->. simpl. congruence. }
  split; [done|]. unfold get_cow_group_count, is_shmem. rewrite Hget.
  split; [done|]. by destruct (decide (g = -1)).
Qed.

Lemma cow_init_then_first_group_witness :
  get_cow_group 7 (cow_group_init 7 (cow_init 4))
    = Some (0%nat, {| group := 7; shmem := replicate SHMEM_MAX 0; count := 0 |}) /\
  get_cow_group_count 7 (cow_group_init 7 (cow_init 4)) = Ok 0 /\
  is_shmem 7 2147483648 (cow_group_init 7 (cow_init 4)) = Ok false.
Proof.
  destruct (cow_init_then_first_group 4 7 2147483648) as [_ Hfirst].
  apply Hfirst; lia.
Defined.

(** X3. When every slot is in use, [cow_group_init] changes nothing and
    reports nothing: the new id is still not found, and the next counter
    or shared-set operation on it goes through the null pointer. *)
Theorem cow_group_init_full_table (g f : Z) (reg : registry) :
  g <> -1 ->
  (forall c, c ∈ reg -> group c <> -1) ->
  (forall c, c ∈ reg -> group c <> g) ->
  cow_group_init g reg = reg /\
  get_cow_group g (cow_group_init g reg) = None /\
  incr_cow_group_count g (cow_group_init g reg) = NullDeref /\
  add_shmem g f (cow_group_init g reg) = NullDeref /\
  is_shmem g f (cow_group_init g reg) = NullDeref.
Proof.
  intros Hg Hused Hnew.
  assert (Hsame : cow_group_init g reg = reg).
  { unfold cow_group_init.
    assert (list_find (fun c => group c = -1) reg = None) as ->; [|done].
    apply list_find_None, Forall_forall. intros c Hc. by apply Hused. }
  assert (Hnone : get_cow_group g reg = None).
  { unfold get_cow_group. destruct (decide (g = -1)); [done|].
    apply list_find_None, Forall_forall. intros c Hc. by apply Hnew. }
  rewrite Hsame. split; [done|]. split; [done|].
  unfold incr_cow_group_count, get_cow_group_count, add_shmem, is_shmem.
  rewrite Hnone. by destruct (decide (g = -1)).
Qed.

Lemma cow_group_init_full_table_witness :
  cow_group_init 9 full_registry = full_registry /\
  get_cow_group 9 (cow_group_init 9 full_registry) = None /\
  incr_cow_group_count 9 (cow_group_init 9 full_registry) = NullDeref /\
  add_shmem 9 4096 (cow_group_init 9 full_registry) = NullDeref /\
  is_shmem 9 4096 (cow_group_init 9 full_registry) = NullDeref.
Proof.
  apply (cow_group_init_full_table 9 4096 full_registry); [lia|..];
    apply Forall_forall; refine (bool_decide_unpack _ _); vm_compute; exact I.
Defined.

Lemma wrap_int_id x : - 2 ^ 31 <= x < 2 ^ 31 -> wrap_int x = x.
Proof. intros Hx. unfold wrap_int. rewrite Z.mod_small; lia. Qed.

Lemma wrap_int_succ_pred x :
  - 2 ^ 31 <= x < 2 ^ 31 ->
  wrap_int (wrap_int (x + 1) - 1) = x /\ wrap_int (wrap_int (x - 1) + 1) = x.
Proof.
  intros Hx. unfold wrap_int. split.
  - replace ((x + 1 + 2 ^ 31) mod 2 ^ 32 - 2 ^ 31 - 1 + 2 ^ 31)
      with ((x + 1 + 2 ^ 31) mod 2 ^ 32 - 1) by lia.
    rewrite Zminus_mod_idemp_l.
    replace (x + 1 + 2 ^ 31 - 1) with (x + 2 ^ 31) by lia.
    rewrite Z.mod_small; lia.
  - replace ((x - 1 + 2 ^ 31) mod 2 ^ 32 - 2 ^ 31 + 1 + 2 ^ 31)
      with ((x - 1 + 2 ^ 31) mod 2 ^ 32 + 1) by lia.
    rewrite Zplus_mod_idemp_l.
    replace (x - 1 + 2 ^ 31 + 1) with (x + 2 ^ 31) by lia.
    rewrite Z.mod_small; lia.
Qed.

Lemma set_count_same c : set_count c (count c) = c.
Proof. by destruct c. Qed.

(** X4. For a group found in the registry whose count is an [int],
    [incr_cow_group_count] followed by [decr_cow_group_count] gives the
    registry back, and so does the decrement followed by the increment;
    this holds at the ends of the [int] range too, where the counter
    wraps. *)
Theorem incr_decr_cow_group_count (g : Z) (reg : registry) i c :
  get_cow_group g reg = Some (i, c) ->
  - 2 ^ 31 <= count c < 2 ^ 31 ->
  (exists reg1, incr_cow_group_count g reg = Ok reg1 /\
     get_cow_group_count g reg1 = Ok (wrap_int (count c + 1)) /\
     decr_cow_group_count g reg1 = Ok reg) /\
  (exists reg1, decr_cow_group_count g reg = Ok reg1 /\
     get_cow_group_count g reg1 = Ok (wrap_int (count c - 1)) /\
     incr_cow_group_count g reg1 = Ok reg).
Proof.
  intros Hg Hc.
  destruct (get_cow_group_Some _ _ _ _ Hg) as (_ & Hi & Hgc).
  destruct (wrap_int_succ_pred _ Hc) as [Hsp Hps].
  assert (Hstep : forall n,
    get_cow_group g (<[ i := set_count c n ]> reg) = Some (i, set_count c n))
    by (intros n; by apply (get_cow_group_insert g reg i c)).
  assert (Hback : forall n,
    <[ i := set_count (set_count c n) (count c) ]> (<[ i := set_count c n ]> reg)
      = reg).
  { intros n. rewrite list_insert_insert_eq. apply list_insert_id.
    by destruct c. }
  split.
  - exists (<[ i := set_count c (wrap_int (count c + 1)) ]> reg).
    unfold incr_cow_group_count, decr_cow_group_count, get_cow_group_count.
    rewrite Hg. cbn [obind]. rewrite Hstep. cbn [obind count set_count].
    split_and!; [done..|]. rewrite Hsp. f_equal. apply Hback.
  - exists (<[ i := set_count c (wrap_int (count c - 1)) ]> reg).
    unfold incr_cow_group_count, decr_cow_group_count, get_cow_group_count.
    rewrite Hg. cbn [obind]. rewrite Hstep. cbn [obind count set_count].
    split_and!; [done..|]. rewrite Hps. f_equal. apply Hback.
Qed.

Lemma incr_decr_cow_group_count_witness :
  (exists reg1, incr_cow_group_count 7 fork_registry = Ok reg1 /\
     get_cow_group_count 7 reg1 = Ok (wrap_int (1 + 1)) /\
     decr_cow_group_count 7 reg1 = Ok fork_registry) /\
  (exists reg1, decr_cow_group_count 7 fork_registry = Ok reg1 /\
     get_cow_group_count 7 reg1 = Ok (wrap_int (1 - 1)) /\
     incr_cow_group_count 7 reg1 = Ok fork_registry).
Proof.
  apply (incr_decr_cow_group_count 7 fork_registry 0%nat
           {| group := 7; shmem := frame_X :: replicate 99 0; count := 1 |});
    [reflexivity | simpl; lia].
Defined.

(** X5. The three mutating routines touch one slot only: after
    [incr_cow_group_count], [decr_cow_group_count] or [add_shmem] on group
    [g], the lookup of every other id, and so its count and its shared set,
    is what it was. *)
Theorem other_groups_untouched (g g' pa : Z) (reg reg' : registry) :
  g' <> g ->
  incr_cow_group_count g reg = Ok reg' \/
  decr_cow_group_count g reg = Ok reg' \/
  add_shmem g pa reg = Ok reg' ->
  get_cow_group g' reg' = get_cow_group g' reg /\
  get_cow_group_count g' reg' = get_cow_group_count g' reg /\
  forall f, is_shmem g' f reg' = is_shmem g' f reg.
Proof.
  intros Hne Hop.
  assert (Hget : get_cow_group g' reg' = get_cow_group g' reg).
  { destruct Hop as [Hop | [Hop | Hop]].
    - unfold incr_cow_group_count, get_cow_group_count in Hop.
      destruct (get_cow_group g reg) as [[i c]|] eqn:Hg; [|done].
      injection Hop as <-.
      apply (get_cow_group_insert_other g g' reg i c); [done| |done].
      by apply get_cow_group_Some in Hg as (_ & _ & ?).
    - unfold decr_cow_group_count, get_cow_group_count in Hop.
      destruct (get_cow_group g reg) as [[i c]|] eqn:Hg; [|done].
      injection Hop as <-.
      apply (get_cow_group_insert_other g g' reg i c); [done| |done].
      by apply get_cow_group_Some in Hg as (_ & _ & ?).
    - unfold add_shmem in Hop.
      destruct (decide (g = -1)); [by injection Hop as <-|].
      destruct (get_cow_group g reg) as [[i c]|] eqn:Hg; [|done].
      destruct (add_shmem_loop SHMEM_MAX (shmem c) pa 0) as [index|];
        [|by injection Hop as <-].
      destruct (decide (index < SHMEM_MAX)%nat); [|done].
      injection Hop as <-.
      apply (get_cow_group_insert_other g g' reg i c); [done| |done].
      by apply get_cow_group_Some in Hg as (_ & _ & ?). }
  unfold get_cow_group_count, is_shmem. by rewrite Hget.
Qed.

Definition two_groups : registry :=
  [ {| group := 7; shmem := frame_X :: replicate 99 0; count := 1 |};
    {| group := 9; shmem := frame_Y :: replicate 99 0; count := 2 |} ].

Lemma other_groups_untouched_witness :
  exists reg',
    add_shmem 7 frame_Y two_groups = Ok reg' /\
    get_cow_group_count 9 reg' = get_cow_group_count 9 two_groups /\
    is_shmem 9 frame_X reg' = is_shmem 9 frame_X two_groups.
Proof.
  eexists. split; [vm_compute; reflexivity|].
  destruct (other_groups_untouched 7 9 frame_Y two_groups
              [ {| group := 7; shmem := frame_X :: frame_Y :: replicate 98 0;
                   count := 1 |};
                {| group := 9; shmem := frame_Y :: replicate 99 0; count := 2 |} ])
    as (_ & Hcount & Hshared); [lia | right; right; reflexivity |].
  split; [exact Hcount | exact (Hshared frame_X)].
Defined.

(** ** The shared set as a set *)

(** Where the scan of [add_shmem] stops short of the end, the slot is
    empty. *)
Lemma add_shmem_loop_Some (sh : list Z) pa todo i index :
  add_shmem_loop todo sh pa i = Some index ->
  (index < i + todo)%nat ->
  default 0 (sh !! index) = 0.
Proof.
  revert i. induction todo as [|todo IH]; intros i; simpl.
  - intros [= <-]. lia.
  - destruct (default 0 (sh !! i) =? pa); [done|].
    destruct (Z.eqb_spec (default 0 (sh !! i)) 0) as [Hz|_].
    + by intros [= <-].
    + intros Hrec Hlt. apply (IH (S i)); [done|lia].
Qed.

(** A frame found by [is_shmem] is still found after a store into an
    empty slot. *)
Lemma is_shmem_loop_insert (sh : list Z) f pa index todo i :
  default 0 (sh !! index) = 0 ->
  is_shmem_loop todo sh f i = true ->
  is_shmem_loop todo (<[ index := pa ]> sh) f i = true.
Proof.
  intros Hz. revert i. induction todo as [|todo IH]; intros i; simpl; [done|].
  destruct (Z.eqb_spec (default 0 (sh !! i)) 0) as [H0|H0]; [done|].
  assert (i <> index) by congruence.
  rewrite list_lookup_insert_ne by done.
  destruct (Z.eqb_spec (default 0 (sh !! i)) 0); [done|].
  destruct (default 0 (sh !! i) =? f); [done|]. apply IH.
Qed.

(** A frame reported shared stays so across [add_shmem]. *)
Lemma add_shmem_mono (g pa f : Z) (reg reg' : registry) :
  is_shmem g f reg = Ok true ->
  add_shmem g pa reg = Ok reg' ->
  is_shmem g f reg' = Ok true.
Proof.
  unfold is_shmem, add_shmem. destruct (decide (g = -1)); [done|].
  destruct (get_cow_group g reg) as [[i c]|] eqn:Hg; [|done].
  intros Hf'.
  assert (Hf : is_shmem_loop SHMEM_MAX (shmem c) f 0 = true) by congruence.
  clear Hf'.
  destruct (add_shmem_loop SHMEM_MAX (shmem c) pa 0) as [index|] eqn:Hscan.
  2: { intros [= <-]. by rewrite Hg, Hf. }
  destruct (decide (index < SHMEM_MAX)%nat) as [Hlt|]; [|done].
  intros [= <-].
  rewrite (get_cow_group_insert g reg i c
             (set_shmem c (<[ index := pa ]> (shmem c))) Hg)
    by (by apply get_cow_group_Some in Hg as (_ & _ & ?)).
  f_equal. cbn [shmem set_shmem]. apply is_shmem_loop_insert; [|done].
  apply (add_shmem_loop_Some _ pa SHMEM_MAX 0%nat); [done|lia].
Qed.

(** X6. Registration never forgets: a frame that [is_shmem] reports for a
    group is still reported after any [add_shmem] on that group that
    returns. *)
Theorem add_shmem_keeps_shared (g pa f : Z) (reg reg' : registry) :
  is_shmem g f reg = Ok true ->
  add_shmem g pa reg = Ok reg' ->
  is_shmem g f reg' = Ok true.
Proof. apply add_shmem_mono. Qed.

Lemma add_shmem_keeps_shared_witness :
  is_shmem 7 frame_X
    [ {| group := 7; shmem := frame_X :: frame_Y :: replicate 98 0; count := 1 |} ]
    = Ok true.
Proof.
  apply (add_shmem_keeps_shared 7 frame_Y frame_X fork_registry);
    vm_compute; reflexivity.
Defined.

(** The shared set of slot [c] holds exactly the frames [fs]: they fill
    the first slots in order, are non-zero and distinct, and the other
    slots are empty. *)
Definition holds_frames (c : cow_group_t) (fs : list Z) : Prop :=
  shmem c = fs ++ replicate (SHMEM_MAX - length fs) 0 /\
  (length fs <= SHMEM_MAX)%nat /\
  Forall (fun f => f <> 0) fs /\
  NoDup fs.

Lemma is_shmem_loop_full (sh : list Z) pa todo i :
  (i + todo <= length sh)%nat ->
  (forall y, y ∈ sh -> y <> pa /\ y <> 0) ->
  is_shmem_loop todo sh pa i = false.
Proof.
  intros Hlen Hall. revert i Hlen.
  induction todo as [|todo IH]; intros i Hlen; simpl; [done|].
  destruct (lookup_lt_is_Some_2 sh i) as [y Hy]; [lia|].
  rewrite Hy. simpl.
  destruct (Hall y) as [H1 H2]; [by eapply list_elem_of_lookup_2|].
  destruct (Z.eqb_spec y 0); [done|]. destruct (Z.eqb_spec y pa); [done|].
  apply IH. lia.
Qed.

Section Dense.
Variables (c : cow_group_t) (fs : list Z).
Hypothesis Hholds : holds_frames c fs.

Lemma holds_lookup_frame k y : fs !! k = Some y -> shmem c !! k = Some y.
Proof using Hholds.
  intros Hk. destruct Hholds as (-> & _).
  rewrite lookup_app_l; [done|]. by eapply lookup_lt_Some.
Qed.

Lemma holds_lookup_empty :
  (length fs < SHMEM_MAX)%nat -> shmem c !! length fs = Some 0.
Proof using Hholds.
  intros Hlt. destruct Hholds as (-> & _).
  rewrite lookup_app_r by lia. apply lookup_replicate_2. lia.
Qed.

Lemma holds_before k :
  (k <= length fs)%nat ->
  forall pa, (forall j y, fs !! j = Some y -> (j < k)%nat -> y <> pa) ->
  forall j y, shmem c !! j = Some y -> (j < k)%nat -> y <> pa /\ y <> 0.
Proof using Hholds.
  intros Hk pa Hnot j y Hj Hjk.
  destruct Hholds as (Hsh & _ & Hnz & _).
  rewrite Hsh, lookup_app_l in Hj by lia. split; [by eapply Hnot|].
  rewrite Forall_forall in Hnz. apply Hnz. by eapply list_elem_of_lookup_2.
Qed.

(** The first place of a registered frame. *)
Lemma holds_first pa :
  pa ∈ fs ->
  exists k, shmem c !! k = Some pa /\ (k < SHMEM_MAX)%nat /\
    forall j y, shmem c !! j = Some y -> (j < k)%nat -> y <> pa /\ y <> 0.
Proof using Hholds.
  intros Hin.
  destruct (list_find_elem_of (fun y => y = pa) fs pa Hin eq_refl)
    as [[k y] Hk].
  apply list_find_Some in Hk as (Hk & -> & Hfirst).
  exists k. split; [by apply holds_lookup_frame|]. split.
  - apply lookup_lt_Some in Hk. destruct Hholds as (_ & ? & _). lia.
  - apply holds_before; [apply lookup_lt_Some in Hk; lia|].
    intros j y Hj Hjk. by apply (Hfirst j).
Qed.

Lemma holds_all_other pa :
  pa ∉ fs ->
  forall j y, shmem c !! j = Some y -> (j < length fs)%nat -> y <> pa /\ y <> 0.
Proof using Hholds.
  intros Hnot. apply holds_before; [lia|].
  intros j y Hj _ ->. apply Hnot. by eapply list_elem_of_lookup_2.
Qed.

End Dense.

(** X7. For a slot that holds the frames [fs], [is_shmem] is membership
    in [fs]: it answers 1 for each of them and 0 for every other address,
    0 included. *)
Theorem is_shmem_membership (g f : Z) (reg : registry) i c fs :
  get_cow_group g reg = Some (i, c) ->
  holds_frames c fs ->
  is_shmem g f reg = Ok (bool_decide (f ∈ fs)).
Proof.
  intros Hg Hholds. unfold is_shmem.
  destruct (get_cow_group_Some _ _ _ _ Hg) as (Hne & _ & _).
  destruct (decide (g = -1)); [done|]. rewrite Hg. f_equal.
  destruct (decide (f ∈ fs)) as [Hin|Hnot].
  - rewrite bool_decide_eq_true_2 by done.
    destruct (holds_first c fs Hholds f Hin) as (k & Hk & Hklt & Hbefore).
    rewrite (is_shmem_loop_stop _ _ k f Hk Hbefore) by lia.
    destruct Hholds as (_ & _ & Hnz & _). rewrite Forall_forall in Hnz.
    destruct (Z.eqb_spec f 0) as [Hz|_]; [by destruct (Hnz f Hin)|].
    by rewrite Z.eqb_refl.
  - rewrite bool_decide_eq_false_2 by done.
    destruct (decide (length fs < SHMEM_MAX)%nat) as [Hroom|Hfull].
    + rewrite (is_shmem_loop_stop _ _ (length fs) 0
                 (holds_lookup_empty c fs Hholds Hroom)
                 (holds_all_other c fs Hholds f Hnot)) by lia.
      done.
    + destruct Hholds as (Hsh & Hle & Hnz & _).
      assert (Hlen : length fs = SHMEM_MAX) by lia.
      apply is_shmem_loop_full.
      * rewrite Hsh, length_app, length_replicate. lia.
      * rewrite Hsh, Hlen, Nat.sub_diag, app_nil_r. intros y Hy. split.
        -- intros ->. done.
        -- rewrite Forall_forall in Hnz. by apply Hnz.
Qed.

Lemma fork_registry_holds :
  holds_frames {| group := 7; shmem := frame_X :: replicate 99 0; count := 1 |}
    [frame_X].
Proof.
  split; [reflexivity|]. split; [simpl; unfold SHMEM_MAX; lia|].
  split; [by repeat constructor|].
  apply NoDup_singleton.
Defined.

Lemma is_shmem_membership_witness :
  is_shmem 7 frame_X fork_registry = Ok (bool_decide (frame_X ∈ [frame_X])) /\
  is_shmem 7 frame_Y fork_registry = Ok (bool_decide (frame_Y ∈ [frame_X])).
Proof.
  split;
    apply (is_shmem_membership 7 _ fork_registry 0%nat
             {| group := 7; shmem := frame_X :: replicate 99 0; count := 1 |}
             [frame_X] eq_refl fork_registry_holds).
Defined.

(** X8. For a slot that holds the frames [fs] and a non-zero frame [f]:
    [add_shmem] changes nothing when [f] is one of them; otherwise, when
    fewer than 100 frames are held, the slot afterwards holds
    [fs] followed by [f], with its id and count unchanged. So frames stay
    distinct and the used slots stay contiguous. *)
Theorem add_shmem_appends (g f : Z) (reg : registry) i c fs :
  get_cow_group g reg = Some (i, c) ->
  holds_frames c fs ->
  f <> 0 ->
  (f ∈ fs -> add_shmem g f reg = Ok reg) /\
  (f ∉ fs -> (length fs < SHMEM_MAX)%nat ->
   exists c', add_shmem g f reg = Ok (<[ i := c' ]> reg) /\
     holds_frames c' (fs ++ [f]) /\ group c' = group c /\ count c' = count c).
Proof.
  intros Hg Hholds Hf.
  destruct (get_cow_group_Some _ _ _ _ Hg) as (Hne & _ & _).
  unfold add_shmem. destruct (decide (g = -1)); [done|]. rewrite Hg. split.
  - intros Hin.
    destruct (holds_first c fs Hholds f Hin) as (k & Hk & Hklt & Hbefore).
    rewrite (add_shmem_loop_stop _ _ k f Hk Hbefore) by lia.
    by rewrite Z.eqb_refl.
  - intros Hnot Hroom.
    rewrite (add_shmem_loop_stop _ _ (length fs) 0
               (holds_lookup_empty c fs Hholds Hroom)
               (holds_all_other c fs Hholds f Hnot)) by lia.
    destruct (Z.eqb_spec 0 f) as [?|_]; [congruence|]. cbn [Z.eqb].
    destruct (decide (length fs < SHMEM_MAX)%nat); [|lia].
    eexists. split; [reflexivity|]. split; [|done].
    destruct Hholds as (Hsh & Hle & Hnz & Hnd).
    split; [|split; [|split]].
    + cbn [shmem set_shmem]. rewrite Hsh.
      rewrite insert_app_r_alt by lia. rewrite Nat.sub_diag.
      replace (SHMEM_MAX - length fs)%nat
        with (S (SHMEM_MAX - length (fs ++ [f]))) by (rewrite length_app; simpl; lia).
      cbn [replicate]. by rewrite <- app_assoc.
    + rewrite length_app. simpl. lia.
    + apply Forall_app. split; [done|]. by constructor.
    + apply NoDup_app. split; [done|]. split; [|apply NoDup_singleton].
      intros y Hy ->%list_elem_of_singleton. done.
Qed.

Lemma add_shmem_appends_witness :
  add_shmem 7 frame_X fork_registry = Ok fork_registry /\
  exists c', add_shmem 7 frame_Y fork_registry = Ok (<[ 0%nat := c' ]> fork_registry) /\
    holds_frames c' ([frame_X] ++ [frame_Y]) /\ group c' = 7 /\ count c' = 1.
Proof.
  destruct (add_shmem_appends 7 frame_X fork_registry 0%nat
              {| group := 7; shmem := frame_X :: replicate 99 0; count := 1 |}
              [frame_X] eq_refl fork_registry_holds) as [Hold _];
    [vm_compute; discriminate|].
  destruct (add_shmem_appends 7 frame_Y fork_registry 0%nat
              {| group := 7; shmem := frame_X :: replicate 99 0; count := 1 |}
              [frame_X] eq_refl fork_registry_holds) as [_ Hnew];
    [vm_compute; discriminate|].
  split.
  - apply Hold, list_elem_of_here.
  - apply Hnew.
    + intros Hin%list_elem_of_singleton. vm_compute in Hin. discriminate.
    + simpl. unfold SHMEM_MAX. lia.
Defined.

(* ===================================================================== *)
(** ** Further properties of the teardown *)
(* ===================================================================== *)

Section TeardownMore.
Context `{Machine}.

(** An iteration changes at most the entry at its address, and only to 0. *)
Lemma unmap_page_entries (pt : pagetable_t) a do_free g reg freed r :
  unmap_page pt a do_free g reg freed = Ok r ->
  forall b, fst r !! b = pt !! b \/ (fst r !! b = Some 0 /\ is_Some (pt !! b)).
Proof.
  unfold unmap_page. destruct (pt !! a) as [pte|] eqn:Ha; [|done].
  destruct (Z.land pte PTE_V =? 0); [intros [= <-] b; by left|].
  destruct (PTE_FLAGS pte =? PTE_V); [done|].
  intros Hr. apply obind_Ok_inv in Hr as (freed' & _ & [= <-]). simpl.
  intros b. destruct (decide (b = a)) as [->|Hne].
  - right. by rewrite lookup_insert_eq, Ha.
  - left. by rewrite lookup_insert_ne.
Qed.

Lemma uvmunmap_cow_loop_entries fuel last a do_free g reg (pt : pagetable_t)
    freed r :
  uvmunmap_cow_loop fuel last a do_free g reg pt freed = Ok r ->
  forall b, fst r !! b = pt !! b \/ (fst r !! b = Some 0 /\ is_Some (pt !! b)).
Proof.
  revert a pt freed. induction fuel as [|fuel IH]; intros a pt freed; simpl.
  - destruct (a <? last); [done|]. intros [= <-] b. by left.
  - destruct (a <? last); [|intros [= <-] b; by left].
    intros Hr. apply obind_Ok_inv in Hr as (r1 & H1 & Hr). intros b.
    destruct (unmap_page_entries _ _ _ _ _ _ _ H1 b) as [E1 | [E1 S1]];
      destruct (IH _ _ _ Hr b) as [E2 | [E2 S2]].
    + left. congruence.
    + right. split; [done|]. by rewrite <- E1.
    + right. split; [congruence|done].
    + right. done.
Qed.

(** X9. Whatever the range and the page table, a call of [uvmunmap_cow]
    that returns has only added to the log of freed frames, has added
    nothing when [do_free] is 0, and has left every page-table entry as it
    was or set it to 0: it never creates an entry or a mapping. *)
Theorem uvmunmap_cow_only_clears (pt : pagetable_t) (va npages do_free g : Z)
    (reg : registry) (freed : list Z) r :
  uvmunmap_cow pt va npages do_free g reg freed = Ok r ->
  (exists new, snd r = freed ++ new) /\
  (do_free = 0 -> snd r = freed) /\
  (forall b, fst r !! b = pt !! b \/ (fst r !! b = Some 0 /\ is_Some (pt !! b))).
Proof.
  intros Hr.
  destruct (uvmunmap_cow_inv _ _ _ _ _ _ _ _ Hr) as (new & Enew & _ & Hz).
  split; [by exists new|]. split.
  - intros Hd. by rewrite Enew, (Hz Hd), app_nil_r.
  - unfold uvmunmap_cow in Hr. destruct (decide (va mod PGSIZE = 0)); [|done].
    by eapply uvmunmap_cow_loop_entries.
Qed.

(** The entries of [l] are all there and none is present. *)
Definition all_absent (pt : pagetable_t) (l : list Z) : Prop :=
  forall b, b ∈ l -> exists pte, pt !! b = Some pte /\ Z.land pte PTE_V = 0.

Lemma foldl_clear_all_absent (pt : pagetable_t) l :
  all_absent pt l -> foldl clear_page pt l = pt.
Proof.
  induction l as [|a l IH]; intros Habs; [done|]. simpl.
  destruct (Habs a) as (pte & Ha & Hv); [apply list_elem_of_here|].
  assert (clear_page pt a = pt) as ->.
  { unfold clear_page. by rewrite Ha, Hv. }
  apply IH. intros b Hb. apply Habs. by apply list_elem_of_further.
Qed.

Lemma range_frees_all_absent g reg do_free (pt : pagetable_t) l :
  all_absent pt l -> range_frees g reg do_free pt l = [].
Proof.
  induction l as [|a l IH]; intros Habs; [done|]. simpl.
  destruct (Habs a) as (pte & Ha & Hv); [apply list_elem_of_here|].
  rewrite IH by (intros b Hb; apply Habs; by apply list_elem_of_further).
  unfold page_frees. by rewrite Ha, Hv.
Qed.

(** X10. Unmapping the same range a second time does nothing: under the
    conditions of a successful first call, the second call returns the
    page table and the log of freed frames of the first, so no frame is
    handed to [kfree] twice. *)
Theorem uvmunmap_cow_twice (pt : pagetable_t) (va npages do_free g : Z)
    (reg : registry) (freed : list Z) :
  va mod PGSIZE = 0 -> 0 <= va -> 0 <= npages ->
  va + npages * PGSIZE < 2 ^ 64 ->
  (do_free = 0 \/ group_ok g reg) ->
  range_ok pt va (Z.to_nat npages) ->
  exists pt' freed',
    uvmunmap_cow pt va npages do_free g reg freed = Ok (pt', freed') /\
    uvmunmap_cow pt' va npages do_free g reg freed' = Ok (pt', freed').
Proof.
  intros Hal Hva Hn Hlast Hgrp Hok.
  eexists _, _. split; [by apply uvmunmap_cow_run|].
  set (l := pages va (Z.to_nat npages)).
  assert (Habs : all_absent (foldl clear_page pt l) l).
  { intros b Hb. destruct (Hok b Hb) as (pte & Hpte & _).
    destruct (decide (Z.land pte PTE_V = 0)) as [Hv|Hv].
    - exists pte. split; [by apply foldl_clear_absent|done].
    - exists 0. split; [by eapply foldl_clear_present|apply Z.land_0_l]. }
  rewrite uvmunmap_cow_run; try done.
  - fold l. rewrite (foldl_clear_all_absent _ _ Habs).
    by rewrite (range_frees_all_absent g reg do_free _ _ Habs), app_nil_r.
  - intros b Hb. destruct (Habs b Hb) as (pte & Hpte & Hv).
    exists pte. split; [done|]. intros Hnv. done.
Qed.

(** The loop stops at the first page the walk or the leaf test rejects. *)
Lemma uvmunmap_cow_loop_stuck do_free g reg msg (n : nat) :
  forall a (pt : pagetable_t) freed fuel last,
    0 <= a -> a + Z.of_nat n * PGSIZE < last -> last < 2 ^ 64 ->
    (n < fuel)%nat ->
    (do_free = 0 \/ group_ok g reg) ->
    range_ok pt a n ->
    (forall (pt' : pagetable_t) fr,
       pt' !! (a + Z.of_nat n * PGSIZE) = pt !! (a + Z.of_nat n * PGSIZE) ->
       unmap_page pt' (a + Z.of_nat n * PGSIZE) do_free g reg fr = Panic msg) ->
    uvmunmap_cow_loop fuel last a do_free g reg pt freed = Panic msg.
Proof.
  induction n as [|n IH]; intros a pt freed fuel last Ha Hlt Hlast Hfuel Hgrp
    Hok Hbad.
  - destruct fuel as [|fuel]; [lia|]. cbn [uvmunmap_cow_loop].
    destruct (Z.ltb_spec a last); [|lia].
    replace (a + Z.of_nat 0 * PGSIZE) with a in Hbad by lia.
    by rewrite Hbad.
  - destruct fuel as [|fuel]; [lia|]. cbn [uvmunmap_cow_loop].
    destruct (Z.ltb_spec a last); [|unfold PGSIZE in *; lia].
    rewrite unmap_page_run; [|done|apply Hok, elem_of_cons; by left].
    cbn [obind fst snd].
    rewrite wrap64_id by (unfold PGSIZE in *; lia).
    apply IH; try (unfold PGSIZE in *; lia); [done| |].
    + intros b Hb. rewrite clear_page_lookup_ne by (apply pages_gt in Hb; lia).
      apply Hok, elem_of_cons. by right.
    + replace (a + PGSIZE + Z.of_nat n * PGSIZE)
        with (a + Z.of_nat (S n) * PGSIZE) by lia.
      intros pt' fr Hpt'. apply Hbad. rewrite Hpt'.
      apply clear_page_lookup_ne. unfold PGSIZE. lia.
Qed.

(** X11. A page of the range without page-table entry is still fatal:
    when the pages before page [k] are well formed and [walk] finds
    nothing for page [k], [uvmunmap_cow] panics with "uvmunmap: walk"; when
    the entry of page [k] is present with no flag but [PTE_V], it panics
    with "uvmunmap: not a leaf". *)
Theorem uvmunmap_cow_fatal_pages (pt : pagetable_t) (va npages do_free g : Z)
    (reg : registry) (freed : list Z) (k : nat) :
  va mod PGSIZE = 0 -> 0 <= va ->
  va + npages * PGSIZE < 2 ^ 64 ->
  Z.of_nat k < npages ->
  (do_free = 0 \/ group_ok g reg) ->
  range_ok pt va k ->
  (pt !! (va + Z.of_nat k * PGSIZE) = None ->
   uvmunmap_cow pt va npages do_free g reg freed = Panic "uvmunmap: walk") /\
  (forall pte, pt !! (va + Z.of_nat k * PGSIZE) = Some pte ->
     Z.land pte PTE_V <> 0 -> PTE_FLAGS pte = PTE_V ->
     uvmunmap_cow pt va npages do_free g reg freed
       = Panic "uvmunmap: not a leaf").
Proof.
  intros Hal Hva Hlast Hk Hgrp Hok.
  assert (Hrun : forall msg,
    (forall (pt' : pagetable_t) fr,
       pt' !! (va + Z.of_nat k * PGSIZE) = pt !! (va + Z.of_nat k * PGSIZE) ->
       unmap_page pt' (va + Z.of_nat k * PGSIZE) do_free g reg fr = Panic msg) ->
    uvmunmap_cow pt va npages do_free g reg freed = Panic msg).
  { intros msg Hbad. unfold uvmunmap_cow.
    destruct (decide (va mod PGSIZE = 0)); [|done].
    rewrite wrap64_id by (unfold PGSIZE in *; lia).
    apply (uvmunmap_cow_loop_stuck do_free g reg msg k);
      try done; unfold PGSIZE in *; lia. }
  split.
  - intros Hnone. apply Hrun. intros pt' fr Hpt'.
    unfold unmap_page. by rewrite Hpt', Hnone.
  - intros pte Hpte Hv Hbare. apply Hrun. intros pt' fr Hpt'.
    unfold unmap_page. rewrite Hpt', Hpte.
    destruct (Z.eqb_spec (Z.land pte PTE_V) 0); [done|].
    by rewrite Hbare, Z.eqb_refl.
Qed.

(** X12. [proc_freepagetable_cow] never returns for a process without a
    group in the registry (the "no group" id -1 or an id no slot carries):
    whatever the unmapping does, the final decrement goes through the
    null pointer. *)
Theorem proc_freepagetable_cow_without_group (pt : pagetable_t) (sz g : Z)
    (reg : registry) (freed : list Z) :
  get_cow_group g reg = None ->
  forall r, proc_freepagetable_cow pt sz g reg freed <> Ok r.
Proof.
  intros Hnone r Hrun. unfold proc_freepagetable_cow in Hrun.
  apply obind_Ok_inv in Hrun as (r1 & _ & Hrun).
  apply obind_Ok_inv in Hrun as (r2 & _ & Hrun).
  apply obind_Ok_inv in Hrun as (fr & _ & Hrun).
  apply obind_Ok_inv in Hrun as (rg & Hdecr & _).
  unfold decr_cow_group_count, get_cow_group_count in Hdecr.
  by rewrite Hnone in Hdecr.
Qed.

End TeardownMore.

Lemma uvmunmap_cow_twice_witness :
  exists pt' freed',
    uvmunmap_cow (H := xv6_machine) child_pagetable 0 2 1 7
        registry_after_parent [] = Ok (pt', freed') /\
    uvmunmap_cow (H := xv6_machine) pt' 0 2 1 7 registry_after_parent freed'
      = Ok (pt', freed').
Proof.
  apply (uvmunmap_cow_twice (H := xv6_machine) child_pagetable 0 2 1 7
           registry_after_parent []);
    [reflexivity | lia | lia | vm_compute; reflexivity
    | right; right; vm_compute; eauto | exact child_range_ok].
Defined.

Lemma uvmunmap_cow_fatal_pages_witness :
  uvmunmap_cow (H := xv6_machine) child_pagetable 0 3 1 7
      registry_after_parent [] = Panic "uvmunmap: walk" /\
  uvmunmap_cow (H := xv6_machine) (<[ 8192 := 1 ]> child_pagetable) 0 3 1 7
      registry_after_parent [] = Panic "uvmunmap: not a leaf".
Proof.
  split.
  - destruct (uvmunmap_cow_fatal_pages (H := xv6_machine) child_pagetable
                0 3 1 7 registry_after_parent [] 2) as [Hwalk _];
      [reflexivity | lia | vm_compute; reflexivity | lia
      | right; right; vm_compute; eauto | exact child_range_ok |].
    apply Hwalk. vm_compute. reflexivity.
  - destruct (uvmunmap_cow_fatal_pages (H := xv6_machine)
                (<[ 8192 := 1 ]> child_pagetable)
                0 3 1 7 registry_after_parent [] 2) as [_ Hleaf];
      [reflexivity | lia | vm_compute; reflexivity | lia
      | right; right; vm_compute; eauto | |].
    + intros b Hb. change (pages 0 2) with [0; 4096] in Hb.
      apply elem_of_cons in Hb as [-> | Hb];
        [|apply list_elem_of_singleton in Hb as ->];
        eexists; (split; [vm_compute; reflexivity | vm_compute; congruence]).
    + apply (Hleaf 1); [vm_compute; reflexivity | vm_compute; congruence
                       | reflexivity].
Defined.

Lemma proc_freepagetable_cow_without_group_witness :
  proc_freepagetable_cow (H := xv6_machine) parent_pagetable 8192 (-1)
      fork_registry [] = NullDeref /\
  forall r, proc_freepagetable_cow (H := xv6_machine) parent_pagetable 8192 (-1)
              fork_registry [] <> Ok r.
Proof.
  split; [vm_compute; reflexivity|].
  apply (proc_freepagetable_cow_without_group (H := xv6_machine)).
  reflexivity.
Defined.

Lemma uvmunmap_cow_only_clears_witness :
  exists r,
    uvmunmap_cow (H := xv6_machine) child_pagetable 0 2 0 7
        registry_after_parent [frame_Y] = Ok r /\
    snd r = [frame_Y] /\
    (fst r !! 0 = child_pagetable !! 0 \/
     (fst r !! 0 = Some 0 /\ is_Some (child_pagetable !! 0))).
Proof.
  eexists. split; [vm_compute; reflexivity|].
  destruct (uvmunmap_cow_only_clears (H := xv6_machine) child_pagetable 0 2 0 7
              registry_after_parent [frame_Y] _ eq_refl) as (_ & Hzero & Hent).
  split; [apply Hzero; reflexivity | apply Hent].
Defined.

(* ===================================================================== *)
(** ** The fork: [uvmcopy_cow] *)
(* ===================================================================== *)

(** Every shared set has its [SHMEM_MAX] slots. *)
Definition registry_ok (reg : registry) : Prop :=
  forall c, c ∈ reg -> length (shmem c) = SHMEM_MAX.

Lemma add_shmem_loop_ge (sh : list Z) pa todo i index :
  add_shmem_loop todo sh pa i = Some index -> (i <= index)%nat.
Proof.
  revert i. induction todo as [|todo IH]; intros i; simpl.
  - intros [= <-]. lia.
  - destruct (default 0 (sh !! i) =? pa); [done|].
    destruct (default 0 (sh !! i) =? 0); [intros [= <-]; lia|].
    intros Hrec%IH. lia.
Qed.

(** A duplicate found by the scan of [add_shmem] is found by [is_shmem]. *)
Lemma add_shmem_loop_None (sh : list Z) pa todo i :
  pa <> 0 ->
  add_shmem_loop todo sh pa i = None ->
  is_shmem_loop todo sh pa i = true.
Proof.
  intros Hpa. revert i. induction todo as [|todo IH]; intros i; simpl; [done|].
  destruct (Z.eqb_spec (default 0 (sh !! i)) pa) as [->|Hne].
  - intros _. destruct (Z.eqb_spec pa 0); [done|]. done.
  - destruct (default 0 (sh !! i) =? 0); [done|]. apply IH.
Qed.

(** The frame just stored is found. *)
Lemma add_shmem_loop_stored (sh : list Z) pa todo i index :
  pa <> 0 -> (index < length sh)%nat ->
  add_shmem_loop todo sh pa i = Some index ->
  (index < i + todo)%nat ->
  is_shmem_loop todo (<[ index := pa ]> sh) pa i = true.
Proof.
  intros Hpa Hlen. revert i.
  induction todo as [|todo IH]; intros i; simpl; [intros [= <-]; lia|].
  destruct (Z.eqb_spec (default 0 (sh !! i)) pa) as [|Hne]; [done|].
  destruct (Z.eqb_spec (default 0 (sh !! i)) 0) as [Hz|Hnz].
  - intros [= <-] _. rewrite list_lookup_insert_eq by done. simpl.
    destruct (Z.eqb_spec pa 0); [done|]. by rewrite Z.eqb_refl.
  - intros Hrec Hlt. pose proof (add_shmem_loop_ge _ _ _ _ _ Hrec).
    rewrite list_lookup_insert_ne by lia.
    destruct (Z.eqb_spec (default 0 (sh !! i)) 0); [done|].
    destruct (Z.eqb_spec (default 0 (sh !! i)) pa); [done|].
    apply IH; [done|lia].
Qed.

(** What a returning [add_shmem] keeps and what it establishes. *)
Lemma add_shmem_Ok (g pa : Z) (reg reg' : registry) :
  registry_ok reg ->
  add_shmem g pa reg = Ok reg' ->
  registry_ok reg' /\
  get_cow_group_count g reg' = get_cow_group_count g reg /\
  (g <> -1 -> pa <> 0 -> is_shmem g pa reg' = Ok true).
Proof.
  intros Hok. unfold add_shmem, get_cow_group_count, is_shmem.
  destruct (decide (g = -1)); [by intros [= <-]|].
  destruct (get_cow_group g reg) as [[i c]|] eqn:Hg; [|done].
  destruct (get_cow_group_Some _ _ _ _ Hg) as (_ & Hi & Hgc).
  assert (Hlen : length (shmem c) = SHMEM_MAX)
    by (apply Hok; by eapply list_elem_of_lookup_2).
  destruct (add_shmem_loop SHMEM_MAX (shmem c) pa 0) as [index|] eqn:Hscan.
  - destruct (decide (index < SHMEM_MAX)%nat) as [Hlt|]; [|done].
    intros [= <-].
    rewrite (get_cow_group_insert g reg i c
               (set_shmem c (<[ index := pa ]> (shmem c))) Hg Hgc).
    split; [|split; [done|]].
    + intros c' Hc'. apply list_elem_of_lookup_1 in Hc' as [j Hj].
      apply list_lookup_insert_Some in Hj as [(_ & <- & _) | (_ & Hj)].
      * cbn [shmem set_shmem]. by rewrite length_insert.
      * apply Hok. by eapply list_elem_of_lookup_2.
    + intros _ Hpa. f_equal. cbn [shmem set_shmem].
      apply add_shmem_loop_stored; [done|lia|done|lia].
  - intros [= <-]. rewrite Hg. split; [done|]. split; [done|].
    intros _ Hpa. f_equal. by apply add_shmem_loop_None.
Qed.

(** The shared set of group [g] has no empty slot left. *)
Definition group_full (g : Z) (reg : registry) : Prop :=
  exists i c, get_cow_group g reg = Some (i, c) /\
    forall y, y ∈ shmem c -> y <> 0.

(** When the scan of [add_shmem] runs to the end, no slot it has passed
    is empty. *)
Lemma add_shmem_loop_past (sh : list Z) pa todo i index :
  add_shmem_loop todo sh pa i = Some index ->
  (i + todo <= index)%nat ->
  forall j, (i <= j < i + todo)%nat -> default 0 (sh !! j) <> 0.
Proof.
  revert i. induction todo as [|todo IH]; intros i; simpl; [intros; lia|].
  destruct (default 0 (sh !! i) =? pa); [done|].
  destruct (Z.eqb_spec (default 0 (sh !! i)) 0) as [Hz|Hnz].
  - intros [= <-] ?. lia.
  - intros Hrec Hge j Hj. destruct (decide (j = i)) as [->|Hne]; [done|].
    apply (IH (S i)); [done|lia|lia].
Qed.

(** A full shared set stays full under a registration that returns
    without a stray store. *)
Lemma add_shmem_full_keeps (g pa : Z) (reg reg' : registry) :
  registry_ok reg ->
  add_shmem g pa reg = Ok reg' ->
  group_full g reg -> group_full g reg'.
Proof.
  intros Hok Hadd (i & c & Hg & Hfull). unfold add_shmem in Hadd.
  destruct (decide (g = -1)); [injection Hadd as <-; by exists i, c|].
  rewrite Hg in Hadd.
  destruct (add_shmem_loop SHMEM_MAX (shmem c) pa 0) as [index|] eqn:Hscan;
    [|injection Hadd as <-; by exists i, c].
  destruct (decide (index < SHMEM_MAX)%nat) as [Hlt|]; [|done].
  destruct (get_cow_group_Some _ _ _ _ Hg) as (_ & Hi & _).
  assert (Hlen : length (shmem c) = SHMEM_MAX)
    by (apply Hok; by eapply list_elem_of_lookup_2).
  pose proof (add_shmem_loop_Some _ _ _ _ _ Hscan ltac:(lia)) as Hz.
  destruct (lookup_lt_is_Some_2 (shmem c) index) as [y Hy]; [lia|].
  rewrite Hy in Hz. simpl in Hz. subst y.
  destruct (Hfull 0); [by eapply list_elem_of_lookup_2|done].
Qed.

(** What a returning call of [add_shmem] keeps and what it establishes:
    either the count is as before and the frame is now shared, or the set
    was full and the count now holds the low half of the frame address. *)
Lemma add_shmem_call_Ok (g pa : Z) (reg reg' : registry) :
  registry_ok reg ->
  add_shmem_call g pa reg = Ok reg' ->
  registry_ok reg' /\
  (forall f, is_shmem g f reg = Ok true -> is_shmem g f reg' = Ok true) /\
  (group_full g reg -> group_full g reg') /\
  ((get_cow_group_count g reg' = get_cow_group_count g reg /\
    (g <> -1 -> pa <> 0 -> is_shmem g pa reg' = Ok true)) \/
   (group_full g reg' /\ get_cow_group_count g reg' = Ok (wrap_int pa))).
Proof.
  intros Hok. unfold add_shmem_call.
  destruct (add_shmem g pa reg) as [reg1| | |ix v|] eqn:Hadd; try done.
  - intros [= <-].
    destruct (add_shmem_Ok _ _ _ _ Hok Hadd) as (Hok1 & Hcount & Hthis).
    split; [done|]. split; [intros f Hf; by eapply add_shmem_mono|].
    split; [by apply (add_shmem_full_keeps g pa reg)|]. by left.
  - unfold add_shmem in Hadd.
    destruct (decide (g = -1)); [done|].
    destruct (get_cow_group g reg) as [[i c]|] eqn:Hg; [|done].
    destruct (add_shmem_loop SHMEM_MAX (shmem c) pa 0) as [index|] eqn:Hscan;
      [|done].
    destruct (decide (index < SHMEM_MAX)%nat) as [|Hge]; [done|].
    injection Hadd as <- <-. intros [= <-].
    destruct (get_cow_group_Some _ _ _ _ Hg) as (_ & Hi & Hgc).
    assert (Hlen : length (shmem c) = SHMEM_MAX)
      by (apply Hok; by eapply list_elem_of_lookup_2).
    assert (Hg' : get_cow_group g (<[ i := set_count c (wrap_int pa) ]> reg)
                  = Some (i, set_count c (wrap_int pa)))
      by (by apply (get_cow_group_insert g reg i c)).
    assert (Hfull : group_full g (<[ i := set_count c (wrap_int pa) ]> reg)).
    { exists i, (set_count c (wrap_int pa)). split; [done|].
      cbn [shmem set_count]. intros y Hy.
      apply list_elem_of_lookup_1 in Hy as [j Hj].
      pose proof (lookup_lt_Some _ _ _ Hj) as Hjlt.
      pose proof (add_shmem_loop_past _ _ _ _ _ Hscan ltac:(lia) j
                    ltac:(lia)) as Hnz.
      by rewrite Hj in Hnz. }
    split; [|split; [|split; [done|]]].
    + intros c' Hc'. apply list_elem_of_lookup_1 in Hc' as [j Hj].
      apply list_lookup_insert_Some in Hj as [(_ & <- & _) | (_ & Hj)].
      * done.
      * apply Hok. by eapply list_elem_of_lookup_2.
    + intros f. unfold is_shmem. destruct (decide (g = -1)); [done|].
      by rewrite Hg, Hg'.
    + right. split; [done|]. unfold get_cow_group_count. by rewrite Hg'.
Qed.

Section Fork.
Context `{Machine}.

(** The parent's entry after the fork: [PTE_W] cleared, [PTE_R] set. *)
Definition read_only (pte : Z) : Z := Z.lor (Z.land pte (Z.lnot PTE_W)) PTE_R.

Lemma uvmcopy_cow_loop_success sz g fuel :
  forall (old new : pagetable_t) i reg freed r,
    uvmcopy_cow_loop fuel old new sz i g reg freed = Ok r ->
    fork_ret r = 0 ->
    0 <= i -> sz <= 2 ^ 64 - PGSIZE ->
    registry_ok reg ->
    fork_freed r = freed /\
    (get_cow_group_count g (fork_reg r) = get_cow_group_count g reg \/
     group_full g (fork_reg r) /\
     exists (k : nat) pte, i + Z.of_nat k * PGSIZE < sz /\
       old !! (i + Z.of_nat k * PGSIZE) = Some pte /\
       get_cow_group_count g (fork_reg r) = Ok (wrap_int (PTE2PA pte))) /\
    (forall f, is_shmem g f reg = Ok true ->
               is_shmem g f (fork_reg r) = Ok true) /\
    (forall k : nat, i + Z.of_nat k * PGSIZE < sz ->
       exists pte, old !! (i + Z.of_nat k * PGSIZE) = Some pte /\
         Z.land pte PTE_V <> 0 /\
         fork_old r !! (i + Z.of_nat k * PGSIZE) = Some (read_only pte) /\
         (g <> -1 -> PTE2PA pte <> 0 ->
          is_shmem g (PTE2PA pte) (fork_reg r) = Ok true \/
          group_full g (fork_reg r))) /\
    (forall a, a < i \/ sz <= a -> fork_old r !! a = old !! a) /\
    (group_full g reg -> group_full g (fork_reg r)).
Proof.
  induction fuel as [|fuel IH]; intros old new i reg freed r Hrun Hret Hi Hsz Hreg;
    cbn [uvmcopy_cow_loop] in Hrun.
  - destruct (Z.ltb_spec i sz); [done|]. injection Hrun as <-. simpl.
    split_and!; try done; [by left|]. intros k Hk. unfold PGSIZE in *. lia.
  - destruct (Z.ltb_spec i sz) as [Hlt|Hge].
    2: { injection Hrun as <-. simpl. split_and!; try done; [by left|].
         intros k Hk. unfold PGSIZE in *. lia. }
    destruct (old !! i) as [pte|] eqn:Hpte; [|done].
    destruct (Z.eqb_spec (Z.land pte PTE_V) 0) as [|Hv]; [done|].
    apply obind_Ok_inv in Hrun as (sh & Hsh & Hrun).
    apply obind_Ok_inv in Hrun as (reg1 & Hreg1 & Hrun).
    apply obind_Ok_inv in Hrun as (m & Hmap & Hrun).
    destruct m as [new'|].
    2: { apply obind_Ok_inv in Hrun as (r' & _ & [= <-]). done. }
    rewrite wrap64_id in Hrun by (unfold PGSIZE in *; lia).
    (* the registry after this page *)
    assert (Hstep : registry_ok reg1 /\
      (forall f, is_shmem g f reg = Ok true -> is_shmem g f reg1 = Ok true) /\
      (group_full g reg -> group_full g reg1) /\
      ((get_cow_group_count g reg1 = get_cow_group_count g reg /\
        (g <> -1 -> PTE2PA pte <> 0 ->
         is_shmem g (PTE2PA pte) reg1 = Ok true)) \/
       (group_full g reg1 /\
        get_cow_group_count g reg1 = Ok (wrap_int (PTE2PA pte))))).
    { destruct sh.
      - injection Hreg1 as <-. split_and!; try done. by left.
      - by apply add_shmem_call_Ok. }
    destruct Hstep as (Hreg1ok & Hmono1 & Hfull1 & Hthis).
    destruct (IH _ _ _ _ _ _ Hrun Hret ltac:(unfold PGSIZE; lia) Hsz Hreg1ok)
      as (Hfreed & Hcount & Hmono & Hpages & Hout & Hfull).
    split_and!.
    + done.
    + destruct Hcount as [Hcount | (Hf & k & pte' & Hk & Hold' & Hcount)].
      * destruct Hthis as [[Hc1 _] | [Hf1 Hc1]].
        -- left. congruence.
        -- right. split; [by apply Hfull|]. exists 0%nat, pte.
           replace (i + Z.of_nat 0 * PGSIZE) with i by lia.
           split_and!; [done..|congruence].
      * right. split; [done|]. exists (S k), pte'.
        replace (i + Z.of_nat (S k) * PGSIZE)
          with (i + PGSIZE + Z.of_nat k * PGSIZE) by lia.
        split_and!; [done| |done].
        rewrite lookup_insert_ne in Hold' by (unfold PGSIZE; lia). done.
    + intros f Hf. by apply Hmono, Hmono1.
    + intros k Hk. destruct k as [|k].
      * replace (i + Z.of_nat 0 * PGSIZE) with i by lia.
        exists pte. split_and!; [done..| |].
        -- rewrite Hout by (unfold PGSIZE; lia). apply lookup_insert_eq.
        -- intros Hg Hpa. destruct Hthis as [[_ Hsh1] | [Hf1 _]].
           ++ left. by apply Hmono, Hsh1.
           ++ right. by apply Hfull.
      * replace (i + Z.of_nat (S k) * PGSIZE)
          with (i + PGSIZE + Z.of_nat k * PGSIZE) in * by lia.
        destruct (Hpages k Hk) as (pte' & Hold' & Hrest).
        exists pte'. split; [|done].
        rewrite lookup_insert_ne in Hold' by (unfold PGSIZE; lia). done.
    + intros a Ha. rewrite Hout by (unfold PGSIZE in *; lia).
      apply lookup_insert_ne. lia.
    + intros Hf. by apply Hfull, Hfull1.
Qed.

(** X13. A fork that succeeds. When [uvmcopy_cow], on a size that does not
    wrap around and a registry whose shared sets have their 100 slots,
    returns with value 0:
    - no frame has been freed;
    - every page of [0, sz) was present in the parent; its entry there now
      has [PTE_W] cleared and [PTE_R] set;
    - frames shared before are still shared, and the parent's entries from
      [sz] on are untouched;
    - the group's count is unchanged and, for a process in a group, the
      frame of every page, when not 0, is reported by [is_shmem], unless
      the shared set has been filled: then a frame may be missing from the
      set, and the count is as before or holds the low 32 bits of the
      frame address of a page of the range, left there by the store past
      the end of the set. *)
Theorem uvmcopy_cow_success (old new : pagetable_t) (sz g : Z)
    (reg : registry) (freed : list Z) r :
  0 <= sz <= 2 ^ 64 - PGSIZE ->
  registry_ok reg ->
  uvmcopy_cow old new sz g reg freed = Ok r ->
  fork_ret r = 0 ->
  fork_freed r = freed /\
  (get_cow_group_count g (fork_reg r) = get_cow_group_count g reg \/
   group_full g (fork_reg r) /\
   exists (k : nat) pte, Z.of_nat k * PGSIZE < sz /\
     old !! (Z.of_nat k * PGSIZE) = Some pte /\
     get_cow_group_count g (fork_reg r) = Ok (wrap_int (PTE2PA pte))) /\
  (forall f, is_shmem g f reg = Ok true ->
             is_shmem g f (fork_reg r) = Ok true) /\
  (forall k : nat, Z.of_nat k * PGSIZE < sz ->
     exists pte, old !! (Z.of_nat k * PGSIZE) = Some pte /\
       Z.land pte PTE_V <> 0 /\
       fork_old r !! (Z.of_nat k * PGSIZE) = Some (read_only pte) /\
       (g <> -1 -> PTE2PA pte <> 0 ->
        is_shmem g (PTE2PA pte) (fork_reg r) = Ok true \/
        group_full g (fork_reg r))) /\
  (forall a, sz <= a -> fork_old r !! a = old !! a).
Proof.
  intros Hsz Hreg Hrun Hret. unfold uvmcopy_cow in Hrun.
  destruct (uvmcopy_cow_loop_success _ _ _ _ _ _ _ _ _ Hrun Hret
              ltac:(lia) ltac:(lia) Hreg)
    as (Hfreed & Hcount & Hmono & Hpages & Hout & _).
  split; [done|]. split; [|split; [done|split]].
  - destruct Hcount as [Hcount | (Hf & k & pte & Hk & Hold & Hcount)];
      [by left|].
    right. split; [done|]. exists k, pte. rewrite Z.add_0_l in Hk, Hold. done.
  - intros k Hk. apply (Hpages k). lia.
  - intros a Ha. apply Hout. by right.
Qed.

End Fork.

Lemma joined_registry_ok : registry_ok joined_registry.
Proof.
  intros c Hc. apply list_elem_of_singleton in Hc as ->. reflexivity.
Defined.

Lemma full_registry_ok : registry_ok full_registry.
Proof.
  intros c Hc. apply list_elem_of_singleton in Hc as ->. reflexivity.
Defined.

(** The fork of a one-page parent whose group has a full shared set: the
    fork returns 0, the frame X is not registered, and the member count,
    2 before, holds the low 32 bits of the address of X. *)
Definition fork_on_full_set : fork_result :=
  {| fork_ret := 0;
     fork_old := {[ 0 := mk_pte frame_X 19 ]};
     fork_new := {[ 0 := mk_pte frame_X 19 ]};
     fork_reg := [ {| group := 7; shmem := full_shmem;
                      count := frame_X - 2 ^ 32 |} ];
     fork_freed := [] |}.

Lemma fork_on_full_set_run :
  uvmcopy_cow (H := xv6_machine) {[ 0 := mk_pte frame_X 23 ]} ∅ 4096 7
      full_registry [] = Ok fork_on_full_set /\
  get_cow_group_count 7 full_registry = Ok 2 /\
  get_cow_group_count 7 (fork_reg fork_on_full_set) = Ok (-2145386496) /\
  is_shmem 7 frame_X (fork_reg fork_on_full_set) = Ok false.
Proof. split_and!; vm_compute; reflexivity. Qed.

Lemma uvmcopy_cow_success_witness :
  (exists pte,
     ({[ 0 := mk_pte frame_X 23 ]} : pagetable_t) !! (Z.of_nat 0 * PGSIZE)
       = Some pte /\
     Z.land pte 1 <> 0 /\
     ({[ 0 := mk_pte frame_X 19 ]} : pagetable_t) !! (Z.of_nat 0 * PGSIZE)
       = Some (read_only (H := xv6_machine) pte)) /\
  (forall f, is_shmem 7 f full_registry = Ok true ->
             is_shmem 7 f (fork_reg fork_on_full_set) = Ok true).
Proof.
  split.
  - destruct (uvmcopy_cow_success (H := xv6_machine)
                {[ 0 := mk_pte frame_X 23 ]} ∅ 4096 7 joined_registry []
                {| fork_ret := 0;
                   fork_old := {[ 0 := mk_pte frame_X 19 ]};
                   fork_new := {[ 0 := mk_pte frame_X 19 ]};
                   fork_reg := fork_registry;
                   fork_freed := [] |})
      as (_ & _ & _ & Hpages & _).
    + vm_compute. split; discriminate.
    + exact joined_registry_ok.
    + vm_compute. reflexivity.
    + reflexivity.
    + destruct (Hpages 0%nat) as (pte & Hold & Hv & Hro & _);
        [vm_compute; reflexivity|].
      exists pte. split; [exact Hold|]. split; [exact Hv|exact Hro].
  - destruct (uvmcopy_cow_success (H := xv6_machine)
                {[ 0 := mk_pte frame_X 23 ]} ∅ 4096 7 full_registry []
                fork_on_full_set)
      as (_ & _ & Hmono & _).
    + vm_compute. split; discriminate.
    + exact full_registry_ok.
    + vm_compute. reflexivity.
    + reflexivity.
    + exact Hmono.
Defined.

(* ===================================================================== *)
(** ** A fork that fails *)
(* ===================================================================== *)

Section ForkFailure.
Context `{Machine}.

(** What the fork relies on when [mappages] succeeds: the table gets one
    entry, at [va], a present leaf that points to the frame asked for. *)
Definition installs : Prop :=
  forall (pt pt' : pagetable_t) va pte,
    mappages pt va PGSIZE (PTE2PA pte) (PTE_FLAGS (read_only pte))
      = Ok (Some pt') ->
    exists e, pt' = <[ va := e ]> pt /\ Z.land e PTE_V <> 0 /\
      PTE_FLAGS e <> PTE_V /\ PTE2PA e = PTE2PA pte.

(** The frames of the parent's pages at the addresses [l]. *)
Definition frames_of (old : pagetable_t) (l : list Z) : list Z :=
  (fun a => PTE2PA (default 0 (old !! a))) <$> l.

(** [uvmunmap] with freeing consults no group: the frame of every present
    page of the range is handed to [kfree]. *)
Lemma range_frees_no_group (old new : pagetable_t) l :
  (forall b, b ∈ l -> exists pte e,
     old !! b = Some pte /\ new !! b = Some e /\
     Z.land e PTE_V <> 0 /\ PTE2PA e = PTE2PA pte) ->
  range_frees (-1) [] 1 new l = frames_of old l.
Proof.
  induction l as [|a l IH]; intros Hl; [done|].
  destruct (Hl a) as (pte & e & Ho & Hn & Hv & Hpa);
    [apply elem_of_cons; by left|].
  cbn [range_frees frames_of fmap list_fmap].
  rewrite IH by (intros b Hb; apply Hl, elem_of_cons; by right).
  unfold page_frees. rewrite Hn, Ho.
  destruct (Z.eqb_spec (Z.land e PTE_V) 0); [done|].
  cbn. by rewrite Hpa.
Qed.

Lemma uvmcopy_cow_loop_failure (old0 : pagetable_t) sz g fuel :
  installs -> sz <= 2 ^ 64 - PGSIZE ->
  forall (n : nat) (old new : pagetable_t) reg freed r,
    uvmcopy_cow_loop fuel old new sz (Z.of_nat n * PGSIZE) g reg freed = Ok r ->
    fork_ret r <> 0 ->
    registry_ok reg ->
    (forall a, Z.of_nat n * PGSIZE <= a -> old !! a = old0 !! a) ->
    (forall j, (j < n)%nat -> exists pte e,
       old0 !! (Z.of_nat j * PGSIZE) = Some pte /\ Z.land pte PTE_V <> 0 /\
       old !! (Z.of_nat j * PGSIZE) = Some (read_only pte) /\
       new !! (Z.of_nat j * PGSIZE) = Some e /\ Z.land e PTE_V <> 0 /\
       PTE_FLAGS e <> PTE_V /\ PTE2PA e = PTE2PA pte) ->
    exists k : nat, (n <= k)%nat /\ Z.of_nat k * PGSIZE < sz /\
      fork_ret r = -1 /\
      (forall j, (j <= k)%nat -> exists pte,
         old0 !! (Z.of_nat j * PGSIZE) = Some pte /\ Z.land pte PTE_V <> 0 /\
         fork_old r !! (Z.of_nat j * PGSIZE) = Some (read_only pte)) /\
      (forall a, Z.of_nat k * PGSIZE < a -> fork_old r !! a = old0 !! a) /\
      fork_freed r = freed ++ frames_of old0 (pages 0 k) /\
      (forall j, (j < k)%nat ->
         fork_new r !! (Z.of_nat j * PGSIZE) = Some 0) /\
      (get_cow_group_count g (fork_reg r) = get_cow_group_count g reg \/
       group_full g (fork_reg r) /\
       exists (j : nat) pte, (n <= j <= k)%nat /\
         old0 !! (Z.of_nat j * PGSIZE) = Some pte /\
         get_cow_group_count g (fork_reg r) = Ok (wrap_int (PTE2PA pte))) /\
      (forall f, is_shmem g f reg = Ok true ->
                 is_shmem g f (fork_reg r) = Ok true) /\
      (group_full g reg -> group_full g (fork_reg r)).
Proof.
  intros Hinst Hsz.
  induction fuel as [|fuel IH];
    intros n old new reg freed r Hrun Hret Hreg Hold Hdone;
    cbn [uvmcopy_cow_loop] in Hrun.
  { destruct (_ <? sz); [done|]. injection Hrun as <-. done. }
  destruct (Z.ltb_spec (Z.of_nat n * PGSIZE) sz) as [Hlt|Hge].
  2: { injection Hrun as <-. done. }
  set (i := Z.of_nat n * PGSIZE) in *.
  destruct (old !! i) as [pte|] eqn:Hpte; [|done].
  destruct (Z.eqb_spec (Z.land pte PTE_V) 0) as [|Hv]; [done|].
  apply obind_Ok_inv in Hrun as (sh & Hsh & Hrun).
  apply obind_Ok_inv in Hrun as (reg1 & Hreg1 & Hrun).
  apply obind_Ok_inv in Hrun as (m & Hmap & Hrun).
  assert (Hpte0 : old0 !! i = Some pte) by (rewrite <- Hold by lia; done).
  assert (Hstep : registry_ok reg1 /\
    (forall f, is_shmem g f reg = Ok true -> is_shmem g f reg1 = Ok true) /\
    (group_full g reg -> group_full g reg1) /\
    (get_cow_group_count g reg1 = get_cow_group_count g reg \/
     group_full g reg1 /\
     get_cow_group_count g reg1 = Ok (wrap_int (PTE2PA pte)))).
  { destruct sh.
    - injection Hreg1 as <-. split_and!; try done. by left.
    - destruct (add_shmem_call_Ok _ _ _ _ Hreg Hreg1)
        as (? & ? & ? & [[? _] | ?]);
        (split; [done|split; [done|split; [done|]]]); [by left | by right]. }
  destruct Hstep as (Hreg1ok & Hmono1 & Hfull1 & Hthis).
  assert (Hne : forall j, (j < n)%nat -> Z.of_nat j * PGSIZE <> i)
    by (intros j Hj; unfold i, PGSIZE; lia).
  destruct m as [new'|].
  - (* the page is installed: on to the next one *)
    destruct (Hinst _ _ _ _ Hmap) as (e & -> & Hev & Hleaf & Hpa).
    rewrite wrap64_id in Hrun by (unfold i, PGSIZE in *; lia).
    replace (i + PGSIZE) with (Z.of_nat (S n) * PGSIZE) in Hrun
      by (unfold i; lia).
    destruct (IH (S n) _ _ _ _ _ Hrun Hret Hreg1ok)
      as (k & Hnk & Hk & Hm1 & Hpar & Hrest & Hfreed & Hchild & Hcount
          & Hmono & Hfull).
    + intros a Ha. rewrite lookup_insert_ne by (unfold i, PGSIZE in *; lia).
      apply Hold. unfold i, PGSIZE in *. lia.
    + intros j Hj. destruct (decide (j = n)) as [->|Hjn].
      * exists pte, e. fold i. by rewrite !lookup_insert_eq.
      * destruct (Hdone j ltac:(lia))
          as (pte' & e' & ? & ? & ? & ? & ? & ? & ?).
        exists pte', e'.
        rewrite !lookup_insert_ne by (apply not_eq_sym, Hne; lia). done.
    + exists k. split; [lia|]. split_and!; try done.
      * destruct Hcount as [Hcount | (Hf & j & pte' & Hj & Hold' & Hcount)].
        -- destruct Hthis as [Hc1 | [Hf1 Hc1]].
           ++ left. congruence.
           ++ right. split; [by apply Hfull|]. exists n, pte.
              split; [lia|]. split; [done|]. congruence.
        -- right. split; [done|]. exists j, pte'. split; [lia|]. done.
      * intros f Hf. by apply Hmono, Hmono1.
      * intros Hf. by apply Hfull, Hfull1.
  - (* [mappages] fails: the label [err] *)
    apply obind_Ok_inv in Hrun as (u & Hun & [= <-]).
    cbn [fork_ret fork_old fork_new fork_reg fork_freed].
    unfold uvmunmap in Hun.
    assert (Hdiv : i / PGSIZE = Z.of_nat n)
      by (unfold i; apply Z.div_mul; unfold PGSIZE; lia).
    rewrite Hdiv in Hun.
    rewrite (uvmunmap_cow_run (-1) []) in Hun.
    + injection Hun as <-. cbn [fst snd]. rewrite Nat2Z.id.
      exists n. split; [lia|]. split_and!; try done.
      * intros j Hj. destruct (decide (j = n)) as [->|Hjn].
        -- exists pte. fold i. by rewrite lookup_insert_eq.
        -- destruct (Hdone j ltac:(lia)) as (pte' & e' & ? & ? & ? & _).
           exists pte'.
           rewrite lookup_insert_ne by (apply not_eq_sym, Hne; lia). done.
      * intros a Ha. fold i in Ha. rewrite lookup_insert_ne by lia.
        apply Hold. fold i. lia.
      * f_equal. apply range_frees_no_group.
        intros b (j & Hj & ->)%elem_of_pages. rewrite Z.add_0_l.
        destruct (Hdone j Hj) as (pte' & e' & ? & ? & ? & ? & ? & ? & ?).
        by exists pte', e'.
      * intros j Hj.
        destruct (Hdone j Hj) as (pte' & e' & ? & ? & ? & ? & ? & ? & ?).
        apply (foldl_clear_present _ _ _ e'); [|done..].
        apply elem_of_pages. exists j. split; [done|lia].
      * destruct Hthis as [Hc1 | [Hf1 Hc1]]; [by left|].
        right. split; [done|]. exists n, pte. split; [lia|]. done.
    + reflexivity.
    + lia.
    + lia.
    + unfold i, PGSIZE in *. lia.
    + right. by left.
    + rewrite Nat2Z.id. intros b (j & Hj & ->)%elem_of_pages.
      rewrite Z.add_0_l.
      destruct (Hdone j Hj) as (pte' & e' & ? & ? & ? & ? & ? & ? & ?).
      by exists e'.
Qed.

(** X24. A fork that fails. When [mappages] installs what it is asked for
    whenever it succeeds, the size does not wrap around, and [uvmcopy_cow]
    returns a value other than 0, there is a page [k] of the range, the
    one [mappages] refused, such that:
    - the value returned is -1;
    - the parent is not restored: its pages 0 to [k], the refused one
      included, were present and are left with [PTE_W] cleared and [PTE_R]
      set, and the entries after page [k] are untouched;
    - the child's pages 0 to [k-1] are cleared, and the frames they
      pointed to, which are the frames of the parent's pages 0 to [k-1],
      have all been handed to [kfree], in order and without a look at the
      group, while the parent still maps them;
    - frames shared before are still shared; the group's count is
      unchanged, unless the shared set has been filled on the way: then
      the count is as before or holds the low 32 bits of the frame address
      of one of the pages 0 to [k], left there by the store past the end
      of the set. *)
Theorem uvmcopy_cow_failure (old new : pagetable_t) (sz g : Z)
    (reg : registry) (freed : list Z) r :
  installs ->
  0 <= sz <= 2 ^ 64 - PGSIZE ->
  registry_ok reg ->
  uvmcopy_cow old new sz g reg freed = Ok r ->
  fork_ret r <> 0 ->
  exists k : nat, Z.of_nat k * PGSIZE < sz /\ fork_ret r = -1 /\
    (forall j, (j <= k)%nat -> exists pte,
       old !! (Z.of_nat j * PGSIZE) = Some pte /\ Z.land pte PTE_V <> 0 /\
       fork_old r !! (Z.of_nat j * PGSIZE) = Some (read_only pte)) /\
    (forall a, Z.of_nat k * PGSIZE < a -> fork_old r !! a = old !! a) /\
    fork_freed r = freed ++ frames_of old (pages 0 k) /\
    (forall j, (j < k)%nat -> fork_new r !! (Z.of_nat j * PGSIZE) = Some 0) /\
    (get_cow_group_count g (fork_reg r) = get_cow_group_count g reg \/
     group_full g (fork_reg r) /\
     exists (j : nat) pte, (j <= k)%nat /\
       old !! (Z.of_nat j * PGSIZE) = Some pte /\
       get_cow_group_count g (fork_reg r) = Ok (wrap_int (PTE2PA pte))) /\
    (forall f, is_shmem g f reg = Ok true ->
               is_shmem g f (fork_reg r) = Ok true).
Proof.
  intros Hinst Hsz Hreg Hrun Hret. unfold uvmcopy_cow in Hrun.
  destruct (uvmcopy_cow_loop_failure old sz g (Z.to_nat (sz / PGSIZE + 1))
              Hinst ltac:(lia) 0%nat old new reg freed r)
    as (k & _ & Hk & Hm1 & Hpar & Hrest & Hfreed & Hchild & Hcount & Hmono & _);
    [exact Hrun | done | done | done | intros j Hj; lia |].
  exists k. split_and!; try done.
  destruct Hcount as [Hcount | (Hf & j & pte & Hj & Hold & Hcount)];
    [by left|].
  right. split; [done|]. exists j, pte. split; [lia|]. done.
Qed.

End ForkFailure.

(** A kernel short of memory: [mappages] as in xv6 below the address
    [limit]; from [limit] on, [walk] gets no page for a level of the page
    table and [mappages] returns -1. *)
Definition low_memory_machine (limit : Z) : Machine := {|
  PTE_V := 1;
  PTE_R := 2;
  PTE_W := 4;
  PTE_FLAGS := fun pte => Z.land pte 1023;
  PTE2PA := fun pte => Z.shiftl (Z.shiftr pte 10) 12;
  PGROUNDUP := fun sz => Z.land (wrap64 (sz + PGSIZE - 1)) (Z.lnot (PGSIZE - 1));
  TRAMPOLINE := 2 ^ 38 - PGSIZE;
  TRAPFRAME := 2 ^ 38 - 2 * PGSIZE;
  mappages := fun pt va size pa perm =>
    if va <? limit then mappages (Machine := xv6_machine) pt va size pa perm
    else Ok None
|}.

(** The entry [mappages] of xv6 writes for a frame and flags taken from a
    PTE, as [uvmcopy_cow] does. *)
Lemma xv6_entry_of_pte (pte : Z) :
  let pa := Z.shiftl (Z.shiftr pte 10) 12 in
  let perm := Z.land (Z.lor (Z.land pte (Z.lnot 4)) 2) 1023 in
  let e := Z.lor (Z.lor (Z.shiftl (Z.shiftr pa 12) 10) perm) 1 in
  Z.land e 1 <> 0 /\ Z.land e 1023 <> 1 /\
  Z.shiftl (Z.shiftr e 10) 12 = pa.
Proof.
  intros pa perm e. split; [|split].
  - intros Hz.
    assert (Hb : Z.testbit (Z.land e 1) 0 = true).
    { unfold e. rewrite Z.land_spec, !Z.lor_spec.
      change (Z.testbit 1 0) with true. by rewrite orb_true_r. }
    rewrite Hz in Hb. discriminate.
  - intros Hz.
    assert (Hb : Z.testbit (Z.land e 1023) 1 = true).
    { unfold e, perm.
      rewrite Z.land_spec, !Z.lor_spec, Z.land_spec, Z.lor_spec.
      change (Z.testbit 2 1) with true. rewrite orb_true_r.
      by destruct (Z.testbit (Z.shiftl _ _) _). }
    rewrite Hz in Hb. discriminate.
  - assert (Hq : Z.shiftr e 10 = Z.shiftr pte 10).
    { apply Z.bits_inj'. intros n Hn.
      rewrite Z.shiftr_spec by done. unfold e, perm, pa.
      rewrite !Z.lor_spec, Z.land_spec.
      rewrite Z.shiftl_spec by lia.
      replace (n + 10 - 10) with n by lia.
      rewrite Z.shiftr_spec by done.
      rewrite Z.shiftl_spec by lia.
      replace (n + 12 - 12) with n by lia.
      change 1023 with (Z.ones 10). change (Z.testbit 1) with (Z.testbit (Z.ones 1)).
      rewrite !Z.ones_spec_high by lia.
      by rewrite andb_false_r, !orb_false_r. }
    by rewrite Hq.
Qed.

Lemma low_memory_installs (limit : Z) : installs (H := low_memory_machine limit).
Proof.
  intros pt pt' va pte.
  cbn [mappages PTE2PA PTE_FLAGS PTE_V low_memory_machine xv6_machine].
  unfold read_only. cbn [PTE_W PTE_R low_memory_machine].
  destruct (xv6_entry_of_pte pte) as (Hv & Hleaf & Hpa).
  destruct (va <? limit); [|done].
  destruct (pt !! va) as [o|]; [destruct (Z.land o 1 =? 0); [|done]|];
    intros [= <-]; eexists; split; try reflexivity; done.
Qed.

(** A parent of two writable pages on the frames X and Y, forking when the
    second page of the child cannot be installed. *)
Definition two_page_parent : pagetable_t :=
  {[ 0 := mk_pte frame_X 23; 4096 := mk_pte frame_Y 23 ]}.

Definition failed_fork : fork_result :=
  {| fork_ret := -1;
     fork_old := {[ 0 := mk_pte frame_X 19; 4096 := mk_pte frame_Y 19 ]};
     fork_new := {[ 0 := 0 ]};
     fork_reg := [ {| group := 7;
                      shmem := frame_X :: frame_Y :: replicate 98 0;
                      count := 1 |} ];
     fork_freed := [frame_X] |}.

Lemma uvmcopy_cow_failure_witness :
  uvmcopy_cow (H := low_memory_machine 4096) two_page_parent ∅ 8192 7
      joined_registry [] = Ok failed_fork /\
  exists k : nat, Z.of_nat k * PGSIZE < 8192 /\
    fork_freed failed_fork
      = [] ++ frames_of (H := low_memory_machine 4096) two_page_parent
                (pages 0 k) /\
    fork_old failed_fork !! (Z.of_nat k * PGSIZE)
      = Some (mk_pte frame_Y 19).
Proof.
  assert (Hrun : uvmcopy_cow (H := low_memory_machine 4096) two_page_parent ∅
                   8192 7 joined_registry [] = Ok failed_fork)
    by (vm_compute; reflexivity).
  split; [exact Hrun|].
  destruct (uvmcopy_cow_failure (H := low_memory_machine 4096)
              two_page_parent ∅ 8192 7 joined_registry [] failed_fork
              (low_memory_installs 4096))
    as (k & Hk & _ & Hpar & _ & Hfreed & _).
  - vm_compute. split; discriminate.
  - exact joined_registry_ok.
  - exact Hrun.
  - discriminate.
  - exists k. split; [exact Hk|]. split; [exact Hfreed|].
    destruct k as [|[|k]].
    + exfalso. revert Hfreed. vm_compute. discriminate.
    + vm_compute. reflexivity.
    + exfalso. revert Hk. unfold PGSIZE. lia.
Defined.

End Cow.

(* ===================================================================== *)
(** * kernel/pfault.c *)
(* ===================================================================== *)

Module Pfault.

(** Sizes fixed by the file: a disk block holds 1024 bytes and a page is
    written as 4 blocks. *)
Definition BSIZE : nat := 1024.
Definition zero_page : list byte := replicate (Z.to_nat PGSIZE) Byte.x00.
Definition zero_block : list byte := replicate BSIZE Byte.x00.

(** An entry of [p->heap_tracker]. [loaded] is set when the page has been
    written to the swap area. *)
Record heap_tracker_t : Type := mk_heap_tracker {
  addr : Z;
  last_load_time : Z;
  loaded : bool;
  startblock : Z
}.

(** A user address space as the calls of this file see it: the permission
    argument and the 4096 bytes of every mapped page, by page address. *)
Abbreviation uvm := (gmap Z (Z * list byte)).

(** The fields of [struct proc] the file uses. [heap_tracker] has MAXHEAP
    entries. *)
Record proc : Type := mk_proc {
  name : string;
  cow_enabled : bool;
  resident_heap_pages : Z;
  heap_tracker : list heap_tracker_t;
  pagetable : uvm
}.

(** A program header, and an executable: its program headers (what the
    loop over [elf.phnum] reads with [readi]) and its bytes. *)
Record proghdr : Type := mk_proghdr {
  vaddr : Z;
  memsz : Z;
  off : Z;
  filesz : Z;
  flags : Z
}.
Record inode : Type := mk_inode {
  phdrs : list proghdr;
  data : list byte
}.

(** The faulting process and the kernel state the file touches:
    [psa_tracker] (PSASIZE entries), the disk, [ticks], and the files
    [namei] finds. *)
Record kstate : Type := mk_kstate {
  cur : proc;
  psa_tracker : list bool;
  disk : gmap Z (list byte);
  ticks : Z;
  files : gmap string inode
}.

Definition set_pagetable (p : proc) (pt : uvm) : proc :=
  {| name := name p; cow_enabled := cow_enabled p;
     resident_heap_pages := resident_heap_pages p;
     heap_tracker := heap_tracker p; pagetable := pt |}.
Definition set_heap_tracker (p : proc) (ht : list heap_tracker_t) : proc :=
  {| name := name p; cow_enabled := cow_enabled p;
     resident_heap_pages := resident_heap_pages p;
     heap_tracker := ht; pagetable := pagetable p |}.
Definition set_resident (p : proc) (n : Z) : proc :=
  {| name := name p; cow_enabled := cow_enabled p;
     resident_heap_pages := n;
     heap_tracker := heap_tracker p; pagetable := pagetable p |}.
Definition set_cur (st : kstate) (p : proc) : kstate :=
  {| cur := p; psa_tracker := psa_tracker st; disk := disk st;
     ticks := ticks st; files := files st |}.

(** Constants and routines declared outside the two source files:
    param.h ([PSASTART], [MAXRESHEAP]), riscv.h ([PTE_W]), exec.c
    ([flags2perm]), the bytes [kalloc] leaves in a fresh page, and the CoW
    resolver as it acts on the faulting process. *)
Class Kernel : Type := {
  PSASTART : Z;
  MAXRESHEAP : Z;
  PTE_W : Z;
  flags2perm : Z -> Z;
  kalloc_fill : list byte;
  copy_on_write : proc -> Z -> outcome proc
}.

(** *** Swap-slot allocator (the first loop of [evict_page_to_disk]) *)

(** The scan over [psa_tracker] from index [i]: the final [blockno] and
    whether four free blocks in a row were found (the [break]). *)
Fixpoint find_free_run (tr : list bool) (i blockno freeBlocks : Z) : Z * bool :=
  match tr with
  | [] => (blockno, false)
  | used :: tr' =>
      if negb used then
        let blockno' := if freeBlocks =? 0 then i else blockno in
        let freeBlocks' := freeBlocks + 1 in
        if freeBlocks' =? 4 then (blockno', true)
        else find_free_run tr' (i + 1) blockno' freeBlocks'
      else find_free_run tr' (i + 1) blockno 0
  end.

(** [psa_tracker[blockno .. blockno+3] = v]. *)
Definition mark4 (v : bool) (blockno : Z) (tr : list bool) : list bool :=
  <[ Z.to_nat (blockno + 3) := v ]>
    (<[ Z.to_nat (blockno + 2) := v ]>
      (<[ Z.to_nat (blockno + 1) := v ]>
        (<[ Z.to_nat blockno := v ]> tr))).

(** The block number the rest of [evict_page_to_disk] uses, and the bitmap
    after the loop. Nothing records whether a run was found. *)
Definition psa_alloc (tr : list bool) : Z * list bool :=
  let r := find_free_run tr 0 0 0 in
  (fst r, if snd r then mark4 true (fst r) tr else tr).

(** *** Victim selection (the second loop of [evict_page_to_disk]) *)

Fixpoint find_victim_loop (ht : list heap_tracker_t) (i : nat)
    (victimPageIndex : nat) (minTime : Z) : nat :=
  match ht with
  | [] => victimPageIndex
  | h :: ht' =>
      if negb (loaded h) && (last_load_time h <? minTime)
      then find_victim_loop ht' (S i) i (last_load_time h)
      else find_victim_loop ht' (S i) victimPageIndex minTime
  end.

Definition find_victim (ht : list heap_tracker_t) : nat :=
  find_victim_loop ht 0 0 UINT64_MAX.

(** *** Collaborators *)

(** Modelled from the spec: [copyin] of vm.c for one whole page at a
    page address ("read the victim's full page content into a temporary
    buffer"); it fails when the page is not mapped. *)
Definition copyin (pt : uvm) (va : Z) : option (list byte) :=
  snd <$> pt !! va.

(** Modelled from the spec: [copyout] of vm.c for one whole page ("copy
    the buffer into the destination virtual address via the already-mapped
    destination frame"); when the page is not mapped nothing is written. *)
Definition copyout (pt : uvm) (va : Z) (buf : list byte) : uvm :=
  match pt !! va with
  | Some (perm, _) => <[ va := (perm, buf) ]> pt
  | None => pt
  end.

(** Modelled from the spec: [uvmunmap(pagetable, va, 1, 0)] of vm.c, the
    "remove mapping" service without freeing; an unaligned address is
    fatal, an address that is not mapped is skipped. *)
Definition uvmunmap (pt : uvm) (va : Z) : outcome uvm :=
  if decide (va mod PGSIZE = 0) then Ok (delete va pt)
  else Panic "uvmunmap: not aligned".

(** Rounding to a page boundary, as the two routines below need it. *)
Definition PGROUNDUP (sz : Z) : Z := wrap64 (sz + PGSIZE - 1) / PGSIZE * PGSIZE.
Definition PGROUNDDOWN (a : Z) : Z := a / PGSIZE * PGSIZE.

(** Modelled from the spec: [uvmalloc] of vm.c,
    [allocateMappedRange(table, vaddrStart, vaddrEnd, permissionFlags)]:
    every page from [PGROUNDUP(oldsz)] up to [newsz] gets a fresh
    zero-filled frame with the given permission; mapping a page that is
    already mapped is fatal. [n] bounds the number of pages. *)
Fixpoint uvmalloc_loop (n : nat) (pt : uvm) (a newsz xperm : Z) : outcome uvm :=
  if a <? newsz then
    match n with
    | O => Diverges
    | S n' =>
        match pt !! a with
        | Some _ => Panic "mappages: remap"
        | None =>
            uvmalloc_loop n' (<[ a := (xperm, zero_page) ]> pt)
              (wrap64 (a + PGSIZE)) newsz xperm
        end
    end
  else Ok pt.

Definition uvmalloc (pt : uvm) (oldsz newsz xperm : Z) : outcome uvm :=
  if newsz <? oldsz then Ok pt
  else uvmalloc_loop (Z.to_nat ((newsz - oldsz) / PGSIZE + 1)) pt
         (PGROUNDUP oldsz) newsz xperm.

(** Modelled from the spec: [loadseg] of exec.c,
    [readSegmentBytes(inode, fileOffset, destFrame, length)]: the [sz]
    bytes of the file from [offset] on are read, page by page, into the
    frames mapped from [va] on; a page that is not mapped is fatal, and a
    short read ends the load. *)
Fixpoint loadseg_loop (n : nat) (pt : uvm) (va : Z) (ip : inode)
    (offset sz i : Z) : outcome uvm :=
  if i <? sz then
    match n with
    | O => Diverges
    | S n' =>
        match pt !! PGROUNDDOWN (va + i) with
        | None => Panic "loadseg: address should exist"
        | Some (perm, content) =>
            let want := if sz - i <? PGSIZE then sz - i else PGSIZE in
            let got := take (Z.to_nat want) (drop (Z.to_nat (offset + i)) (data ip)) in
            let pt' := <[ PGROUNDDOWN (va + i) :=
                            (perm, got ++ drop (length got) content) ]> pt in
            if decide (length got = Z.to_nat want)
            then loadseg_loop n' pt' va ip offset sz ((i + PGSIZE) mod 2 ^ 32)
            else Ok pt'
        end
    end
  else Ok pt.

Definition loadseg (pt : uvm) (va : Z) (ip : inode) (offset sz : Z) : outcome uvm :=
  loadseg_loop (Z.to_nat (sz / PGSIZE + 1)) pt va ip offset sz 0.

(** Modelled from the spec: [strncmp] of string.c on C strings: the
    characters are compared until [n] of them agree, they differ, or the
    first string ends. *)
Definition chr (s : string) : Z :=
  match s with
  | EmptyString => 0
  | String a _ => Z.of_nat (nat_of_ascii a)
  end.
Definition rest (s : string) : string :=
  match s with
  | EmptyString => EmptyString
  | String _ s' => s'
  end.
Fixpoint strncmp (p q : string) (n : nat) : Z :=
  match n with
  | O => 0
  | S n' =>
      if negb (chr p =? 0) && (chr p =? chr q)
      then strncmp (rest p) (rest q) n'
      else chr p - chr q
  end.

(** C's [!x]. *)
Definition lnot (x : Z) : Z := if x =? 0 then 1 else 0.

(** A string that stands for a C string holds no NUL character. *)
Fixpoint nul_free (s : string) : bool :=
  match s with
  | EmptyString => true
  | String a s' => negb (Nat.eqb (nat_of_ascii a) 0) && nul_free s'
  end.

(** A store into [psa_tracker] at an index computed from a descriptor. *)
Definition psa_store (tr : list bool) (i : Z) (v : bool) : outcome (list bool) :=
  if (0 <=? i) && (i <? Z.of_nat (length tr))
  then Ok (<[ Z.to_nat i := v ]> tr)
  else OutOfBounds i (Z.b2z v).

Definition psa_release (tr : list bool) (startBlockNo : Z) : outcome (list bool) :=
  tr0 <-- psa_store tr startBlockNo false ;;
  tr1 <-- psa_store tr0 (startBlockNo + 1) false ;;
  tr2 <-- psa_store tr1 (startBlockNo + 2) false ;;
  psa_store tr2 (startBlockNo + 3) false.

Section Engines.
Context `{Kernel}.

(** *** Disk blocks of the swap area *)

(** [bread(1, b)] followed by a copy of the 1024 data bytes. *)
Definition read_block (d : gmap Z (list byte)) (b : Z) : list byte :=
  take BSIZE (default zero_block (d !! b)).

(** The loop that writes the page, kept in [buf], to the four blocks from
    [PSASTART + blockno] on. *)
Definition block_of (buf : list byte) (i : nat) : list byte :=
  take BSIZE (drop (i * BSIZE) buf).

Definition write_page (d : gmap Z (list byte)) (blockno : Z) (buf : list byte)
  : gmap Z (list byte) :=
  <[ PSASTART + (blockno + 3) := block_of buf 3 ]>
    (<[ PSASTART + (blockno + 2) := block_of buf 2 ]>
      (<[ PSASTART + (blockno + 1) := block_of buf 1 ]>
        (<[ PSASTART + (blockno + 0) := block_of buf 0 ]> d))).

(** The loop that reads the four blocks back into one page. *)
Definition read_page (d : gmap Z (list byte)) (startBlockNo : Z) : list byte :=
  read_block d (PSASTART + (startBlockNo + 0)) ++
  read_block d (PSASTART + (startBlockNo + 1)) ++
  read_block d (PSASTART + (startBlockNo + 2)) ++
  read_block d (PSASTART + (startBlockNo + 3)).

(** *** [evict_page_to_disk] *)

Definition mark_evicted (h : heap_tracker_t) (blockno : Z) : heap_tracker_t :=
  {| addr := addr h; last_load_time := last_load_time h;
     loaded := true; startblock := blockno |}.

Definition evict_page_to_disk (st : kstate) : outcome kstate :=
  let p := cur st in
  let a := psa_alloc (psa_tracker st) in
  let blockno := fst a in
  let victimPageIndex := find_victim (heap_tracker p) in
  match heap_tracker p !! victimPageIndex with
  | None => OutOfBounds (Z.of_nat victimPageIndex) 0
  | Some h =>
      let vaAddr := addr h in
      let buf := default kalloc_fill (copyin (pagetable p) vaAddr) in
      let d := write_page (disk st) blockno buf in
      pt <-- uvmunmap (pagetable p) vaAddr ;;
      Ok {| cur := set_heap_tracker (set_pagetable p pt)
                     (<[ victimPageIndex := mark_evicted h blockno ]>
                        (heap_tracker p));
            psa_tracker := snd a;
            disk := d;
            ticks := ticks st;
            files := files st |}
  end.

(** *** [retrieve_page_from_disk] *)

Definition retrieve_page_from_disk (uvaddr : Z) (st : kstate) : outcome kstate :=
  let p := cur st in
  r <-- match list_find (fun h => loaded h = true /\ addr h = uvaddr)
                (heap_tracker p) with
        | Some (_, h) =>
            tr <-- psa_release (psa_tracker st) (startblock h) ;;
            Ok (startblock h, tr)
        | None => Ok (0, psa_tracker st)
        end ;;
  let buf := read_page (disk st) (fst r) in
  Ok {| cur := set_pagetable p (copyout (pagetable p) uvaddr buf);
        psa_tracker := snd r;
        disk := disk st;
        ticks := ticks st;
        files := files st |}.

(** *** [page_fault_handler] *)

(** The guard before [evict_page_to_disk]:
    [!strncmp(p->name, "test5-odheap-bi", 16) == 0
       && p->resident_heap_pages == MAXRESHEAP];
    [!] binds tighter than [==]. *)
Definition must_evict (p : proc) : bool :=
  (lnot (strncmp (name p) "test5-odheap-bi" 16) =? 0)
  && (resident_heap_pages p =? MAXRESHEAP).

(** [p->resident_heap_pages] is declared in proc.h, outside the source
    files; the counter is kept as an integer without a width. *)
Definition heap_make_room (st : kstate) : outcome kstate :=
  if must_evict (cur st) then
    st' <-- evict_page_to_disk st ;;
    Ok (set_cur st' (set_resident (cur st')
                       (resident_heap_pages (cur st') - 1)))
  else Ok st.

Definition touch (h : heap_tracker_t) (now : Z) : heap_tracker_t :=
  {| addr := addr h; last_load_time := now;
     loaded := loaded h; startblock := startblock h |}.

(** [heap_handle] after the eviction guard: map the page, stamp the
    descriptor, page in if asked, count the page. *)
Definition heap_map_and_load (faulting_addr : Z) (load_from_disk : bool)
    (st : kstate) : outcome kstate :=
  let p := cur st in
  pt <-- uvmalloc (pagetable p) faulting_addr (wrap64 (faulting_addr + PGSIZE))
           PTE_W ;;
  let ht :=
    match list_find (fun h => addr h = faulting_addr) (heap_tracker p) with
    | Some (i, h) => <[ i := touch h (ticks st) ]> (heap_tracker p)
    | None => heap_tracker p
    end in
  let st1 := set_cur st (set_heap_tracker (set_pagetable p pt) ht) in
  st2 <-- (if load_from_disk then retrieve_page_from_disk faulting_addr st1
           else Ok st1) ;;
  Ok (set_cur st2 (set_resident (cur st2)
                     (resident_heap_pages (cur st2) + 1))).

Definition heap_handle (faulting_addr : Z) (load_from_disk : bool)
    (st : kstate) : outcome kstate :=
  st1 <-- heap_make_room st ;;
  heap_map_and_load faulting_addr load_from_disk st1.

(** The body of the loop over the program headers. The last two
    arguments of [loadseg] are [uint]. *)
Definition load_segment (faulting_addr : Z) (ip : inode) (pt : uvm)
    (ph : proghdr) : outcome uvm :=
  if (vaddr ph <=? faulting_addr)
     && (faulting_addr <? wrap64 (vaddr ph + memsz ph))
  then
    pt1 <-- uvmalloc pt faulting_addr (wrap64 (faulting_addr + PGSIZE))
              (flags2perm (flags ph)) ;;
    loadseg pt1 (vaddr ph) ip (off ph mod 2 ^ 32) (filesz ph mod 2 ^ 32)
  else Ok pt.

Fixpoint load_segments (faulting_addr : Z) (ip : inode) (phs : list proghdr)
    (pt : uvm) : outcome uvm :=
  match phs with
  | [] => Ok pt
  | ph :: phs' =>
      pt' <-- load_segment faulting_addr ip pt ph ;;
      load_segments faulting_addr ip phs' pt'
  end.

Definition program_image (faulting_addr : Z) (st : kstate) : outcome kstate :=
  match files st !! name (cur st) with
  | None => Ok st
  | Some ip =>
      pt <-- load_segments faulting_addr ip (phdrs ip) (pagetable (cur st)) ;;
      Ok (set_cur st (set_pagetable (cur st) pt))
  end.

(** [stval] and [scause] are the values of the two registers. *)
Definition page_fault_handler (stval scause : Z) (st : kstate) : outcome kstate :=
  let p := cur st in
  let faulting_addr := Z.shiftl (Z.shiftr stval 12) 12 in
  if (scause =? 15) && cow_enabled p then
    p' <-- copy_on_write p faulting_addr ;;
    Ok (set_cur st p')
  else
    match list_find (fun h => addr h = faulting_addr) (heap_tracker p) with
    | Some (_, h) => heap_handle faulting_addr (loaded h) st
    | None => program_image faulting_addr st
    end.

End Engines.

(** The repeated use of the allocator: [n] allocations in a row, their
    block numbers and the bitmap after the last. *)
Fixpoint alloc_many (n : nat) (tr : list bool) : list Z * list bool :=
  match n with
  | O => ([], tr)
  | S n' =>
      let a := psa_alloc tr in
      let r := alloc_many n' (snd a) in
      (fst a :: fst r, snd r)
  end.

(** ** The swap-slot allocator *)

(** Blocks [s .. s+3] exist and are free. *)
Definition free_at (tr : list bool) (s : nat) : Prop :=
  forall k, (k < 4)%nat -> tr !! (s + k)%nat = Some false.

(** [b] starts the first run of four free blocks. *)
Definition first_free_run (tr : list bool) (b : nat) : Prop :=
  free_at tr b /\ forall s, (s < b)%nat -> ~ free_at tr s.

(** The scan, started at position [length pre] with the last [fn] blocks
    of [pre] free: it stops at the first free run, or finds that there is
    none. *)
Lemma find_free_run_spec (tr pre : list bool) (fn : nat) (blockno : Z) :
  (fn < 4)%nat -> (fn <= length pre)%nat ->
  (forall k, (length pre - fn <= k < length pre)%nat -> pre !! k = Some false) ->
  ((0 < fn)%nat -> blockno = Z.of_nat (length pre - fn)) ->
  (forall s, (s < length pre - fn)%nat -> ~ free_at (pre ++ tr) s) ->
  let r := find_free_run tr (Z.of_nat (length pre)) blockno (Z.of_nat fn) in
  if snd r then exists b, fst r = Z.of_nat b /\ first_free_run (pre ++ tr) b
  else forall s, ~ free_at (pre ++ tr) s.
Proof.
  revert pre fn blockno.
  induction tr as [|used tr IH]; intros pre fn blockno Hfn Hle Hlast Hb Hno; simpl.
  - intros s Hs. destruct (decide (s < length pre - fn)%nat) as [Hlt|Hge].
    + by apply (Hno s).
    + specialize (Hs 3%nat ltac:(lia)). apply lookup_lt_Some in Hs.
      rewrite app_nil_r in Hs. lia.
  - destruct used; simpl.
    + (* a used block: the count restarts *)
      specialize (IH (pre ++ [true]) 0%nat blockno).
      rewrite length_app in IH. simpl in IH.
      replace (Z.of_nat (length pre) + 1) with (Z.of_nat (length pre + 1)) by lia.
      rewrite <- app_assoc in IH. apply IH; try lia.
      intros s Hs Hfree.
      destruct (decide (s < length pre - fn)%nat) as [Hlt|Hge];
        [by apply (Hno s)|].
      specialize (Hfree (length pre - s)%nat ltac:(lia)).
      replace (s + (length pre - s))%nat with (length pre) in Hfree by lia.
      pose proof (list_lookup_middle pre tr true (length pre) eq_refl) as Hm.
      simpl in Hfree. congruence.
    + (* a free block *)
      set (blockno' := if Z.of_nat fn =? 0 then Z.of_nat (length pre) else blockno).
      assert (Hb' : blockno' = Z.of_nat (length pre - fn)).
      { unfold blockno'. destruct (Z.eqb_spec (Z.of_nat fn) 0); [f_equal; lia|].
        apply Hb. lia. }
      assert (Hlast' : forall k, (length pre - fn <= k < length pre + 1)%nat ->
                (pre ++ false :: tr) !! k = Some false).
      { intros k Hk. destruct (decide (k = length pre)) as [->|Hne].
        - by rewrite list_lookup_middle.
        - rewrite lookup_app_l by lia. apply Hlast. lia. }
      destruct (Z.eqb_spec (Z.of_nat fn + 1) 4) as [H4|H4]; simpl.
      * exists (length pre - fn)%nat. split; [done|]. split; [|done].
        intros k Hk. apply Hlast'. lia.
      * specialize (IH (pre ++ [false]) (S fn) blockno').
        rewrite length_app in IH. simpl in IH.
        replace (Z.of_nat (length pre) + 1) with (Z.of_nat (length pre + 1)) by lia.
        replace (Z.of_nat fn + 1) with (Z.of_nat (S fn)) by lia.
        rewrite <- app_assoc in IH. apply IH; try lia.
        -- intros k Hk. destruct (decide (k = length pre)) as [->|Hne].
           ++ by apply list_lookup_middle.
           ++ rewrite lookup_app_l by lia. apply Hlast. lia.
        -- intros s Hs. apply Hno. lia.
Qed.

(** [psa_alloc] marks the first run of four free blocks and returns its
    start; without such a run it leaves the bitmap as it is. *)
Lemma psa_alloc_spec (tr : list bool) :
  (forall b, first_free_run tr b ->
     psa_alloc tr = (Z.of_nat b, mark4 true (Z.of_nat b) tr)) /\
  ((forall s, ~ free_at tr s) -> snd (psa_alloc tr) = tr) /\
  ((exists s, free_at tr s) -> exists b, first_free_run tr b).
Proof.
  pose proof (find_free_run_spec tr [] 0 0) as Hspec. simpl in Hspec.
  specialize (Hspec ltac:(lia) ltac:(lia) ltac:(intros; lia) ltac:(lia)
                    ltac:(intros; lia)).
  unfold psa_alloc. cbv zeta in Hspec. change (Z.of_nat 0) with 0 in Hspec.
  destruct (find_free_run tr 0 0 0) as [bn found].
  destruct found; cbn [fst snd] in *.
  - destruct Hspec as (b0 & -> & Hrun0 & Hmin0). split_and!.
    + intros b [Hrun Hmin].
      assert (b = b0) as ->; [|done].
      destruct (Nat.lt_trichotomy b b0) as [Hlt | [-> | Hgt]]; [|done|].
      * by destruct (Hmin0 b).
      * by destruct (Hmin b0).
    + intros Hnone. by destruct (Hnone b0).
    + intros _. by exists b0.
  - split_and!.
    + intros b [Hrun _]. by destruct (Hspec b).
    + done.
    + intros [s Hs]. by destruct (Hspec s).
Qed.

(** A concrete kernel configuration, used where the code is run on an
    example: the swap area starts at block 33, two heap pages may be
    resident, [PTE_W] and [flags2perm] as in xv6, fresh pages hold the
    byte 5, and the CoW resolver is not exercised. *)
Definition demo_kernel : Kernel := {|
  PSASTART := 33;
  MAXRESHEAP := 2;
  PTE_W := 4;
  flags2perm := fun f => Z.lor (if Z.testbit f 0 then 8 else 0)
                               (if Z.testbit f 1 then 4 else 0);
  kalloc_fill := replicate (Z.to_nat PGSIZE) Byte.x05;
  copy_on_write := fun p _ => Ok p
|}.

Definition page_of (b : byte) : list byte := replicate (Z.to_nat PGSIZE) b.

(** A process with one heap page already evicted to the extent at block 0
    and one resident heap page, while all 40 swap blocks are in use. *)
Definition exhausted_state : kstate := {|
  cur := {| name := "heaptest"; cow_enabled := false;
            resident_heap_pages := 1;
            heap_tracker :=
              [ {| addr := 16384; last_load_time := 3; loaded := true;
                   startblock := 0 |};
                {| addr := 20480; last_load_time := 8; loaded := false;
                   startblock := -1 |} ];
            pagetable := {[ 20480 := (4, page_of Byte.x42) ]} |};
  psa_tracker := replicate 40 true;
  disk := write_page (H := demo_kernel) ∅ 0 (page_of Byte.x41);
  ticks := 9;
  files := ∅
|}.

(** C2 as written fails: with every swap block in use the eviction does not
    stop. It returns normally, gives the resident page the extent at block
    0, which already belongs to the evicted page, and overwrites the first
    block of that extent. *)
Lemma exhausted_swap_is_reused :
  exists st', evict_page_to_disk (H := demo_kernel) exhausted_state = Ok st' /\
    startblock <$> heap_tracker (cur st') !! 0%nat = Some 0 /\
    startblock <$> heap_tracker (cur st') !! 1%nat = Some 0 /\
    loaded <$> heap_tracker (cur st') !! 1%nat = Some true /\
    disk exhausted_state !! 33 = Some (replicate BSIZE Byte.x41) /\
    disk st' !! 33 = Some (replicate BSIZE Byte.x42).
Proof. eexists. split_and!; vm_compute; reflexivity. Qed.

(** C2 (amended). On a bitmap of 40 free blocks, ten allocations in a row
    return 0, 4, ..., 36 and leave every block used; each of them marks the
    first run of four free blocks and returns its start. On the full
    bitmap there is no free run and an eleventh allocation marks nothing:
    the bitmap stays as it is. *)
Theorem psa_alloc_forty_blocks :
  alloc_many 10 (replicate 40 false)
    = ([0; 4; 8; 12; 16; 20; 24; 28; 32; 36], replicate 40 true) /\
  Forall (fun k =>
            let tr := snd (alloc_many k (replicate 40 false)) in
            exists b, first_free_run tr b /\
              psa_alloc tr = (Z.of_nat b, mark4 true (Z.of_nat b) tr))
         (seq 0 10) /\
  (forall s, ~ free_at (replicate 40 true) s) /\
  snd (psa_alloc (replicate 40 true)) = replicate 40 true.
Proof.
  split; [vm_compute; reflexivity|]. split; [|split].
  - repeat constructor; cbv zeta;
      match goal with
      | |- exists b, first_free_run ?tr b /\ _ =>
          let tr' := eval vm_compute in tr in change tr with tr';
          destruct (psa_alloc_spec tr') as (Heq & _ & Hex);
          destruct Hex as [b Hb];
            [ match goal with
              | |- exists s, free_at ?l s =>
                  let r := eval vm_compute in (fst (psa_alloc l)) in
                  exists (Z.to_nat r); intros k Hk;
                  do 4 (destruct k as [|k]; [vm_compute; reflexivity|]); lia
              end
            | exists b; split; [exact Hb | exact (Heq b Hb)] ]
      end.
  - intros s Hs. specialize (Hs 0%nat ltac:(lia)).
    apply lookup_replicate in Hs as [? _]. discriminate.
  - vm_compute. reflexivity.
Qed.

(** ** Victim selection *)

Section Victim.
Variable L : list heap_tracker_t.

(** What the scan knows after the first [n] descriptors of [L]: [m] is a
    lower bound of the timestamps of the resident ones, and when it is
    below the initial value, [v] is the first resident descriptor with
    that timestamp. *)
Definition scanned (n v : nat) (m : Z) : Prop :=
  (forall j h, (j < n)%nat -> L !! j = Some h -> loaded h = false ->
     m <= last_load_time h) /\
  (m < UINT64_MAX ->
     (v < n)%nat /\
     exists hv, L !! v = Some hv /\ loaded hv = false /\
       last_load_time hv = m /\
       forall j h, (j < v)%nat -> L !! j = Some h -> loaded h = false ->
         m < last_load_time h).

Lemma find_victim_loop_scanned (ht pre : list heap_tracker_t) v m :
  L = pre ++ ht -> m <= UINT64_MAX ->
  scanned (length pre) v m ->
  exists m', m' <= m /\
    scanned (length L) (find_victim_loop ht (length pre) v m) m' /\
    (m' = UINT64_MAX -> find_victim_loop ht (length pre) v m = v).
Proof.
  revert pre v m. induction ht as [|h ht IH]; intros pre v m HL Hm Hinv.
  - exists m. rewrite HL, app_nil_r. simpl. split_and!; [lia|done|done].
  - simpl.
    assert (Hh : L !! length pre = Some h)
      by (rewrite HL; by apply list_lookup_middle).
    assert (HL' : L = (pre ++ [h]) ++ ht) by (by rewrite <- app_assoc).
    destruct Hinv as [Hlow Hmin].
    destruct (loaded h) eqn:Hld; simpl.
    + (* evicted: skipped *)
      specialize (IH (pre ++ [h]) v m HL' Hm).
      rewrite length_app in IH. simpl in IH.
      replace (length pre + 1)%nat with (S (length pre)) in IH by lia.
      apply IH. split.
      * intros j h' Hj Hjh Hres.
        destruct (decide (j = length pre)) as [->|]; [congruence|].
        apply (Hlow j); [lia|done..].
      * intros Hlt. destruct (Hmin Hlt) as [? ?]. split; [lia|done].
    + destruct (Z.ltb_spec (last_load_time h)  m) as [Hlt|Hge].
      * (* older than all before: new victim *)
        specialize (IH (pre ++ [h]) (length pre) (last_load_time h) HL'
                      ltac:(lia)).
        rewrite length_app in IH. simpl in IH.
        replace (length pre + 1)%nat with (S (length pre)) in IH by lia.
        destruct IH as (m' & Hm' & Hsc & Hkeep).
        { split.
          - intros j h' Hj Hjh Hres.
            destruct (decide (j = length pre)) as [->|].
            + replace h' with h by congruence. lia.
            + specialize (Hlow j h' ltac:(lia) Hjh Hres). lia.
          - intros _. split; [lia|]. exists h. split_and!; [done..|].
            intros j h' Hj Hjh Hres.
            specialize (Hlow j h' ltac:(lia) Hjh Hres). lia. }
        exists m'. split_and!; [lia|done|].
        intros ->. unfold UINT64_MAX in *. lia.
      * (* not older: skipped *)
        specialize (IH (pre ++ [h]) v m HL' Hm).
        rewrite length_app in IH. simpl in IH.
        replace (length pre + 1)%nat with (S (length pre)) in IH by lia.
        apply IH. split.
        -- intros j h' Hj Hjh Hres.
           destruct (decide (j = length pre)) as [->|].
           ++ replace h' with h by congruence. lia.
           ++ apply (Hlow j); [lia|done..].
        -- intros Hlt. destruct (Hmin Hlt) as [? ?]. split; [lia|done].
Qed.

Lemma find_victim_scanned :
  exists m, m <= UINT64_MAX /\ scanned (length L) (find_victim L) m /\
    (m = UINT64_MAX -> find_victim L = 0%nat).
Proof.
  destruct (find_victim_loop_scanned L [] 0 UINT64_MAX) as (m & ? & ? & ?);
    [done|lia| |by exists m].
  split; [intros; simpl in *; lia | lia].
Qed.

End Victim.

(** The claim of C3 in its general form, at one descriptor table: the
    selected index is a resident descriptor, none of the resident ones is
    older, and the earlier resident ones are strictly younger. *)
Definition selects_oldest_resident (ht : list heap_tracker_t) : Prop :=
  exists hv, ht !! find_victim ht = Some hv /\ loaded hv = false /\
    (forall j h, ht !! j = Some h -> loaded h = false ->
       last_load_time hv <= last_load_time h) /\
    (forall j h, (j < find_victim ht)%nat -> ht !! j = Some h ->
       loaded h = false -> last_load_time hv < last_load_time h).

(** C3 as written fails: when the only resident descriptor carries the
    largest 64-bit timestamp, the strict comparison with the initial
    [minTime] never succeeds and index 0, an evicted descriptor, is
    returned. *)
Lemma victim_of_unstamped_table :
  ~ selects_oldest_resident
      [ {| addr := 16384; last_load_time := 7; loaded := true; startblock := 0 |};
        {| addr := 20480; last_load_time := UINT64_MAX; loaded := false;
           startblock := -1 |} ].
Proof. intros (hv & Hhv & Hres & _). vm_compute in Hhv. by injection Hhv as <-. Qed.

(** C3 (amended). When some resident descriptor has a timestamp below the
    largest 64-bit value, the index selected is that of a resident
    descriptor with the smallest timestamp among the resident ones, and
    the first such index. In particular, on every table whose resident
    descriptors are those at indices 0, 1, 2, 3, with timestamps 10, 30, 5
    and 20, index 2 is selected. *)
Theorem find_victim_oldest_resident :
  (forall ht,
     (exists j h, ht !! j = Some h /\ loaded h = false /\
                  last_load_time h < UINT64_MAX) ->
     selects_oldest_resident ht) /\
  (forall ht h0 h1 h2 h3,
     ht !! 0%nat = Some h0 -> ht !! 1%nat = Some h1 ->
     ht !! 2%nat = Some h2 -> ht !! 3%nat = Some h3 ->
     loaded h0 = false -> loaded h1 = false ->
     loaded h2 = false -> loaded h3 = false ->
     last_load_time h0 = 10 -> last_load_time h1 = 30 ->
     last_load_time h2 = 5 -> last_load_time h3 = 20 ->
     (forall j h, (4 <= j)%nat -> ht !! j = Some h -> loaded h = true) ->
     find_victim ht = 2%nat).
Proof.
  assert (Hgen : forall ht,
     (exists j h, ht !! j = Some h /\ loaded h = false /\
                  last_load_time h < UINT64_MAX) ->
     selects_oldest_resident ht).
  { intros ht (j0 & h & Hj0 & Hres & Hts).
    destruct (find_victim_scanned ht) as (m & Hm & [Hlow Hmin] & _).
    assert (Hlt : m < UINT64_MAX).
    { specialize (Hlow j0 h (lookup_lt_Some _ _ _ Hj0) Hj0 Hres). lia. }
    destruct (Hmin Hlt) as (_ & hv & Hhv & Hvres & Hvts & Hfirst).
    exists hv. split_and!; [done..| |].
    - intros j h' Hj Hres'. rewrite Hvts.
      apply (Hlow j); [by eapply lookup_lt_Some|done..].
    - intros j h' Hj Hjh Hres'. rewrite Hvts. by apply (Hfirst j). }
  split; [exact Hgen|].
  intros ht h0 h1 h2 h3 E0 E1 E2 E3 R0 R1 R2 R3 T0 T1 T2 T3 Hrest.
  destruct (Hgen ht) as (hv & Hhv & Hres & Hmin & Hfirst).
  { exists 2%nat, h2. split_and!; [done..|]. rewrite T2. unfold UINT64_MAX. lia. }
  pose proof (Hmin 2%nat h2 E2 R2) as Hle.
  destruct (decide (4 <= find_victim ht)%nat) as [Hge|Hlt].
  { specialize (Hrest _ _ Hge Hhv). congruence. }
  destruct (find_victim ht) as [|[|[|[|v]]]]; [| |done| |lia].
  - assert (hv = h0) as -> by congruence. lia.
  - assert (hv = h1) as -> by congruence. lia.
  - assert (hv = h3) as -> by congruence. lia.
Qed.

Definition four_pages : list heap_tracker_t :=
  [ {| addr := 16384; last_load_time := 10; loaded := false; startblock := -1 |};
    {| addr := 20480; last_load_time := 30; loaded := false; startblock := -1 |};
    {| addr := 24576; last_load_time := 5; loaded := false; startblock := -1 |};
    {| addr := 28672; last_load_time := 20; loaded := false; startblock := -1 |};
    {| addr := 32768; last_load_time := 2; loaded := true; startblock := 0 |} ].

Lemma find_victim_oldest_resident_witness :
  selects_oldest_resident four_pages /\ find_victim four_pages = 2%nat.
Proof.
  destruct find_victim_oldest_resident as [Hgen Hfour]. split.
  - apply Hgen. exists 2%nat. eexists. split; [reflexivity|].
    split; [reflexivity|]. vm_compute. reflexivity.
  - eapply Hfour; try reflexivity.
    intros j h Hj Hjh.
    do 4 (destruct j as [|j]; [lia|]).
    destruct j as [|j]; [by injection Hjh as <- | discriminate].
Defined.

(** ** Eviction followed by page-in *)

Lemma mark4_nat v (b : nat) (tr : list bool) :
  mark4 v (Z.of_nat b) tr
    = <[ (b + 3)%nat := v ]> (<[ (b + 2)%nat := v ]>
        (<[ (b + 1)%nat := v ]> (<[ b := v ]> tr))).
Proof.
  unfold mark4.
  replace (Z.to_nat (Z.of_nat b + 3)) with (b + 3)%nat by lia.
  replace (Z.to_nat (Z.of_nat b + 2)) with (b + 2)%nat by lia.
  replace (Z.to_nat (Z.of_nat b + 1)) with (b + 1)%nat by lia.
  by rewrite Nat2Z.id.
Qed.

Lemma psa_store_in_range (tr : list bool) (j : nat) (i : Z) v :
  i = Z.of_nat j -> (j < length tr)%nat ->
  psa_store tr i v = Ok (<[ j := v ]> tr).
Proof.
  intros -> Hj. unfold psa_store.
  destruct (Z.leb_spec 0 (Z.of_nat j)); [|lia].
  destruct (Z.ltb_spec (Z.of_nat j) (Z.of_nat (length tr))); [|lia].
  simpl. by rewrite Nat2Z.id.
Qed.

(** Releasing the extent that an allocation has just marked gives the
    bitmap back. *)
Lemma psa_release_mark4 (tr : list bool) (b : nat) :
  free_at tr b ->
  psa_release (mark4 true (Z.of_nat b) tr) (Z.of_nat b) = Ok tr.
Proof.
  intros Hfree.
  assert (Hlen : (b + 3 < length tr)%nat)
    by (apply (lookup_lt_Some _ _ false), Hfree; lia).
  rewrite mark4_nat. unfold psa_release.
  rewrite (psa_store_in_range _ b) by (rewrite ?length_insert; lia).
  cbn [obind].
  rewrite (psa_store_in_range _ (b + 1)) by (rewrite ?length_insert; lia).
  cbn [obind].
  rewrite (psa_store_in_range _ (b + 2)) by (rewrite ?length_insert; lia).
  cbn [obind].
  rewrite (psa_store_in_range _ (b + 3)) by (rewrite ?length_insert; lia).
  f_equal. apply list_eq. intros j.
  rewrite !list_lookup_insert, !length_insert.
  pose proof (Hfree 0%nat ltac:(lia)) as H0. rewrite Nat.add_0_r in H0.
  pose proof (Hfree 1%nat ltac:(lia)) as H1.
  pose proof (Hfree 2%nat ltac:(lia)) as H2.
  pose proof (Hfree 3%nat ltac:(lia)) as H3.
  repeat case_decide; try done; destruct_and?; subst; try done; lia.
Qed.

Lemma four_blocks (buf : list byte) (n : nat) :
  length buf = (4 * n)%nat ->
  take n (drop (0 * n) buf) ++ take n (drop (1 * n) buf) ++
  take n (drop (2 * n) buf) ++ take n (drop (3 * n) buf) = buf.
Proof.
  intros Hlen.
  rewrite (take_ge (drop (3 * n) buf)) by (rewrite length_drop; lia).
  replace (drop (3 * n) buf) with (drop n (drop (2 * n) buf))
    by (rewrite drop_drop; f_equal; lia).
  rewrite take_drop.
  replace (drop (2 * n) buf) with (drop n (drop (1 * n) buf))
    by (rewrite drop_drop; f_equal; lia).
  rewrite take_drop.
  replace (drop (1 * n) buf) with (drop n (drop (0 * n) buf))
    by (rewrite drop_drop; f_equal; lia).
  by rewrite take_drop.
Qed.

Section RoundTrip.
Context `{Kernel}.

Lemma read_page_write_page (d : gmap Z (list byte)) (b : Z) (buf : list byte) :
  length buf = Z.to_nat PGSIZE ->
  read_page (write_page d b buf) b = buf.
Proof.
  intros Hlen. unfold read_page, write_page, read_block.
  rewrite lookup_insert_ne by lia. rewrite lookup_insert_ne by lia.
  rewrite lookup_insert_ne by lia. rewrite lookup_insert_eq.
  rewrite lookup_insert_ne by lia. rewrite lookup_insert_ne by lia.
  rewrite lookup_insert_eq.
  rewrite lookup_insert_ne by lia. rewrite lookup_insert_eq.
  rewrite lookup_insert_eq.
  cbn [default]. unfold block_of, id. rewrite !take_take, !Nat.min_id.
  apply four_blocks. rewrite Hlen. reflexivity.
Qed.

Lemma PGROUNDUP_aligned a :
  0 <= a -> a + PGSIZE < 2 ^ 64 -> a mod PGSIZE = 0 -> PGROUNDUP a = a.
Proof.
  intros Ha Hlt Hal. unfold PGROUNDUP.
  rewrite Cow.wrap64_id by (unfold PGSIZE in *; lia).
  apply Z.div_exact in Hal; [|unfold PGSIZE; lia].
  rewrite Hal at 1.
  replace (PGSIZE * (a / PGSIZE) + PGSIZE - 1)
    with (a / PGSIZE * PGSIZE + (PGSIZE - 1)) by lia.
  rewrite Z.div_add_l by (unfold PGSIZE; lia).
  rewrite (Z.div_small (PGSIZE - 1)) by (unfold PGSIZE; lia).
  lia.
Qed.

(** Mapping one fresh page at an aligned address that is not mapped. *)
Lemma uvmalloc_one_page (pt : uvm) a xperm :
  0 <= a -> a + PGSIZE < 2 ^ 64 -> a mod PGSIZE = 0 ->
  pt !! a = None ->
  uvmalloc pt a (wrap64 (a + PGSIZE)) xperm
    = Ok (<[ a := (xperm, zero_page) ]> pt).
Proof.
  intros Ha Hlt Hal Hnone. unfold uvmalloc.
  rewrite Cow.wrap64_id by (unfold PGSIZE in *; lia).
  destruct (Z.ltb_spec (a + PGSIZE) a); [unfold PGSIZE in *; lia|].
  replace (a + PGSIZE - a) with PGSIZE by lia.
  change (Z.to_nat (PGSIZE / PGSIZE + 1)) with 2%nat.
  rewrite PGROUNDUP_aligned by done.
  cbn [uvmalloc_loop].
  destruct (Z.ltb_spec a (a + PGSIZE)); [|unfold PGSIZE in *; lia].
  rewrite Hnone.
  rewrite Cow.wrap64_id by (unfold PGSIZE in *; lia).
  by rewrite Z.ltb_irrefl.
Qed.

(** C5. Let the descriptor selected as victim describe a mapped page with
    the 4096 bytes [content], at an aligned address that no other
    descriptor carries, and let the swap bitmap have a run of four free
    blocks. Then [evict_page_to_disk] returns: the page is unmapped, the
    descriptor is marked evicted with the extent it got, and the extent is
    marked used. Mapping a fresh page at the address, as the dispatcher
    does, and calling [retrieve_page_from_disk] then returns too: the page
    holds [content] again and the bitmap is what it was before the
    eviction, the extent being free again. *)
Theorem evict_then_retrieve (st : kstate) h perm content :
  let p := cur st in
  let v := find_victim (heap_tracker p) in
  heap_tracker p !! v = Some h ->
  pagetable p !! addr h = Some (perm, content) ->
  length content = Z.to_nat PGSIZE ->
  0 <= addr h -> addr h + PGSIZE < 2 ^ 64 -> addr h mod PGSIZE = 0 ->
  (forall j h', heap_tracker p !! j = Some h' -> addr h' = addr h -> j = v) ->
  (exists s, free_at (psa_tracker st) s) ->
  exists b st1 pt2 st3,
    first_free_run (psa_tracker st) b /\
    evict_page_to_disk st = Ok st1 /\
    pagetable (cur st1) !! addr h = None /\
    heap_tracker (cur st1) !! v = Some (mark_evicted h (Z.of_nat b)) /\
    psa_tracker st1 = mark4 true (Z.of_nat b) (psa_tracker st) /\
    uvmalloc (pagetable (cur st1)) (addr h) (wrap64 (addr h + PGSIZE)) PTE_W
      = Ok pt2 /\
    retrieve_page_from_disk (addr h)
      (set_cur st1 (set_pagetable (cur st1) pt2)) = Ok st3 /\
    snd <$> pagetable (cur st3) !! addr h = Some content /\
    psa_tracker st3 = psa_tracker st.
Proof.
  intros p v Hv Hmap Hlen Ha Hlt Hal Huniq Hrun.
  destruct (psa_alloc_spec (psa_tracker st)) as (Halloc & _ & Hex).
  destruct (Hex Hrun) as [b Hb]. specialize (Halloc b Hb).
  set (ht1 := <[ v := mark_evicted h (Z.of_nat b) ]> (heap_tracker p)).
  set (pt1 := delete (addr h) (pagetable p)).
  set (d1 := write_page (disk st) (Z.of_nat b) content).
  set (st1 := {| cur := set_heap_tracker (set_pagetable p pt1) ht1;
                 psa_tracker := mark4 true (Z.of_nat b) (psa_tracker st);
                 disk := d1; ticks := ticks st; files := files st |}).
  set (pt2 := <[ addr h := (PTE_W, zero_page) ]> pt1).
  assert (Hevict : evict_page_to_disk st = Ok st1).
  { unfold evict_page_to_disk. fold p. fold v. rewrite Hv, Halloc.
    cbn [fst snd]. unfold copyin. rewrite Hmap. cbn [fmap option_fmap option_map snd default].
    unfold uvmunmap. destruct (decide (addr h mod PGSIZE = 0)); [|done].
    reflexivity. }
  assert (Hvlt : (v < length (heap_tracker p))%nat)
    by (by eapply lookup_lt_Some).
  assert (Hfind : list_find (fun h' => loaded h' = true /\ addr h' = addr h) ht1
                  = Some (v, mark_evicted h (Z.of_nat b))).
  { apply list_find_Some. split; [|split].
    - unfold ht1. by apply list_lookup_insert_eq.
    - done.
    - intros j y Hj Hjv [_ Hy]. unfold ht1 in Hj.
      rewrite list_lookup_insert_ne in Hj by lia.
      specialize (Huniq j y Hj Hy). lia. }
  exists b, st1, pt2,
    {| cur := set_pagetable (set_heap_tracker (set_pagetable p pt2) ht1)
                (<[ addr h := (PTE_W, content) ]> pt2);
       psa_tracker := psa_tracker st; disk := d1; ticks := ticks st;
       files := files st |}.
  split_and!; try done.
  - apply lookup_delete_eq.
  - unfold st1, ht1. cbn [cur heap_tracker set_heap_tracker].
    by apply list_lookup_insert_eq.
  - apply uvmalloc_one_page; [done..|]. apply lookup_delete_eq.
  - unfold retrieve_page_from_disk.
    cbn [cur set_cur set_pagetable set_heap_tracker heap_tracker pagetable
         psa_tracker disk name cow_enabled resident_heap_pages ticks files st1].
    rewrite Hfind. cbn [startblock mark_evicted].
    rewrite (psa_release_mark4 _ b) by apply Hb. cbn [obind fst snd].
    unfold d1. rewrite read_page_write_page by done.
    unfold copyout, pt2. rewrite lookup_insert_eq. reflexivity.
  - cbn [cur set_pagetable pagetable]. by rewrite lookup_insert_eq.
Qed.

End RoundTrip.

(** A process with two resident heap pages, holding the bytes 0x41 and
    0x42, and an empty swap area of 40 blocks. *)
Definition two_pages_state : kstate := {|
  cur := {| name := "heaptest"; cow_enabled := false;
            resident_heap_pages := 2;
            heap_tracker :=
              [ {| addr := 16384; last_load_time := 3; loaded := false;
                   startblock := -1 |};
                {| addr := 20480; last_load_time := 8; loaded := false;
                   startblock := -1 |};
                {| addr := 24576; last_load_time := UINT64_MAX; loaded := false;
                   startblock := -1 |} ];
            pagetable := {[ 16384 := (4, page_of Byte.x41);
                            20480 := (4, page_of Byte.x42) ]} |};
  psa_tracker := replicate 40 false;
  disk := ∅;
  ticks := 9;
  files := ∅
|}.

Lemma evict_then_retrieve_witness :
  exists b st1 pt2 st3,
    first_free_run (psa_tracker two_pages_state) b /\
    evict_page_to_disk (H := demo_kernel) two_pages_state = Ok st1 /\
    pagetable (cur st1) !! 16384 = None /\
    heap_tracker (cur st1) !! 0%nat
      = Some {| addr := 16384; last_load_time := 3; loaded := true;
                startblock := Z.of_nat b |} /\
    psa_tracker st1 = mark4 true (Z.of_nat b) (psa_tracker two_pages_state) /\
    uvmalloc (pagetable (cur st1)) 16384 (wrap64 (16384 + PGSIZE)) 4 = Ok pt2 /\
    retrieve_page_from_disk (H := demo_kernel) 16384
      (set_cur st1 (set_pagetable (cur st1) pt2)) = Ok st3 /\
    snd <$> pagetable (cur st3) !! 16384 = Some (page_of Byte.x41) /\
    psa_tracker st3 = psa_tracker two_pages_state.
Proof.
  apply (evict_then_retrieve (H := demo_kernel) two_pages_state
           {| addr := 16384; last_load_time := 3; loaded := false;
              startblock := -1 |} 4 (page_of Byte.x41)).
  - reflexivity.
  - reflexivity.
  - reflexivity.
  - simpl. lia.
  - vm_compute. reflexivity.
  - reflexivity.
  - intros j h' Hj Hh'.
    destruct j as [|[|[|j]]]; [reflexivity| | |discriminate];
      injection Hj as <-; discriminate.
  - exists 0%nat. intros k Hk.
    do 4 (destruct k as [|k]; [reflexivity|]). lia.
Defined.

(** ** The dispatcher: heap path *)

Lemma strncmp_0_eq n : forall p q,
  nul_free p = true -> nul_free q = true -> (String.length q < n)%nat ->
  strncmp p q n = 0 -> p = q.
Proof.
  induction n as [|n IH]; intros p q Hp Hq Hlen; [lia|]. simpl.
  destruct p as [|a p]; simpl.
  - destruct q as [|b q]; [done|]. simpl in *.
    apply andb_prop in Hq as [Hb%negb_true_iff%Nat.eqb_neq _]. lia.
  - simpl in Hp. apply andb_prop in Hp as [Ha%negb_true_iff%Nat.eqb_neq Hp].
    destruct (Z.eqb_spec (Z.of_nat (nat_of_ascii a)) 0) as [|_]; [lia|]. simpl.
    destruct q as [|b q]; simpl.
    + destruct (Z.eqb_spec (Z.of_nat (nat_of_ascii a)) 0); lia.
    + simpl in Hq, Hlen. apply andb_prop in Hq as [_ Hq].
      destruct (Z.eqb_spec (Z.of_nat (nat_of_ascii a))
                           (Z.of_nat (nat_of_ascii b))) as [Hab|Hab]; [|lia].
      intros Hrec. f_equal.
      * apply Nat2Z.inj in Hab.
        rewrite <- (ascii_nat_embedding a), <- (ascii_nat_embedding b).
        by rewrite Hab.
      * apply IH; [done..|lia|done].
Qed.

Section HeapPath.
Context `{Kernel}.

Lemma evict_keeps_resident st st' :
  evict_page_to_disk st = Ok st' ->
  resident_heap_pages (cur st') = resident_heap_pages (cur st).
Proof.
  unfold evict_page_to_disk.
  destruct (heap_tracker (cur st) !! _) as [h|]; [|discriminate].
  intros Hr. apply Cow.obind_Ok_inv in Hr as (pt & _ & [= <-]). done.
Qed.

(** C4 (amended). On the heap path (the fault is not taken by the CoW
    resolver and a descriptor carries the faulting page address):
    - for a process whose name is not "test5-odheap-bi" and whose resident
      count equals [MAXRESHEAP], the handler first runs
      [evict_page_to_disk], then continues, with the resident count one
      below the ceiling, by mapping the fresh page at the faulting address;
    - for the process named "test5-odheap-bi" the handler goes straight to
      the mapping: nothing is evicted and the count is not decremented. *)
Theorem heap_fault_at_ceiling_evicts (stval scause : Z) (st : kstate) i h :
  let p := cur st in
  let faulting_addr := Z.shiftl (Z.shiftr stval 12) 12 in
  (scause =? 15) && cow_enabled p = false ->
  list_find (fun h => addr h = faulting_addr) (heap_tracker p) = Some (i, h) ->
  (nul_free (name p) = true ->
   name p <> "test5-odheap-bi"%string ->
   resident_heap_pages p = MAXRESHEAP ->
   page_fault_handler stval scause st =
     (st' <-- evict_page_to_disk st ;;
      heap_map_and_load faulting_addr (loaded h)
        (set_cur st' (set_resident (cur st') (MAXRESHEAP - 1))))) /\
  (name p = "test5-odheap-bi"%string ->
   page_fault_handler stval scause st =
     heap_map_and_load faulting_addr (loaded h) st).
Proof.
  intros p fa Hcow Hfind. subst p fa.
  unfold page_fault_handler. cbv zeta. rewrite Hcow, Hfind.
  unfold heap_handle, heap_make_room, must_evict. split.
  - intros Hnul Hname Hres.
    assert (Hcmp : strncmp (name (cur st)) "test5-odheap-bi" 16 <> 0).
    { intros Hz. apply Hname.
      apply (strncmp_0_eq 16); [done|reflexivity| |done]. simpl. lia. }
    unfold lnot.
    destruct (Z.eqb_spec (strncmp (name (cur st)) "test5-odheap-bi" 16) 0);
      [done|].
    rewrite Hres at 1. rewrite !Z.eqb_refl. cbn [andb].
    destruct (evict_page_to_disk st) as [st'| | | |] eqn:Hev; cbn [obind];
      try done.
    by rewrite (evict_keeps_resident _ _ Hev), Hres.
  - intros ->.
    change (strncmp "test5-odheap-bi" "test5-odheap-bi" 16) with 0.
    reflexivity.
Qed.

End HeapPath.

(** The state [two_pages_state] with the process named after the guard of
    the handler. *)
Definition exempt_state : kstate :=
  set_cur two_pages_state
    {| name := "test5-odheap-bi"; cow_enabled := false;
       resident_heap_pages := 2;
       heap_tracker := heap_tracker (cur two_pages_state);
       pagetable := pagetable (cur two_pages_state) |}.

(** C4 as written fails: for the process named "test5-odheap-bi" at the
    ceiling (two resident pages), a heap fault evicts nothing. No
    descriptor is marked evicted, no swap block is taken, the three heap
    pages are all mapped and the resident count goes above the ceiling. *)
Lemma exempt_process_never_evicts :
  exists st', page_fault_handler (H := demo_kernel) 24580 13 exempt_state = Ok st' /\
    resident_heap_pages (cur exempt_state) = MAXRESHEAP (Kernel := demo_kernel) /\
    resident_heap_pages (cur st') = 3 /\
    loaded <$> heap_tracker (cur st') = [false; false; false] /\
    psa_tracker st' = replicate 40 false /\
    dom (pagetable (cur st')) = {[ 16384; 20480; 24576 ]}.
Proof.
  eexists. split; [vm_compute; reflexivity|].
  split_and!; vm_compute; reflexivity.
Qed.

Lemma heap_fault_at_ceiling_evicts_witness :
  page_fault_handler (H := demo_kernel) 24580 13 two_pages_state =
    (st' <-- evict_page_to_disk (H := demo_kernel) two_pages_state ;;
     heap_map_and_load (H := demo_kernel) 24576 false
       (set_cur st' (set_resident (cur st') (2 - 1)))) /\
  page_fault_handler (H := demo_kernel) 24580 13 exempt_state =
    heap_map_and_load (H := demo_kernel) 24576 false exempt_state.
Proof.
  split.
  - apply (heap_fault_at_ceiling_evicts (H := demo_kernel) 24580 13
             two_pages_state 2%nat
             {| addr := 24576; last_load_time := UINT64_MAX; loaded := false;
                startblock := -1 |});
      [reflexivity | reflexivity | reflexivity | discriminate | reflexivity].
  - apply (heap_fault_at_ceiling_evicts (H := demo_kernel) 24580 13
             exempt_state 2%nat
             {| addr := 24576; last_load_time := UINT64_MAX; loaded := false;
                startblock := -1 |});
      reflexivity.
Defined.

(** ** The dispatcher: program-image path *)

(** An executable with one read-write segment of two pages at address 0,
    stored from file offset 4096 on: its first page holds the byte 0x41,
    its second the byte 0x42. *)
Definition two_page_binary : inode := {|
  phdrs := [ {| vaddr := 0; memsz := 8192; off := 4096; filesz := 8192;
                flags := 6 |} ];
  data := replicate 4096 Byte.x00 ++ page_of Byte.x41 ++ page_of Byte.x42
|}.

(** The process has no heap page; the first page of the segment is
    resident and the process has overwritten it with the byte 0x5a. *)
Definition image_state : kstate := {|
  cur := {| name := "prog"; cow_enabled := false; resident_heap_pages := 0;
            heap_tracker := [];
            pagetable := {[ 0 := (4, page_of Byte.x5a) ]} |};
  psa_tracker := replicate 40 false;
  disk := ∅;
  ticks := 9;
  files := {[ "prog"%string := two_page_binary ]}
|}.

(** The same process before it has touched the first page. *)
Definition image_state_untouched : kstate :=
  set_cur image_state (set_pagetable (cur image_state) ∅).

(** C9 (the code departs from the claim). A fault in the second page of
    the segment maps that page only, but [loadseg] is called with the
    start address, file offset and file size of the whole segment. When
    the first page is resident it is read from the file again, so the
    bytes the process had written there are lost; when it is not, the load
    stops the kernel on the unmapped first page. *)
Theorem fault_in_second_page_reloads_segment :
  (exists st',
     page_fault_handler (H := demo_kernel) 4100 13 image_state = Ok st' /\
     pagetable (cur image_state) !! 0 = Some (4, page_of Byte.x5a) /\
     pagetable (cur st') !! 0 = Some (4, page_of Byte.x41) /\
     pagetable (cur st') !! 4096 = Some (4, page_of Byte.x42)) /\
  page_fault_handler (H := demo_kernel) 4100 13 image_state_untouched
    = Panic "loadseg: address should exist".
Proof.
  split; [eexists; split_and!|]; vm_compute; reflexivity.
Qed.

(** The arguments of [loadseg] do not depend on the faulting address. *)
Lemma load_segment_whole_segment `{Kernel} fa ip (pt : uvm) ph :
  (vaddr ph <=? fa) && (fa <? wrap64 (vaddr ph + memsz ph)) = true ->
  load_segment fa ip pt ph =
    (pt1 <-- uvmalloc pt fa (wrap64 (fa + PGSIZE)) (flags2perm (flags ph)) ;;
     loadseg pt1 (vaddr ph) ip (off ph mod 2 ^ 32) (filesz ph mod 2 ^ 32)).
Proof. intros Hin. unfold load_segment. by rewrite Hin. Qed.

(** The scenario of the spec: a segment of 400 file bytes in one page. The
    page is mapped, its first 400 bytes come from the file and the other
    3696 are zero; no other page is mapped. *)
Definition small_binary : inode := {|
  phdrs := [ {| vaddr := 4096; memsz := 4096; off := 64; filesz := 400;
                flags := 5 |} ];
  data := replicate 64 Byte.x00 ++ replicate 400 Byte.x41
            ++ replicate 100 Byte.x42
|}.

Definition small_state : kstate := {|
  cur := {| name := "small"; cow_enabled := false; resident_heap_pages := 0;
            heap_tracker := []; pagetable := ∅ |};
  psa_tracker := replicate 40 false;
  disk := ∅;
  ticks := 9;
  files := {[ "small"%string := small_binary ]}
|}.

Lemma small_segment_zero_filled :
  exists st',
    page_fault_handler (H := demo_kernel) 4200 12 small_state = Ok st' /\
    pagetable (cur st')
      = {[ 4096 := (8, replicate 400 Byte.x41 ++ replicate 3696 Byte.x00) ]}.
Proof. eexists. split; vm_compute; reflexivity. Qed.

(* ===================================================================== *)
(** ** Further properties of the swap-slot allocator *)
(* ===================================================================== *)

Lemma mark4_length v b (tr : list bool) : length (mark4 v b tr) = length tr.
Proof. unfold mark4. by rewrite !length_insert. Qed.

(** X14. The allocator on any bitmap. Either there is a first run of four
    free blocks: its start is the number returned, its four blocks are
    used afterwards and every other block is as before; or there is no
    free run and the bitmap is unchanged. The size of the bitmap never
    changes. *)
Theorem psa_alloc_contract (tr : list bool) :
  length (snd (psa_alloc tr)) = length tr /\
  ((exists b, first_free_run tr b /\
      fst (psa_alloc tr) = Z.of_nat b /\
      (forall j, (b <= j < b + 4)%nat -> snd (psa_alloc tr) !! j = Some true) /\
      (forall j, ~ (b <= j < b + 4)%nat -> snd (psa_alloc tr) !! j = tr !! j)) \/
   ((forall s, ~ free_at tr s) /\ snd (psa_alloc tr) = tr)).
Proof.
  destruct (psa_alloc_spec tr) as (Hfound & Hnone & Hex).
  assert (Hdec : (exists s, free_at tr s) \/ (forall s, ~ free_at tr s)).
  { pose proof (find_free_run_spec tr [] 0 0) as Hspec. simpl in Hspec.
    specialize (Hspec ltac:(lia) ltac:(lia) ltac:(intros; lia) ltac:(lia)
                      ltac:(intros; lia)).
    cbv zeta in Hspec. destruct (snd (find_free_run tr (Z.of_nat 0) 0 (Z.of_nat 0))).
    - destruct Hspec as (b & _ & Hrun & _). left. by exists b.
    - by right. }
  destruct Hdec as [Hsome | Hno].
  - destruct (Hex Hsome) as [b Hb]. rewrite (Hfound b Hb). cbn [fst snd].
    split; [apply mark4_length|]. left. exists b.
    assert (Hlen : (b + 3 < length tr)%nat).
    { destruct Hb as [Hfree _].
      apply (lookup_lt_Some _ _ false), Hfree. lia. }
    split; [done|]. split; [done|]. rewrite mark4_nat. split.
    + intros j Hj. rewrite !list_lookup_insert, !length_insert.
      repeat case_decide; try done; lia.
    + intros j Hj. rewrite !list_lookup_insert, !length_insert.
      repeat case_decide; try done; lia.
  - rewrite (Hnone Hno). split; [done|]. by right.
Qed.

(** [init_psa_regions]: the loop that stores [false] in every entry. *)
Fixpoint init_psa_loop (todo : nat) (i : nat) (tr : list bool) : list bool :=
  match todo with
  | O => tr
  | S todo' => init_psa_loop todo' (S i) (<[ i := false ]> tr)
  end.

Definition init_psa_regions (tr : list bool) : list bool :=
  init_psa_loop (length tr) 0 tr.

Lemma init_psa_loop_replicate (rest : list bool) (i : nat) :
  init_psa_loop (length rest) i (replicate i false ++ rest)
    = replicate (i + length rest) false.
Proof.
  revert i. induction rest as [|b rest IH]; intros i; simpl.
  - by rewrite app_nil_r, Nat.add_0_r.
  - rewrite <- (Nat.add_0_r i) at 2.
    rewrite <- (length_replicate i false) at 2.
    rewrite insert_app_r. cbn [insert list_insert].
    replace (replicate i false ++ false :: rest)
      with (replicate (S i) false ++ rest)
      by (by rewrite replicate_S_end, <- app_assoc).
    rewrite IH. f_equal. lia.
Qed.

Lemma init_psa_regions_free (tr : list bool) :
  init_psa_regions tr = replicate (length tr) false.
Proof. apply (init_psa_loop_replicate tr 0). Qed.

(** One allocation on a bitmap whose first [u] blocks are used and whose
    other [m] blocks, at least four, are free. *)
Lemma psa_alloc_prefix (u m : nat) :
  (4 <= m)%nat ->
  psa_alloc (replicate u true ++ replicate m false)
    = (Z.of_nat u, replicate (u + 4) true ++ replicate (m - 4) false).
Proof.
  intros Hm. set (tr := replicate u true ++ replicate m false).
  destruct (psa_alloc_spec tr) as (Hfound & _ & _).
  rewrite (Hfound u).
  - f_equal. rewrite mark4_nat. unfold tr.
    replace m with (4 + (m - 4))%nat at 1 by lia.
    rewrite (replicate_add 4). cbn [replicate app].
    rewrite !insert_app_r_alt by (rewrite length_replicate; lia).
    rewrite length_replicate.
    replace (u + 3 - u)%nat with 3%nat by lia.
    replace (u + 2 - u)%nat with 2%nat by lia.
    replace (u + 1 - u)%nat with 1%nat by lia.
    rewrite Nat.sub_diag. cbn [insert list_insert].
    rewrite (replicate_add u 4). cbn [replicate]. by rewrite <- app_assoc.
  - split.
    + intros k Hk. unfold tr.
      rewrite lookup_app_r by (rewrite length_replicate; lia).
      apply lookup_replicate_2. rewrite length_replicate. lia.
    + intros s Hs Hfree. specialize (Hfree 0%nat ltac:(lia)). unfold tr in Hfree.
      rewrite Nat.add_0_r, lookup_app_l in Hfree by (rewrite length_replicate; lia).
      apply lookup_replicate_1 in Hfree as [? _]. done.
Qed.

Lemma alloc_many_prefix (k : nat) :
  forall u m, (4 * k <= m)%nat ->
    alloc_many k (replicate u true ++ replicate m false)
      = ((fun i => Z.of_nat (u + 4 * i)) <$> seq 0 k,
         replicate (u + 4 * k) true ++ replicate (m - 4 * k) false).
Proof.
  induction k as [|k IH]; intros u m Hm.
  - simpl. by rewrite Nat.add_0_r, Nat.sub_0_r.
  - cbn [alloc_many]. rewrite psa_alloc_prefix by lia. cbn [fst snd].
    rewrite IH by lia. cbn [fst snd seq fmap list_fmap]. f_equal.
    + f_equal; [f_equal; lia|]. rewrite <- fmap_S_seq, <- list_fmap_compose.
      apply list_fmap_ext. intros i x _. simpl. f_equal. lia.
    + f_equal; f_equal; lia.
Qed.

(** X15. From [init_psa_regions], on a bitmap of any size [n]: [k]
    allocations with [4k <= n] return 0, 4, ..., 4(k-1) and leave the first
    [4k] blocks used and the others free; once fewer than four blocks are
    left no run of four free blocks exists. *)
Theorem alloc_after_init (tr : list bool) (k : nat) :
  (4 * k <= length tr)%nat ->
  alloc_many k (init_psa_regions tr)
    = ((fun i => Z.of_nat (4 * i)) <$> seq 0 k,
       replicate (4 * k) true ++ replicate (length tr - 4 * k) false) /\
  ((length tr < 4 * k + 4)%nat ->
   forall s, ~ free_at (snd (alloc_many k (init_psa_regions tr))) s).
Proof.
  intros Hk. rewrite init_psa_regions_free.
  assert (Hrun : alloc_many k (replicate (length tr) false)
    = ((fun i => Z.of_nat (4 * i)) <$> seq 0 k,
       replicate (4 * k) true ++ replicate (length tr - 4 * k) false)).
  { apply (alloc_many_prefix k 0 (length tr) Hk). }
  split; [done|]. rewrite Hrun. cbn [snd]. intros Hfew s Hfree.
  destruct (decide (s < 4 * k)%nat) as [Hlt|Hge].
  - specialize (Hfree 0%nat ltac:(lia)).
    rewrite Nat.add_0_r, lookup_app_l in Hfree by (rewrite length_replicate; lia).
    apply lookup_replicate_1 in Hfree as [? _]. done.
  - specialize (Hfree 3%nat ltac:(lia)). apply lookup_lt_Some in Hfree.
    rewrite length_app, !length_replicate in Hfree. lia.
Qed.

Lemma alloc_after_init_witness :
  alloc_many 2 (init_psa_regions [true; false; true; true; false; true; true;
                                  false; true; true])
    = ((fun i => Z.of_nat (4 * i)) <$> seq 0 2,
       replicate (4 * 2) true ++ replicate (10 - 4 * 2) false) /\
  forall s, ~ free_at (snd (alloc_many 2
    (init_psa_regions [true; false; true; true; false; true; true; false;
                       true; true]))) s.
Proof.
  destruct (alloc_after_init [true; false; true; true; false; true; true;
                              false; true; true] 2) as [Hrun Hnone];
    [simpl; lia|].
  split; [exact Hrun | apply Hnone; simpl; lia].
Defined.

(* ===================================================================== *)
(** ** Further properties of victim selection *)
(* ===================================================================== *)

(** X16. The index selected is always inside a non-empty table; and when
    no descriptor is both resident and stamped below the largest 64-bit
    value, it is index 0, whatever descriptor 0 is. *)
Theorem find_victim_default (ht : list heap_tracker_t) :
  (ht <> [] -> (find_victim ht < length ht)%nat) /\
  ((forall h, h ∈ ht -> loaded h = true \/ UINT64_MAX <= last_load_time h) ->
   find_victim ht = 0%nat).
Proof.
  destruct (find_victim_scanned ht) as (m & Hm & [Hlow Hmin] & Hzero).
  split.
  - intros Hne. destruct (decide (m < UINT64_MAX)) as [Hlt|Hge].
    + by destruct (Hmin Hlt) as [? _].
    + rewrite Hzero by lia. destruct ht; [done|]. simpl. lia.
  - intros Hnone. apply Hzero.
    destruct (decide (m < UINT64_MAX)) as [Hlt|Hge]; [|lia].
    destruct (Hmin Hlt) as (_ & hv & Hhv & Hres & Hts & _).
    destruct (Hnone hv) as [Hl | Hl]; [by eapply list_elem_of_lookup_2| |];
      [congruence | lia].
Qed.

Lemma find_victim_default_witness :
  (find_victim four_pages < length four_pages)%nat /\
  find_victim
    [ {| addr := 16384; last_load_time := 7; loaded := true; startblock := 0 |};
      {| addr := 20480; last_load_time := UINT64_MAX; loaded := false;
         startblock := -1 |} ] = 0%nat.
Proof.
  split.
  - apply (find_victim_default four_pages). discriminate.
  - apply (find_victim_default
             [ {| addr := 16384; last_load_time := 7; loaded := true;
                  startblock := 0 |};
               {| addr := 20480; last_load_time := UINT64_MAX; loaded := false;
                  startblock := -1 |} ]).
    apply Forall_forall.
    apply Forall_cons. split; [by left|].
    apply Forall_cons. split; [right; simpl; lia | constructor].
Defined.

(* ===================================================================== *)
(** ** Further properties of the page-in *)
(* ===================================================================== *)

Lemma psa_store_Ok_length (tr tr' : list bool) i v :
  psa_store tr i v = Ok tr' -> length tr' = length tr.
Proof.
  unfold psa_store. destruct ((0 <=? i) && (i <? Z.of_nat (length tr))); [|done].
  intros [= <-]. apply length_insert.
Qed.

Lemma psa_store_range (tr : list bool) i v :
  (0 <= i < Z.of_nat (length tr) /\ exists tr', psa_store tr i v = Ok tr') \/
  ((i < 0 \/ Z.of_nat (length tr) <= i) /\
   psa_store tr i v = OutOfBounds i (Z.b2z v)).
Proof.
  unfold psa_store.
  destruct (Z.leb_spec 0 i); destruct (Z.ltb_spec i (Z.of_nat (length tr)));
    simpl; [left; split; [lia|eauto] | right; split; [lia|done]..].
Qed.

(** The release of an extent that does not lie inside the bitmap stores
    outside it. *)
Lemma psa_release_outside (tr : list bool) (s : Z) :
  s < 0 \/ Z.of_nat (length tr) < s + 4 ->
  exists idx, psa_release tr s = OutOfBounds idx 0 /\
    s <= idx <= s + 3 /\ (idx < 0 \/ Z.of_nat (length tr) <= idx).
Proof.
  intros Hout. unfold psa_release.
  destruct (psa_store_range tr s false) as [(H0 & tr0 & E0) | (H0 & E0)];
    rewrite E0; cbn [obind]; [|exists s; split; [done|lia]].
  apply psa_store_Ok_length in E0 as L0.
  destruct (psa_store_range tr0 (s + 1) false) as [(H1 & tr1 & E1) | (H1 & E1)];
    rewrite E1; cbn [obind]; [|exists (s + 1); split; [done|lia]].
  apply psa_store_Ok_length in E1 as L1.
  destruct (psa_store_range tr1 (s + 2) false) as [(H2 & tr2 & E2) | (H2 & E2)];
    rewrite E2; cbn [obind]; [|exists (s + 2); split; [done|lia]].
  apply psa_store_Ok_length in E2 as L2.
  destruct (psa_store_range tr2 (s + 3) false) as [(H3 & tr3 & E3) | (H3 & E3)];
    rewrite E3; [lia|exists (s + 3); split; [done|lia]].
Qed.

Section PageInMore.
Context `{Kernel}.

(** X17. [retrieve_page_from_disk] trusts the extent recorded in the
    descriptor: when the first evicted descriptor for the address records
    a start block below 0 (such as -1) or less than four blocks before the
    end of the bitmap, the call stores outside [psa_tracker], at an index
    among the four of that extent. *)
Theorem retrieve_page_from_disk_bad_extent (uvaddr : Z) (st : kstate) i h :
  list_find (fun h => loaded h = true /\ addr h = uvaddr)
    (heap_tracker (cur st)) = Some (i, h) ->
  startblock h < 0 \/ Z.of_nat (length (psa_tracker st)) < startblock h + 4 ->
  exists idx, retrieve_page_from_disk uvaddr st = OutOfBounds idx 0 /\
    startblock h <= idx <= startblock h + 3 /\
    (idx < 0 \/ Z.of_nat (length (psa_tracker st)) <= idx).
Proof.
  intros Hfind Hbad. unfold retrieve_page_from_disk. rewrite Hfind.
  destruct (psa_release_outside _ _ Hbad) as (idx & Erel & Hidx).
  exists idx. by rewrite Erel.
Qed.

End PageInMore.

Definition stale_descriptor_state : kstate :=
  set_cur two_pages_state
    {| name := "heaptest"; cow_enabled := false; resident_heap_pages := 1;
       heap_tracker :=
         [ {| addr := 16384; last_load_time := 3; loaded := true;
              startblock := -1 |} ];
       pagetable := {[ 16384 := (4, zero_page) ]} |}.

Lemma retrieve_page_from_disk_bad_extent_witness :
  exists idx,
    retrieve_page_from_disk (H := demo_kernel) 16384 stale_descriptor_state
      = OutOfBounds idx 0 /\
    -1 <= idx <= -1 + 3 /\ (idx < 0 \/ 40 <= idx).
Proof.
  apply (retrieve_page_from_disk_bad_extent (H := demo_kernel) 16384
           stale_descriptor_state 0%nat
           {| addr := 16384; last_load_time := 3; loaded := true;
              startblock := -1 |}).
  - reflexivity.
  - left. simpl. lia.
Defined.

(* ===================================================================== *)
(** ** Further properties of the eviction *)
(* ===================================================================== *)

Section EvictMore.
Context `{Kernel}.

(** X18. What an eviction that returns has touched, with [v] the index
    selected and [blockno] the block number of the allocator: descriptor
    [v] keeps its address and timestamp and is marked evicted at
    [blockno], its page is unmapped and its address is page aligned;
    every other descriptor, every other page, every disk block outside the
    four blocks from [PSASTART + blockno] on, the resident count, [ticks]
    and the sizes of both tables are as before. *)
Theorem evict_page_to_disk_frame (st st' : kstate) :
  evict_page_to_disk st = Ok st' ->
  let v := find_victim (heap_tracker (cur st)) in
  let blockno := fst (psa_alloc (psa_tracker st)) in
  exists h,
    heap_tracker (cur st) !! v = Some h /\
    addr h mod PGSIZE = 0 /\
    heap_tracker (cur st') !! v = Some (mark_evicted h blockno) /\
    length (heap_tracker (cur st')) = length (heap_tracker (cur st)) /\
    (forall j, j <> v ->
       heap_tracker (cur st') !! j = heap_tracker (cur st) !! j) /\
    pagetable (cur st') !! addr h = None /\
    (forall a, a <> addr h ->
       pagetable (cur st') !! a = pagetable (cur st) !! a) /\
    length (psa_tracker st') = length (psa_tracker st) /\
    (forall b, b < PSASTART + blockno \/ PSASTART + blockno + 3 < b ->
       disk st' !! b = disk st !! b) /\
    resident_heap_pages (cur st') = resident_heap_pages (cur st) /\
    ticks st' = ticks st.
Proof.
  intros Hrun v blockno. unfold evict_page_to_disk in Hrun.
  fold v in Hrun. fold blockno in Hrun.
  destruct (heap_tracker (cur st) !! v) as [h|] eqn:Hv; [|done].
  unfold uvmunmap in Hrun.
  destruct (decide (addr h mod PGSIZE = 0)) as [Hal|]; [|done].
  cbn [obind] in Hrun. injection Hrun as <-.
  cbn [cur heap_tracker pagetable psa_tracker disk ticks resident_heap_pages
       set_heap_tracker set_pagetable].
  exists h. split; [done|]. split; [done|].
  assert (Hvlt : (v < length (heap_tracker (cur st)))%nat)
    by (by eapply lookup_lt_Some).
  split; [by apply list_lookup_insert_eq|].
  split; [apply length_insert|].
  split; [intros j Hj; by apply list_lookup_insert_ne|].
  split; [apply lookup_delete_eq|].
  split; [intros a Ha; by apply lookup_delete_ne|].
  split.
  { unfold psa_alloc. cbn [snd].
    destruct (snd (find_free_run (psa_tracker st) 0 0 0)); [|done].
    apply mark4_length. }
  split; [|done].
  intros b Hb. unfold write_page. by rewrite !lookup_insert_ne by lia.
Qed.

(** X19. The result of [copyin] is not looked at: when the page of the
    victim is not mapped (and its address is aligned), the eviction still
    returns, marks the descriptor evicted, and the extent it has written
    holds the bytes [kalloc] had left in the buffer. *)
Theorem evict_unmapped_victim (st : kstate) h :
  let v := find_victim (heap_tracker (cur st)) in
  let blockno := fst (psa_alloc (psa_tracker st)) in
  heap_tracker (cur st) !! v = Some h ->
  pagetable (cur st) !! addr h = None ->
  addr h mod PGSIZE = 0 ->
  length kalloc_fill = Z.to_nat PGSIZE ->
  exists st', evict_page_to_disk st = Ok st' /\
    heap_tracker (cur st') !! v = Some (mark_evicted h blockno) /\
    read_page (disk st') blockno = kalloc_fill.
Proof.
  intros v blockno Hv Hnone Hal Hlen. unfold evict_page_to_disk.
  fold v. fold blockno. rewrite Hv. unfold copyin, uvmunmap.
  rewrite Hnone. cbn [fmap option_fmap option_map default].
  destruct (decide (addr h mod PGSIZE = 0)); [|done]. cbn [obind].
  eexists. split; [reflexivity|].
  cbn [cur heap_tracker disk set_heap_tracker set_pagetable]. split.
  - apply list_lookup_insert_eq. by eapply lookup_lt_Some.
  - by apply read_page_write_page.
Qed.

End EvictMore.

Lemma evict_page_to_disk_frame_witness :
  exists st' h,
    evict_page_to_disk (H := demo_kernel) two_pages_state = Ok st' /\
    heap_tracker (cur two_pages_state) !! 0%nat = Some h /\
    heap_tracker (cur st') !! 0%nat = Some (mark_evicted h 0) /\
    heap_tracker (cur st') !! 1%nat = heap_tracker (cur two_pages_state) !! 1%nat /\
    pagetable (cur st') !! 20480 = pagetable (cur two_pages_state) !! 20480.
Proof.
  eexists.
  destruct (evict_page_to_disk_frame (H := demo_kernel) two_pages_state _
              eq_refl)
    as (h & Hh & _ & Hv & _ & Hothers & _ & Hpages & _).
  exists h. split; [reflexivity|]. split; [exact Hh|]. split; [exact Hv|].
  split; [apply Hothers; discriminate|].
  apply Hpages. vm_compute in Hh. injection Hh as <-. discriminate.
Defined.

(** The third heap page of [two_pages_state] is the only resident
    descriptor and has never been mapped. *)
Definition untouched_victim_state : kstate :=
  set_cur two_pages_state
    {| name := "heaptest"; cow_enabled := false; resident_heap_pages := 2;
       heap_tracker :=
         [ {| addr := 24576; last_load_time := 4; loaded := false;
              startblock := -1 |} ];
       pagetable := pagetable (cur two_pages_state) |}.

Lemma evict_unmapped_victim_witness :
  exists st',
    evict_page_to_disk (H := demo_kernel) untouched_victim_state = Ok st' /\
    heap_tracker (cur st') !! 0%nat
      = Some {| addr := 24576; last_load_time := 4; loaded := true;
                startblock := 0 |} /\
    read_page (H := demo_kernel) (disk st') 0 = page_of Byte.x05.
Proof.
  apply (evict_unmapped_victim (H := demo_kernel) untouched_victim_state
           {| addr := 24576; last_load_time := 4; loaded := false;
              startblock := -1 |});
    reflexivity.
Defined.

(* ===================================================================== *)
(** ** Further properties of the dispatcher *)
(* ===================================================================== *)

(** From one descriptor table to a later one: same size, every descriptor
    keeps its address, and a descriptor marked evicted stays so. *)
Definition tracker_kept (ht ht' : list heap_tracker_t) : Prop :=
  length ht' = length ht /\
  forall j h, ht !! j = Some h ->
    exists h', ht' !! j = Some h' /\ addr h' = addr h /\
      (loaded h = true -> loaded h' = true).

Lemma tracker_kept_refl ht : tracker_kept ht ht.
Proof. split; [done|]. intros j h Hj. by exists h. Qed.

Lemma tracker_kept_trans ht1 ht2 ht3 :
  tracker_kept ht1 ht2 -> tracker_kept ht2 ht3 -> tracker_kept ht1 ht3.
Proof.
  intros [L12 K12] [L23 K23]. split; [congruence|]. intros j h Hj.
  destruct (K12 j h Hj) as (h2 & Hj2 & A2 & E2).
  destruct (K23 j h2 Hj2) as (h3 & Hj3 & A3 & E3).
  exists h3. split_and!; [done|congruence|auto].
Qed.

Lemma tracker_kept_insert ht v h h' :
  ht !! v = Some h -> addr h' = addr h ->
  (loaded h = true -> loaded h' = true) ->
  tracker_kept ht (<[ v := h' ]> ht).
Proof.
  intros Hv Ha Hl. split; [apply length_insert|]. intros j hj Hj.
  destruct (decide (j = v)) as [->|Hne].
  - exists h'. rewrite list_lookup_insert_eq by (by eapply lookup_lt_Some).
    replace hj with h by congruence. done.
  - exists hj. by rewrite list_lookup_insert_ne.
Qed.

Section DispatcherMore.
Context `{Kernel}.

Lemma retrieve_keeps st st' uvaddr :
  retrieve_page_from_disk uvaddr st = Ok st' ->
  heap_tracker (cur st') = heap_tracker (cur st) /\
  resident_heap_pages (cur st') = resident_heap_pages (cur st) /\
  name (cur st') = name (cur st).
Proof.
  unfold retrieve_page_from_disk. intros Hr.
  apply Cow.obind_Ok_inv in Hr as (r & _ & [= <-]). done.
Qed.

Lemma evict_keeps st st' :
  evict_page_to_disk st = Ok st' ->
  tracker_kept (heap_tracker (cur st)) (heap_tracker (cur st')) /\
  resident_heap_pages (cur st') = resident_heap_pages (cur st) /\
  name (cur st') = name (cur st).
Proof.
  unfold evict_page_to_disk.
  destruct (heap_tracker (cur st) !! _) as [h|] eqn:Hv; [|done].
  intros Hr. apply Cow.obind_Ok_inv in Hr as (pt & _ & [= <-]).
  cbn [cur heap_tracker resident_heap_pages name set_heap_tracker
       set_pagetable].
  split; [|done]. by eapply tracker_kept_insert.
Qed.

Lemma heap_make_room_keeps st st' :
  heap_make_room st = Ok st' ->
  tracker_kept (heap_tracker (cur st)) (heap_tracker (cur st')) /\
  resident_heap_pages (cur st')
    = (if must_evict (cur st) then resident_heap_pages (cur st) - 1
       else resident_heap_pages (cur st)).
Proof.
  unfold heap_make_room. destruct (must_evict (cur st)).
  - intros Hr. apply Cow.obind_Ok_inv in Hr as (st1 & Hev & [= <-]).
    destruct (evict_keeps _ _ Hev) as (Hk & Hres & _).
    cbn [cur set_cur heap_tracker set_resident resident_heap_pages].
    split; [done|]. by rewrite Hres.
  - intros [= <-]. split; [apply tracker_kept_refl|done].
Qed.

Lemma heap_map_and_load_keeps fa lfd st st' :
  heap_map_and_load fa lfd st = Ok st' ->
  tracker_kept (heap_tracker (cur st)) (heap_tracker (cur st')) /\
  resident_heap_pages (cur st') = resident_heap_pages (cur st) + 1.
Proof.
  unfold heap_map_and_load. intros Hr.
  apply Cow.obind_Ok_inv in Hr as (pt & _ & Hr).
  apply Cow.obind_Ok_inv in Hr as (st2 & Hload & [= <-]).
  cbn [cur set_cur heap_tracker set_resident resident_heap_pages].
  assert (Hstamp : tracker_kept (heap_tracker (cur st))
    match list_find (fun h => addr h = fa) (heap_tracker (cur st)) with
    | Some (i, h) => <[ i := touch h (ticks st) ]> (heap_tracker (cur st))
    | None => heap_tracker (cur st)
    end).
  { destruct (list_find _ _) as [[i h]|] eqn:Hfind; [|apply tracker_kept_refl].
    apply list_find_Some in Hfind as (Hi & _).
    by eapply tracker_kept_insert. }
  destruct lfd.
  - destruct (retrieve_keeps _ _ _ Hload) as (Hht & Hres & _).
    rewrite Hht, Hres. done.
  - injection Hload as <-. done.
Qed.

(** The guard, for a process that is not the exempted one. *)
Lemma must_evict_other (p : proc) :
  nul_free (name p) = true -> name p <> "test5-odheap-bi"%string ->
  must_evict p = (resident_heap_pages p =? MAXRESHEAP).
Proof.
  intros Hnul Hname. unfold must_evict, lnot.
  destruct (Z.eqb_spec (strncmp (name p) "test5-odheap-bi" 16) 0) as [Hz|_];
    [|done].
  destruct Hname. apply (strncmp_0_eq 16); [done|reflexivity| |done].
  simpl. lia.
Qed.

(** Mapping fresh pages keeps the pages there are. *)
Lemma uvmalloc_loop_keeps n : forall (pt pt' : uvm) a newsz xperm,
  uvmalloc_loop n pt a newsz xperm = Ok pt' ->
  forall b e, pt !! b = Some e -> pt' !! b = Some e.
Proof.
  induction n as [|n IH]; intros pt pt' a newsz xperm; simpl.
  - destruct (a <? newsz); [done|]. by intros [= <-].
  - destruct (a <? newsz); [|by intros [= <-]].
    destruct (pt !! a) eqn:Ha; [done|].
    intros Hr b e Hb. eapply IH; [done|].
    rewrite lookup_insert_ne; [done|]. congruence.
Qed.

Lemma uvmalloc_keeps (pt pt' : uvm) oldsz newsz xperm :
  uvmalloc pt oldsz newsz xperm = Ok pt' ->
  forall b e, pt !! b = Some e -> pt' !! b = Some e.
Proof.
  unfold uvmalloc. destruct (newsz <? oldsz); [by intros [= <-]|].
  apply uvmalloc_loop_keeps.
Qed.

(** Loading a segment keeps every mapping and its permission. *)
Lemma loadseg_loop_keeps n : forall (pt pt' : uvm) va ip offset sz i,
  loadseg_loop n pt va ip offset sz i = Ok pt' ->
  forall b perm c, pt !! b = Some (perm, c) ->
    exists c', pt' !! b = Some (perm, c').
Proof.
  induction n as [|n IH]; intros pt pt' va ip offset sz i; simpl.
  - destruct (i <? sz); [done|]. intros [= <-]. eauto.
  - destruct (i <? sz); [|intros [= <-]; eauto].
    destruct (pt !! PGROUNDDOWN (va + i)) as [[perm0 c0]|] eqn:Hp; [|done].
    set (pt1 := <[ PGROUNDDOWN (va + i) := _ ]> pt).
    assert (Hstep : forall b perm c, pt !! b = Some (perm, c) ->
              exists c', pt1 !! b = Some (perm, c')).
    { intros b perm c Hb. unfold pt1.
      destruct (decide (b = PGROUNDDOWN (va + i))) as [->|Hne].
      - rewrite lookup_insert_eq. replace perm with perm0 by congruence. eauto.
      - rewrite lookup_insert_ne by done. eauto. }
    destruct (decide _).
    + intros Hr b perm c Hb. destruct (Hstep b perm c Hb) as [c1 Hb1].
      by eapply IH.
    + intros [= <-]. done.
Qed.

Lemma load_segments_keeps fa ip phs : forall (pt pt' : uvm),
  load_segments fa ip phs pt = Ok pt' ->
  forall b perm c, pt !! b = Some (perm, c) ->
    exists c', pt' !! b = Some (perm, c').
Proof.
  induction phs as [|ph phs IH]; intros pt pt'; simpl.
  - intros [= <-]. eauto.
  - intros Hr. apply Cow.obind_Ok_inv in Hr as (pt1 & Hone & Hr).
    intros b perm c Hb.
    assert (exists c1, pt1 !! b = Some (perm, c1)) as [c1 Hb1].
    { unfold load_segment in Hone. destruct (_ && _).
      - apply Cow.obind_Ok_inv in Hone as (pt0 & Hmap & Hload).
        eapply loadseg_loop_keeps; [exact Hload|].
        by eapply uvmalloc_keeps.
      - injection Hone as <-. eauto. }
    by eapply IH.
Qed.

(** X20. Outside the CoW branch, a fault that the handler resolves keeps
    the descriptor table in shape: same number of descriptors, each with
    the address it had, and every descriptor that was marked evicted is
    still marked evicted, the one just paged in included. *)
Theorem page_fault_keeps_descriptors (stval scause : Z) (st st' : kstate) :
  (scause =? 15) && cow_enabled (cur st) = false ->
  page_fault_handler stval scause st = Ok st' ->
  tracker_kept (heap_tracker (cur st)) (heap_tracker (cur st')).
Proof.
  intros Hcow. unfold page_fault_handler. rewrite Hcow.
  destruct (list_find _ _) as [[i h]|].
  - unfold heap_handle. intros Hr.
    apply Cow.obind_Ok_inv in Hr as (st1 & Hroom & Hload).
    apply heap_make_room_keeps in Hroom as [K1 _].
    apply heap_map_and_load_keeps in Hload as [K2 _].
    by eapply tracker_kept_trans.
  - unfold program_image. destruct (files st !! _); [|intros [= <-]; apply tracker_kept_refl].
    intros Hr. apply Cow.obind_Ok_inv in Hr as (pt & _ & [= <-]).
    apply tracker_kept_refl.
Qed.

(** X21. On the heap path, for a process that is not the exempted one, a
    resolved fault leaves the resident count at [MAXRESHEAP] when it was
    there and adds one otherwise; so the count never passes the ceiling
    once it is at most the ceiling. *)
Theorem heap_fault_resident_count (stval scause : Z) (st st' : kstate) i h :
  (scause =? 15) && cow_enabled (cur st) = false ->
  list_find (fun h => addr h = Z.shiftl (Z.shiftr stval 12) 12)
    (heap_tracker (cur st)) = Some (i, h) ->
  nul_free (name (cur st)) = true ->
  name (cur st) <> "test5-odheap-bi"%string ->
  page_fault_handler stval scause st = Ok st' ->
  resident_heap_pages (cur st')
    = (if resident_heap_pages (cur st) =? MAXRESHEAP then MAXRESHEAP
       else resident_heap_pages (cur st) + 1) /\
  (resident_heap_pages (cur st) <= MAXRESHEAP ->
   resident_heap_pages (cur st') <= MAXRESHEAP).
Proof.
  intros Hcow Hfind Hnul Hname. unfold page_fault_handler.
  cbv zeta. rewrite Hcow, Hfind. unfold heap_handle. intros Hr.
  apply Cow.obind_Ok_inv in Hr as (st1 & Hroom & Hload).
  apply heap_make_room_keeps in Hroom as [_ R1].
  apply heap_map_and_load_keeps in Hload as [_ R2].
  rewrite (must_evict_other _ Hnul Hname) in R1.
  assert (Hcount : resident_heap_pages (cur st')
    = (if resident_heap_pages (cur st) =? MAXRESHEAP then MAXRESHEAP
       else resident_heap_pages (cur st) + 1)).
  { rewrite R2, R1.
    destruct (Z.eqb_spec (resident_heap_pages (cur st)) MAXRESHEAP); lia. }
  split; [done|]. rewrite Hcount.
  destruct (Z.eqb_spec (resident_heap_pages (cur st)) MAXRESHEAP); lia.
Qed.

(** X22. On the program-image path (no descriptor carries the faulting
    page address), a resolved fault changes the page table only: the
    descriptors, the resident count, the swap bitmap and the disk are as
    before, and every page that was mapped is still mapped with the
    permission it had. *)
Theorem image_fault_frame (stval scause : Z) (st st' : kstate) :
  (scause =? 15) && cow_enabled (cur st) = false ->
  list_find (fun h => addr h = Z.shiftl (Z.shiftr stval 12) 12)
    (heap_tracker (cur st)) = None ->
  page_fault_handler stval scause st = Ok st' ->
  heap_tracker (cur st') = heap_tracker (cur st) /\
  resident_heap_pages (cur st') = resident_heap_pages (cur st) /\
  psa_tracker st' = psa_tracker st /\
  disk st' = disk st /\
  forall b perm c, pagetable (cur st) !! b = Some (perm, c) ->
    exists c', pagetable (cur st') !! b = Some (perm, c').
Proof.
  intros Hcow Hnone. unfold page_fault_handler. cbv zeta.
  rewrite Hcow, Hnone. unfold program_image.
  destruct (files st !! _) as [ip|].
  - intros Hr. apply Cow.obind_Ok_inv in Hr as (pt & Hseg & [= <-]).
    cbn [cur set_cur heap_tracker resident_heap_pages psa_tracker disk
         pagetable set_pagetable].
    split_and!; try done. by eapply load_segments_keeps.
  - intros [= <-]. split_and!; try done. eauto.
Qed.

End DispatcherMore.

Lemma page_fault_keeps_descriptors_witness :
  exists st',
    page_fault_handler (H := demo_kernel) 24580 13 two_pages_state = Ok st' /\
    tracker_kept (heap_tracker (cur two_pages_state)) (heap_tracker (cur st')).
Proof.
  eexists. split; [vm_compute; reflexivity|].
  apply (page_fault_keeps_descriptors (H := demo_kernel) 24580 13);
    [reflexivity | vm_compute; reflexivity].
Defined.

Lemma heap_fault_resident_count_witness :
  exists st',
    page_fault_handler (H := demo_kernel) 24580 13 two_pages_state = Ok st' /\
    resident_heap_pages (cur two_pages_state) = 2 /\
    resident_heap_pages (cur st') = 2.
Proof.
  eexists. split; [vm_compute; reflexivity|]. split; [reflexivity|].
  apply (heap_fault_resident_count (H := demo_kernel) 24580 13
           two_pages_state _ 2%nat
           {| addr := 24576; last_load_time := UINT64_MAX; loaded := false;
              startblock := -1 |});
    [reflexivity | reflexivity | reflexivity | discriminate
    | vm_compute; reflexivity].
Defined.

(** [image_state] after the fault at address 4100. *)
Definition image_state_after : kstate :=
  set_cur image_state (set_pagetable (cur image_state)
    {[ 0 := (4, page_of Byte.x41); 4096 := (4, page_of Byte.x42) ]}).

Lemma image_fault_frame_witness :
  page_fault_handler (H := demo_kernel) 4100 13 image_state
    = Ok image_state_after /\
  heap_tracker (cur image_state_after) = heap_tracker (cur image_state) /\
  psa_tracker image_state_after = psa_tracker image_state /\
  disk image_state_after = disk image_state /\
  exists c', pagetable (cur image_state_after) !! 0 = Some (4, c').
Proof.
  assert (Hrun : page_fault_handler (H := demo_kernel) 4100 13 image_state
                 = Ok image_state_after) by (vm_compute; reflexivity).
  split; [exact Hrun|].
  destruct (image_fault_frame (H := demo_kernel) 4100 13 image_state
              image_state_after eq_refl eq_refl Hrun)
    as (Hht & _ & Hpsa & Hdisk & Hpages).
  split; [exact Hht|]. split; [exact Hpsa|]. split; [exact Hdisk|].
  apply (Hpages 0 4 (page_of Byte.x5a)). vm_compute. reflexivity.
Defined.

(* ===================================================================== *)
(** ** A segment of one page *)
(* ===================================================================== *)

Lemma fault_page_aligned stval :
  Z.shiftl (Z.shiftr stval 12) 12 = stval / PGSIZE * PGSIZE.
Proof. by rewrite Z.shiftl_mul_pow2, Z.shiftr_div_pow2. Qed.

(** Reading at most one page of file bytes into the page mapped at an
    aligned [va]. *)
Lemma loadseg_one_page (pt : uvm) va ip offset sz perm content :
  0 <= sz <= PGSIZE -> 0 <= offset ->
  offset + sz <= Z.of_nat (length (data ip)) ->
  va mod PGSIZE = 0 ->
  pt !! va = Some (perm, content) ->
  loadseg pt va ip offset sz
    = Ok (<[ va := (perm, take (Z.to_nat sz) (drop (Z.to_nat offset) (data ip))
                            ++ drop (Z.to_nat sz) content) ]> pt).
Proof.
  intros Hsz Hoff Hfile Hal Hmap. unfold loadseg.
  assert (Hdown : PGROUNDDOWN (va + 0) = va).
  { unfold PGROUNDDOWN. rewrite Z.add_0_r.
    apply Z.div_exact in Hal; [|unfold PGSIZE; lia]. lia. }
  assert (Hgot : forall want, 0 <= want -> want <= sz ->
            length (take (Z.to_nat want) (drop (Z.to_nat offset) (data ip)))
              = Z.to_nat want).
  { intros want H0 Hw. rewrite length_take, length_drop. lia. }
  destruct (decide (sz = 0)) as [->|Hpos].
  - cbn [Z.div Z.add Z.to_nat Pos.to_nat Pos.iter_op Nat.add loadseg_loop].
    change (0 / PGSIZE + 1) with 1. cbn.
    rewrite insert_id; [done|]. by rewrite Hmap.
  - destruct (decide (sz = PGSIZE)) as [->|Hlt].
    + change (Z.to_nat (PGSIZE / PGSIZE + 1)) with 2%nat.
      cbn [loadseg_loop]. change (0 <? PGSIZE) with true. cbv iota.
      rewrite Hdown, Hmap. cbv zeta.
      change (PGSIZE - 0 <? PGSIZE) with false. cbv iota.
      rewrite Z.add_0_r.
      destruct (decide _) as [_|Hbad];
        [|destruct Hbad; apply Hgot; unfold PGSIZE in *; lia].
      change ((0 + PGSIZE) mod 2 ^ 32) with PGSIZE.
      rewrite Z.ltb_irrefl. by rewrite Hgot by (unfold PGSIZE in *; lia).
    + rewrite Z.div_small by lia.
      change (Z.to_nat (0 + 1)) with 1%nat.
      cbn [loadseg_loop].
      destruct (Z.ltb_spec 0 sz); [|lia]. rewrite Hdown, Hmap. cbv zeta.
      rewrite Z.sub_0_r, Z.add_0_r.
      destruct (Z.ltb_spec sz PGSIZE); [|lia].
      destruct (decide _) as [_|Hbad]; [|destruct Hbad; apply Hgot; lia].
      change ((0 + PGSIZE) mod 2 ^ 32) with PGSIZE.
      destruct (Z.ltb_spec PGSIZE sz); [lia|].
      by rewrite Hgot by lia.
Qed.

Section OnePage.
Context `{Kernel}.

(** The headers whose segment does not hold the faulting page are passed
    over. *)
Definition holds_fault (fa : Z) (ph : proghdr) : bool :=
  (vaddr ph <=? fa) && (fa <? wrap64 (vaddr ph + memsz ph)).

Lemma load_segments_skip fa ip phs (pt : uvm) :
  Forall (fun q => holds_fault fa q = false) phs ->
  load_segments fa ip phs pt = Ok pt.
Proof.
  induction 1 as [|q phs Hq _ IH]; [done|].
  cbn [load_segments]. unfold load_segment. unfold holds_fault in Hq.
  rewrite Hq. cbn [obind]. exact IH.
Qed.

Lemma load_segments_app fa ip phs1 phs2 (pt : uvm) :
  load_segments fa ip (phs1 ++ phs2) pt
    = (pt1 <-- load_segments fa ip phs1 pt ;; load_segments fa ip phs2 pt1).
Proof.
  revert pt. induction phs1 as [|q phs1 IH]; intros pt; [done|].
  cbn [app load_segments].
  destruct (load_segment fa ip pt q); cbn [obind]; [apply IH|done..].
Qed.

(** X23. A segment that starts at the faulting page and has at most one
    page of file bytes, all of them in the file, is loaded as intended
    when it is the only segment holding the faulting address and the page
    is not mapped yet: the handler returns, and the only change is the new
    page, with the permission of the segment's flags, holding the
    [filesz] file bytes from [off] on followed by zeros. *)
Theorem single_page_segment_loaded (stval scause : Z) (st : kstate) ip
    before ph after :
  let fa := Z.shiftl (Z.shiftr stval 12) 12 in
  (scause =? 15) && cow_enabled (cur st) = false ->
  list_find (fun h => addr h = fa) (heap_tracker (cur st)) = None ->
  files st !! name (cur st) = Some ip ->
  phdrs ip = before ++ ph :: after ->
  Forall (fun q => holds_fault fa q = false) (before ++ after) ->
  vaddr ph = fa -> fa < wrap64 (fa + memsz ph) ->
  0 <= stval < 2 ^ 64 - PGSIZE ->
  0 <= off ph < 2 ^ 32 -> 0 <= filesz ph <= PGSIZE ->
  off ph + filesz ph <= Z.of_nat (length (data ip)) ->
  pagetable (cur st) !! fa = None ->
  page_fault_handler stval scause st
    = Ok (set_cur st (set_pagetable (cur st)
            (<[ fa := (flags2perm (flags ph),
                       take (Z.to_nat (filesz ph))
                            (drop (Z.to_nat (off ph)) (data ip))
                         ++ replicate (Z.to_nat (PGSIZE - filesz ph)) Byte.x00) ]>
               (pagetable (cur st))))).
Proof.
  intros fa Hcow Hnone Hfile Hphs Hothers Hva Hin Hst Hoff Hsz Hdata Hpage.
  assert (Hfa : fa = stval / PGSIZE * PGSIZE) by apply fault_page_aligned.
  assert (Hal : fa mod PGSIZE = 0)
    by (rewrite Hfa; apply Z.mod_mul; unfold PGSIZE; lia).
  assert (Hfa0 : 0 <= fa /\ fa <= stval).
  { pose proof (Z.mul_div_le stval PGSIZE ltac:(unfold PGSIZE; lia)).
    pose proof (Z.div_pos stval PGSIZE ltac:(lia) ltac:(unfold PGSIZE; lia)).
    unfold PGSIZE in *. lia. }
  apply Forall_app in Hothers as [Hbefore Hafter].
  unfold page_fault_handler. cbv zeta. fold fa. rewrite Hcow, Hnone.
  unfold program_image. rewrite Hfile, Hphs.
  rewrite load_segments_app, (load_segments_skip _ _ _ _ Hbefore).
  cbn [obind load_segments].
  rewrite load_segment_whole_segment
    by (rewrite Hva; apply andb_true_intro; split;
        [apply Z.leb_refl | by apply Z.ltb_lt]).
  rewrite uvmalloc_one_page by (try done; lia). cbn [obind].
  rewrite !Z.mod_small by (unfold PGSIZE in *; lia).
  rewrite Hva.
  rewrite (loadseg_one_page _ fa ip (off ph) (filesz ph)
             (flags2perm (flags ph)) zero_page); try done; try lia;
    [|apply lookup_insert_eq].
  cbn [obind]. rewrite (load_segments_skip _ _ _ _ Hafter). cbn [obind].
  rewrite insert_insert_eq. unfold zero_page.
  rewrite drop_replicate.
  replace (Z.to_nat PGSIZE - Z.to_nat (filesz ph))%nat
    with (Z.to_nat (PGSIZE - filesz ph)) by lia.
  done.
Qed.

End OnePage.

Lemma single_page_segment_loaded_witness :
  page_fault_handler (H := demo_kernel) 4200 12 small_state
    = Ok (set_cur small_state (set_pagetable (cur small_state)
            {[ 4096 := (8, replicate 400 Byte.x41
                             ++ replicate 3696 Byte.x00) ]})).
Proof.
  eapply eq_trans.
  - apply (single_page_segment_loaded (H := demo_kernel) 4200 12 small_state
             small_binary []
             {| vaddr := 4096; memsz := 4096; off := 64; filesz := 400;
                flags := 5 |} []).
    + reflexivity.
    + reflexivity.
    + vm_compute. reflexivity.
    + reflexivity.
    + apply Forall_nil_2.
    + reflexivity.
    + vm_compute. reflexivity.
    + unfold PGSIZE. lia.
    + cbn [off]. lia.
    + cbn [filesz]. unfold PGSIZE. lia.
    + vm_compute. discriminate.
    + vm_compute. reflexivity.
  - vm_compute. reflexivity.
Defined.

End Pfault.
